(** * Egyptian purchase-order processor: the pipeline of [app.py]

    A shallow embedding of the processing part of [app.py] (the functions
    [extract_text], [identify_product], [extract_quantity], [process_pdf],
    the batch loop and the aggregation block) and the properties of its
    specification that can be settled on it.

    Conventions.
    - A Python [str] is the list of its code points ([N]).  Literals are
      written as UTF-8 text and decoded by [u].
    - A Python [int] is a [Z].
    - Exceptions are values: a computation returns [Ok v] or [Raise e], and the
      effectful part of the script (the wall clock, the Streamlit widgets)
      runs in the state-and-exception monad [M].
    - A [dict] is an association list in insertion order, which is the order
      in which Python iterates it.
    - The libraries the script calls ([re], [fitz], [datetime], [streamlit])
      are modelled by what the script observes of them. *)

From Stdlib Require Import List NArith ZArith Lia Bool String Ascii.
From Stdlib Require Import Permutation.
Import ListNotations.

Set Implicit Arguments.
Local Open Scope N_scope.

(* ------------------------------------------------------------------ *)
(** * Python strings *)

Module Str.

Definition char := N.
Definition str := list char.

Definition eqb (a b : str) : bool :=
  if list_eq_dec N.eq_dec a b then true else false.

(** UTF-8 decoding, used to write literals.  [pending] counts the
    continuation bytes still expected and [acc] holds the bits read so far. *)
Fixpoint decode (bs : list N) (pending : nat) (acc : N) : str :=
  match bs with
  | [] => []
  | b :: bs' =>
      match pending with
      | O =>
          if b <? 0x80 then b :: decode bs' 0 0
          else if b <? 0xE0 then decode bs' 1 (b - 0xC0)
          else if b <? 0xF0 then decode bs' 2 (b - 0xE0)
          else decode bs' 3 (b - 0xF0)
      | S p =>
          let acc' := acc * 64 + (b - 0x80) in
          match p with
          | O => acc' :: decode bs' 0 0
          | S _ => decode bs' p acc'
          end
      end
  end.

Definition u (s : string) : str :=
  decode (map N_of_ascii (list_ascii_of_string s)) 0 0.

(** [str.isspace], which is what [\s] tests on a [str] pattern. *)
Definition isspace (c : char) : bool :=
  ((0x09 <=? c) && (c <=? 0x0D)) || ((0x1C <=? c) && (c <=? 0x20))
  || (c =? 0x85) || (c =? 0xA0) || (c =? 0x1680)
  || ((0x2000 <=? c) && (c <=? 0x200A))
  || (c =? 0x2028) || (c =? 0x2029) || (c =? 0x202F) || (c =? 0x205F)
  || (c =? 0x3000).

(** The decimal digits (general category Nd, Unicode 14) come in blocks of
    ten consecutive code points, zero first.  These are the zeros. *)
Definition decimal_zeros : list char :=
  [ 0x30; 0x660; 0x6f0; 0x7c0; 0x966; 0x9e6; 0xa66; 0xae6; 0xb66; 0xbe6;
    0xc66; 0xce6; 0xd66; 0xde6; 0xe50; 0xed0; 0xf20; 0x1040; 0x1090; 0x17e0;
    0x1810; 0x1946; 0x19d0; 0x1a80; 0x1a90; 0x1b50; 0x1bb0; 0x1c40; 0x1c50;
    0xa620; 0xa8d0; 0xa900; 0xa9d0; 0xa9f0; 0xaa50; 0xabf0; 0xff10; 0x104a0;
    0x10d30; 0x11066; 0x110f0; 0x11136; 0x111d0; 0x112f0; 0x11450; 0x114d0;
    0x11650; 0x116c0; 0x11730; 0x118e0; 0x11950; 0x11c50; 0x11d50; 0x11da0;
    0x16a60; 0x16ac0; 0x16b50; 0x1d7ce; 0x1d7d8; 0x1d7e2; 0x1d7ec; 0x1d7f6;
    0x1e140; 0x1e2f0; 0x1e950; 0x1fbf0 ].

Definition in_block (c zero : char) : bool := (zero <=? c) && (c <? zero + 10).

(** [\d] on a [str] pattern: any decimal digit. *)
Definition isdecimal (c : char) : bool := existsb (in_block c) decimal_zeros.

(** The value of a decimal digit (0 for any other character). *)
Definition digit_value (c : char) : N :=
  match find (in_block c) decimal_zeros with
  | Some zero => c - zero
  | None => 0
  end.

(** Case folding as [re.IGNORECASE] applies it to a [str] pattern: a text
    character is lowered and looked up among the lowered pattern character
    and its fix-ups.  The catalog's patterns hold ASCII letters, Arabic
    letters, spaces and the operators [.] and [*]; the tables below are those
    of the interpreter cut down to the code points that can meet such a
    pattern: the only characters outside ASCII that lower to an ASCII letter
    are U+0130 (to i) and U+212A (to k), and the only fix-ups that involve
    ASCII letters pair i with U+0131, s with U+017F and k with U+212A. *)
Definition is_ascii_upper (c : char) : bool := (0x41 <=? c) && (c <=? 0x5A).
Definition is_ascii_lower (c : char) : bool := (0x61 <=? c) && (c <=? 0x7A).

Definition tolower (c : char) : char :=
  if is_ascii_upper c then c + 32
  else if c =? 0x130 then 0x69
  else if c =? 0x212A then 0x6B
  else c.

Definition iscased (c : char) : bool :=
  is_ascii_upper c || is_ascii_lower c
  || (c =? 0x130) || (c =? 0x131) || (c =? 0x17F) || (c =? 0x212A).

Definition ignorecase_fixes (lo : char) : list char :=
  if lo =? 0x69 then [0x131]
  else if lo =? 0x131 then [0x69]
  else if lo =? 0x73 then [0x17F]
  else if lo =? 0x17F then [0x73]
  else if lo =? 0x6B then [0x212A]
  else if lo =? 0x212A then [0x6B]
  else [].

Definition mem (c : char) (cs : list char) : bool := existsb (N.eqb c) cs.

End Str.

Import Str.

(* ------------------------------------------------------------------ *)
(** * Regular expressions: the fragment of [re] the script uses

    The seven patterns of the script are built from literal characters, [.],
    [\s], [\d], a character set, the greedy repeats [*], [+] and [?] applied
    to a single character, alternation and capturing groups.  [search] is the
    backtracking matcher of [re.search] on that fragment: leftmost start,
    first alternative first, longest repeat first. *)

Module Re.

Inductive atom : Type :=
| Literal (c : char)
| Any
| Space
| Digit
| In (cs : list char).

Inductive pattern : Type :=
| Empty
| One (a : atom)
| MaxRepeat (lo : nat) (hi : option nat) (a : atom)
| Seq (p q : pattern)
| Branch (p q : pattern)
| Subpattern (n : nat) (p : pattern).

(** ** Parsing a pattern string *)

Definition result_of_parse : Type := option (pattern * str * nat).

Fixpoint parse_set (s : str) (acc : list char) : option (list char * str) :=
  match s with
  | [] => None
  | c :: s' =>
      if c =? 0x5D (* ] *) then Some (rev acc, s')
      else if c =? 0x5C (* \ *) then None
      else if c =? 0x2D (* - *) then None
      else if c =? 0x5E (* ^ *) then None
      else parse_set s' (c :: acc)
  end.

Definition is_quantifier (c : char) : bool :=
  (c =? 0x2A) || (c =? 0x2B) || (c =? 0x3F) || (c =? 0x7B).

(** The repeat that may follow a single character. *)
Definition parse_repeat (a : atom) (s : str) (n : nat) : result_of_parse :=
  let lazy_or_possessive (r : str) :=
    match r with
    | c :: _ => is_quantifier c
    | [] => false
    end in
  match s with
  | c :: r =>
      if c =? 0x2A (* * *) then
        if lazy_or_possessive r then None else Some (MaxRepeat 0 None a, r, n)
      else if c =? 0x2B (* + *) then
        if lazy_or_possessive r then None else Some (MaxRepeat 1 None a, r, n)
      else if c =? 0x3F (* ? *) then
        if lazy_or_possessive r then None
        else Some (MaxRepeat 0 (Some 1%nat) a, r, n)
      else if c =? 0x7B (* { *) then None
      else Some (One a, s, n)
  | [] => Some (One a, s, n)
  end.

(** [n] is the number of groups opened so far. *)
Fixpoint parse_branches (fuel : nat) (s : str) (n : nat) : result_of_parse :=
  match fuel with
  | O => None
  | S f =>
      match parse_items f s n with
      | Some (p, c :: r, n1) =>
          if c =? 0x7C (* | *) then
            match parse_branches f r n1 with
            | Some (q, r', n2) => Some (Branch p q, r', n2)
            | None => None
            end
          else Some (p, c :: r, n1)
      | other => other
      end
  end
with parse_items (fuel : nat) (s : str) (n : nat) : result_of_parse :=
  match fuel with
  | O => None
  | S f =>
      match s with
      | [] => Some (Empty, [], n)
      | c :: r =>
          if (c =? 0x7C) || (c =? 0x29) then Some (Empty, s, n)
          else
            match parse_item f s n with
            | Some (p, r1, n1) =>
                match parse_items f r1 n1 with
                | Some (Empty, r2, n2) => Some (p, r2, n2)
                | Some (q, r2, n2) => Some (Seq p q, r2, n2)
                | None => None
                end
            | None => None
            end
      end
  end
with parse_item (fuel : nat) (s : str) (n : nat) : result_of_parse :=
  match fuel with
  | O => None
  | S f =>
      match s with
      | [] => None
      | c :: r =>
          if c =? 0x28 (* ( *) then
            match r with
            | q :: _ =>
                if q =? 0x3F then None
                else
                  match parse_branches f r (S n) with
                  | Some (p, c' :: r', n1) =>
                      if c' =? 0x29 (* ) *) then
                        match r' with
                        | c'' :: _ =>
                            if is_quantifier c'' then None
                            else Some (Subpattern (S n) p, r', n1)
                        | [] => Some (Subpattern (S n) p, r', n1)
                        end
                      else None
                  | _ => None
                  end
            | [] => None
            end
          else if c =? 0x5C (* \ *) then
            match r with
            | e :: r' =>
                if e =? 0x73 (* s *) then parse_repeat Space r' n
                else if e =? 0x64 (* d *) then parse_repeat Digit r' n
                else None
            | [] => None
            end
          else if c =? 0x5B (* [ *) then
            match parse_set r [] with
            | Some (cs, r') => parse_repeat (In cs) r' n
            | None => None
            end
          else if c =? 0x2E (* . *) then parse_repeat Any r n
          else if is_quantifier c || (c =? 0x5E) || (c =? 0x24)
                  || (c =? 0x5D) || (c =? 0x7D) then None
          else parse_repeat (Literal c) r n
      end
  end.

Definition parse (s : str) : option pattern :=
  match parse_branches (3 * List.length s + 3)%nat s 0 with
  | Some (p, [], _) => Some p
  | _ => None
  end.

(** A pattern outside the fragment is answered by a pattern that matches
    nothing; the patterns of the script are all inside (see
    [PRODUCT_MAP_parses] and [quantity_pattern_parses] below). *)
Definition compile (s : string) : pattern :=
  match parse (u s) with
  | Some p => p
  | None => One (In [])
  end.

(** ** Matching *)

Section Matching.

(** The flag [re.IGNORECASE]. *)
Variable ignorecase : bool.

Definition literal_matches (p c : char) : bool :=
  if ignorecase && iscased p then
    let lo := tolower p in
    mem (tolower c) (lo :: ignorecase_fixes lo)
  else c =? p.

Definition atom_matches (a : atom) (c : char) : bool :=
  match a with
  | Literal p => literal_matches p c
  | Any => negb (c =? 0x0A)
  | Space => isspace c
  | Digit => isdecimal c
  | In cs => existsb (fun p => literal_matches p c) cs
  end.

Section Continuations.
Context {A : Type}.

(** Exactly [n] characters matching [a]. *)
Fixpoint times (a : atom) (n : nat) (s : str) (k : str -> option A)
  : option A :=
  match n with
  | O => k s
  | S n' =>
      match s with
      | c :: s' => if atom_matches a c then times a n' s' k else None
      | [] => None
      end
  end.

Definition may_take (hi : option nat) : bool :=
  match hi with
  | Some O => false
  | _ => true
  end.

(** At most [hi] further characters matching [a], as many as possible
    first, giving one back at a time when the rest fails. *)
Fixpoint greedy (a : atom) (hi : option nat) (s : str)
         (k : str -> option A) : option A :=
  match s with
  | c :: s' =>
      if may_take hi && atom_matches a c then
        match greedy a (option_map Nat.pred hi) s' k with
        | Some r => Some r
        | None => k s
        end
      else k s
  | [] => k []
  end.
End Continuations.

(** The text of each group that took part in the match, latest first. *)
Definition groups : Type := list (nat * str).

Fixpoint run (p : pattern) (s : str) (g : groups)
         (k : str -> groups -> option groups) : option groups :=
  match p with
  | Empty => k s g
  | One a =>
      match s with
      | c :: s' => if atom_matches a c then k s' g else None
      | [] => None
      end
  | MaxRepeat lo hi a =>
      times a lo s
        (fun s1 =>
           greedy a (option_map (fun h => (h - lo)%nat) hi) s1
             (fun s2 => k s2 g))
  | Seq p1 p2 => run p1 s g (fun s1 g1 => run p2 s1 g1 k)
  | Branch p1 p2 =>
      match run p1 s g k with
      | Some r => Some r
      | None => run p2 s g k
      end
  | Subpattern n p1 =>
      run p1 s g
        (fun s1 g1 =>
           k s1 ((n, firstn (List.length s - List.length s1)%nat s) :: g1))
  end.

(** [re.match]: the pattern at the start of [s]; group 0 is the whole
    match. *)
Definition match_here (p : pattern) (s : str) : option groups :=
  run (Subpattern 0 p) s [] (fun _ g => Some g).

(** [re.search]: the first position of the text where the pattern
    matches. *)
Fixpoint search (p : pattern) (s : str) : option groups :=
  match match_here p s with
  | Some g => Some g
  | None =>
      match s with
      | [] => None
      | _ :: s' => search p s'
      end
  end.

End Matching.

(** [m.group(n)]: [None] when group [n] took no part in the match. *)
Fixpoint group (n : nat) (m : groups) : option str :=
  match m with
  | [] => None
  | (i, t) :: m' => if Nat.eqb i n then Some t else group n m'
  end.

End Re.

(* ------------------------------------------------------------------ *)
(** * Python values, exceptions and [int] *)

Module Py.

Inductive exception_class : Type :=
| TypeError
| ValueError
| LibraryError (class_name : str).

(** An exception, with the text [str(e)] gives. *)
Record exception : Type := Exception
  { exc_class : exception_class;
    exc_message : str }.

Inductive result (A : Type) : Type :=
| Ok (a : A)
| Raise (e : exception).

Arguments Ok {A} a.
Arguments Raise {A} e.

(** The values [int] is applied to in the script. *)
Inductive value : Type :=
| VNone
| VStr (s : str)
| VInt (z : Z).

Definition of_group (o : option str) : value :=
  match o with
  | Some s => VStr s
  | None => VNone
  end.

(** Decimal notation of a natural number. *)
Fixpoint decimal_fuel (fuel : nat) (n : N) (acc : str) : str :=
  match fuel with
  | O => acc
  | S f =>
      let acc' := (0x30 + n mod 10) :: acc in
      if n / 10 =? 0 then acc' else decimal_fuel f (n / 10) acc'
  end.

Definition decimal (n : N) : str := decimal_fuel (S (N.size_nat n)) n [].

(** The number a run of decimal digits denotes. *)
Definition int_of_digits (s : str) : N :=
  fold_left (fun acc c => 10 * acc + digit_value c) s 0.

(** [sys.get_int_max_str_digits()], at its default. *)
Definition int_max_str_digits : nat := 4300.

Definition int_none_message : str :=
  u "int() argument must be a string, a bytes-like object or a real number, not 'NoneType'".

Definition int_limit_message (digits : nat) : str :=
  u "Exceeds the limit (" ++ decimal (N.of_nat int_max_str_digits)
    ++ u " digits) for integer string conversion: value has "
    ++ decimal (N.of_nat digits)
    ++ u " digits; use sys.set_int_max_str_digits() to increase the limit".

Definition int_literal_message (s : str) : str :=
  u "invalid literal for int() with base 10: '" ++ s ++ u "'".

(** [int(v)].  The strings that reach it in the script are matches of
    [(\d+)], runs of decimal digits; on those the conversion is exact,
    including the limit on the number of digits.  (Signs, underscores and
    surrounding white space, which [int] also accepts, and the quoting of
    [repr] in the last message are not modelled.) *)
Definition int (v : value) : result Z :=
  match v with
  | VInt z => Ok z
  | VNone => Raise (Exception TypeError int_none_message)
  | VStr s =>
      if negb (forallb isdecimal s) || Str.eqb s [] then
        Raise (Exception ValueError (int_literal_message s))
      else if (int_max_str_digits <? List.length s)%nat then
        Raise (Exception ValueError (int_limit_message (List.length s)))
      else Ok (Z.of_N (int_of_digits s))
  end.

(** [x or y] on integers. *)
Definition or_int (x y : Z) : Z := if (x =? 0)%Z then y else x.

(** Truth value of a string. *)
Definition truthy (s : str) : bool := negb (Str.eqb s []).

(** ** Dictionaries from strings to integers, in insertion order *)

Definition dict : Type := list (str * Z).

(** [d.get(k, default)] *)
Fixpoint get (d : dict) (k : str) (default : Z) : Z :=
  match d with
  | [] => default
  | (k', v) :: d' => if Str.eqb k' k then v else get d' k default
  end.

(** [d[k] = v]: an existing key keeps its place, a new one goes last. *)
Fixpoint set (d : dict) (k : str) (v : Z) : dict :=
  match d with
  | [] => [(k, v)]
  | (k', v') :: d' =>
      if Str.eqb k' k then (k', v) :: d' else (k', v') :: set d' k v
  end.

Definition keys (d : dict) : list str := map fst d.
Definition values (d : dict) : list Z := map snd d.

(** [sum(xs)] *)
Definition sum (xs : list Z) : Z := fold_left Z.add xs 0%Z.

End Py.

Import Py.

(* ------------------------------------------------------------------ *)
(** * The world of the script: wall clock and Streamlit output *)

Module World.

Record datetime : Type :=
  { year : N; month : N; day : N; hour : N; minute : N; second : N }.

Definition pad2 (n : N) : str :=
  if n <? 10 then 0x30 :: decimal n else decimal n.

(** [strftime("%H%M%S")] and [strftime("%Y-%m-%d")] *)
Definition strftime_HMS (t : datetime) : str :=
  pad2 (hour t) ++ pad2 (minute t) ++ pad2 (second t).

Definition strftime_Ymd (t : datetime) : str :=
  decimal (year t) ++ u "-" ++ pad2 (month t) ++ u "-" ++ pad2 (day t).

(** What the script puts on the page while it processes files. *)
Inductive ui_event : Type :=
| Write (text : str)
| Success (text : str)
| Error (text : str).

(** [wall i] is the time the [i]-th call of [datetime.now()] reads. *)
Record world : Type :=
  { wall : nat -> datetime;
    now_calls : nat;
    screen : list ui_event }.

(** State and exceptions: the state reached when an exception is raised is
    kept. *)
Definition M (A : Type) : Type := world -> result A * world.

Definition ret {A} (a : A) : M A := fun w => (Ok a, w).

Definition bind {A B} (m : M A) (f : A -> M B) : M B :=
  fun w =>
    match m w with
    | (Ok a, w') => f a w'
    | (Raise e, w') => (Raise e, w')
    end.

Definition lift {A} (r : result A) : M A := fun w => (r, w).

(** [try: body  except Exception as e: handler(e)] *)
Definition try_except {A} (body : M A) (handler : exception -> M A) : M A :=
  fun w =>
    match body w with
    | (Ok a, w') => (Ok a, w')
    | (Raise e, w') => handler e w'
    end.

Definition datetime_now : M datetime :=
  fun w =>
    (Ok (wall w (now_calls w)),
     {| wall := wall w; now_calls := S (now_calls w); screen := screen w |}).

Definition show (e : ui_event) : M unit :=
  fun w =>
    (Ok tt,
     {| wall := wall w; now_calls := now_calls w;
        screen := screen w ++ [e] |}).

Definition st_write (text : str) : M unit := show (Write text).
Definition st_success (text : str) : M unit := show (Success text).
Definition st_error (text : str) : M unit := show (Error text).

End World.

Import World.

Declare Scope monad_scope.
Delimit Scope monad_scope with monad.
Notation "x <- m ;; k" := (bind m (fun x => k))
  (at level 61, m at next level, right associativity) : monad_scope.
Notation "m ;;; k" := (bind m (fun _ => k))
  (at level 61, right associativity) : monad_scope.

(* ------------------------------------------------------------------ *)
(** * The pipeline of [app.py] *)

Local Open Scope string_scope.
Local Open Scope list_scope.

(** [re.search(pattern, text)] and [re.search(pattern, text, re.IGNORECASE)] *)
Definition re_search (pattern : string) (text : str) : option Re.groups :=
  Re.search false (Re.compile pattern) text.

Definition re_search_IGNORECASE (pattern : string) (text : str)
  : option Re.groups :=
  Re.search true (Re.compile pattern) text.

(** ** Product mapping *)

Definition catalog : Type := list (str * list string).

Definition PRODUCT_MAP : catalog :=
  [ (u "NeoMune", ["نو ميون"; "Enteral powder.*cachectic"]);
    (u "Aminoleban Oral", ["أمينوليبان"; "Amino Acid.*Hepatic.*Can"]);
    (u "Blendera MF", ["بليندرا"; "Lactose free.*low cholesterol"]) ].

(** ** PDF files as the script sees them

    [fitz] is outside the repository.  An uploaded file is given by its name
    and by what [fitz.open] makes of its bytes: an exception when the stream
    is not a well-formed PDF, otherwise the pages, each given by what
    [page.get_text()] does on it. *)

Record Page : Type := { get_text : result str }.

Record UploadedFile : Type :=
  { name : str;
    fitz_open : result (list Page) }.

(** ** PDF processing functions *)

Definition extract_text (page : Page) : str :=
  match get_text page with
  | Ok text => text
  | Raise _ => []
  end.

(** The inner loop of [identify_product]: does one of the patterns match? *)
Fixpoint some_pattern_matches (patterns : list string) (text : str) : bool :=
  match patterns with
  | [] => false
  | pattern :: rest =>
      match re_search_IGNORECASE pattern text with
      | Some _ => true
      | None => some_pattern_matches rest text
      end
  end.

(** [identify_product] over a given catalog, in its iteration order. *)
Fixpoint identify_product_in (products : catalog) (text : str) : option str :=
  match products with
  | [] => None
  | (product, patterns) :: rest =>
      if some_pattern_matches patterns text then Some product
      else identify_product_in rest text
  end.

Definition identify_product (text : str) : option str :=
  identify_product_in PRODUCT_MAP text.

Definition quantity_pattern : string :=
  "الكمية\s*[:;]?\s*(\d+)|Quantity\s*[:;]?\s*(\d+)".

(** The [return] of [extract_quantity] lacks one closing parenthesis in the
    source.  It can be closed in two places, [int(match.group(1)) if match
    else 0] and [int(match.group(1) if match else 0)]; the two are the same
    function ([extract_quantity_either_way]), modelled here in the first
    form. *)
Definition extract_quantity (text : str) : result Z :=
  match re_search quantity_pattern text with
  | Some m => int (of_group (Re.group 1 m))
  | None => Ok 0%Z
  end.

Definition extract_quantity_alt (text : str) : result Z :=
  int (match re_search quantity_pattern text with
       | Some m => of_group (Re.group 1 m)
       | None => VInt 0
       end).

Record LineItem : Type :=
  { item_name : str;
    quantity : Z }.

Record HospitalData : Type :=
  { hospital_name : str;
    request_no : str }.

Record Results : Type :=
  { po_number : str;
    date : str;
    hospital_data : HospitalData;
    summary_items : list LineItem;
    ocr_pages : list str }.

(** The [for page in doc] loop; [summary_items] is the list built so far. *)
Fixpoint pages_loop (doc : list Page) (summary_items : list LineItem)
  : result (list LineItem) :=
  match doc with
  | [] => Ok summary_items
  | page :: rest =>
      let text := extract_text page in
      match identify_product text with
      | Some product =>
          if truthy product then
            match extract_quantity text with
            | Ok q =>
                pages_loop rest
                  (summary_items
                     ++ [{| item_name := product;
                            quantity := or_int q 10 |}])
            | Raise e => Raise e
            end
          else pages_loop rest summary_items
      | None => pages_loop rest summary_items
      end
  end.

Local Open Scope monad_scope.

Definition process_pdf (file : UploadedFile) : M (option Results) :=
  try_except
    (doc <- lift (fitz_open file) ;;
     t1 <- datetime_now ;;
     t2 <- datetime_now ;;
     items <- lift (pages_loop doc []) ;;
     ret (Some {| po_number := u "DEMO-" ++ strftime_HMS t1;
                  date := strftime_Ymd t2;
                  hospital_data :=
                    {| hospital_name := u "Demo Hospital";
                       request_no := u "DEMO-REQ" |};
                  summary_items := items;
                  ocr_pages := [] |}))
    (fun e =>
       st_error (u "Processing error: " ++ exc_message e) ;;;
       ret None).

(** ** Processing workflow *)

Record FileData : Type :=
  { file_name : str;
    data : option Results;
    error : option str }.

(** One turn of [for uploaded_file in uploaded_files].  (The [st.status]
    box around the loop only groups what is shown and is left out.) *)
Definition process_one (uploaded_file : UploadedFile)
           (processed_data : list FileData) : M (list FileData) :=
  try_except
    (st_write (u "🔍 Analyzing: " ++ name uploaded_file ++ u "...") ;;;
     result <- process_pdf uploaded_file ;;
     match result with
     | Some r =>
         st_success (u "✅ Processed: " ++ name uploaded_file) ;;;
         ret (processed_data
                ++ [{| file_name := name uploaded_file;
                       data := Some r;
                       error := None |}])
     | None =>
         st_error (u "❌ Failed: " ++ name uploaded_file) ;;;
         ret (processed_data
                ++ [{| file_name := name uploaded_file;
                       data := None;
                       error := Some (u "Processing failed") |}])
     end)
    (fun e =>
       st_error (u "⚠️ Error processing " ++ name uploaded_file ++ u ": "
                   ++ exc_message e) ;;;
       ret (processed_data
              ++ [{| file_name := name uploaded_file;
                     data := None;
                     error := Some (exc_message e) |}])).

Fixpoint process_files (uploaded_files : list UploadedFile)
         (processed_data : list FileData) : M (list FileData) :=
  match uploaded_files with
  | [] => ret processed_data
  | uploaded_file :: rest =>
      processed_data' <- process_one uploaded_file processed_data ;;
      process_files rest processed_data'
  end.

(** ** Aggregated reports *)

Record DistributionRow : Type :=
  { PO_Number : str;
    Date : str;
    Hospital : str;
    Item : str;
    Quantity : Z;
    Request_No : str }.

Record TotalRow : Type :=
  { total_Item : str;
    Total_Quantity : Z }.

Record AggregatedData : Type :=
  { consolidated_en_items : list TotalRow;
    multi_file_hospital_distribution : list DistributionRow;
    hospital_dist_item_totals : list TotalRow }.

(** "Add to consolidated items": the first loop over one file's items. *)
Fixpoint add_to_consolidated (items : list LineItem)
         (consolidated_items : dict) : dict :=
  match items with
  | [] => consolidated_items
  | item :: rest =>
      add_to_consolidated rest
        (set consolidated_items (item_name item)
           (get consolidated_items (item_name item) 0 + quantity item)%Z)
  end.

(** The row of one item.  [.get(key, '[MISSING]')] finds every key it asks
    for, since [process_pdf] always sets them. *)
Definition distribution_row (d : Results) (item : LineItem)
  : DistributionRow :=
  {| PO_Number := po_number d;
     Date := date d;
     Hospital := hospital_name (hospital_data d);
     Item := item_name item;
     Quantity := quantity item;
     Request_No := request_no (hospital_data d) |}.

(** "Add to hospital distribution": the second loop over the same items. *)
Fixpoint add_to_distribution (d : Results) (items : list LineItem)
         (hospital_distribution : list DistributionRow)
  : list DistributionRow :=
  match items with
  | [] => hospital_distribution
  | item :: rest =>
      add_to_distribution d rest
        (hospital_distribution ++ [distribution_row d item])
  end.

(** [for file_data in processed_data] *)
Fixpoint aggregate_files (processed_data : list FileData)
         (consolidated_items : dict)
         (hospital_distribution : list DistributionRow)
  : dict * list DistributionRow :=
  match processed_data with
  | [] => (consolidated_items, hospital_distribution)
  | file_data :: rest =>
      match data file_data with
      | Some d =>
          aggregate_files rest
            (add_to_consolidated (summary_items d) consolidated_items)
            (add_to_distribution d (summary_items d) hospital_distribution)
      | None => aggregate_files rest consolidated_items hospital_distribution
      end
  end.

(** "Calculate hospital totals" *)
Fixpoint add_to_totals (hospital_distribution : list DistributionRow)
         (hospital_totals : dict) : dict :=
  match hospital_distribution with
  | [] => hospital_totals
  | item :: rest =>
      add_to_totals rest
        (set hospital_totals (Item item)
           (get hospital_totals (Item item) 0 + Quantity item)%Z)
  end.

Definition total_rows (d : dict) : list TotalRow :=
  map (fun kv => {| total_Item := fst kv; Total_Quantity := snd kv |}) d.

Definition GRAND_TOTAL : str := u "GRAND TOTAL".

Definition aggregate (processed_data : list FileData) : AggregatedData :=
  let '(consolidated_items, hospital_distribution) :=
    aggregate_files processed_data [] [] in
  let hospital_totals := add_to_totals hospital_distribution [] in
  {| consolidated_en_items := total_rows consolidated_items;
     multi_file_hospital_distribution := hospital_distribution;
     hospital_dist_item_totals :=
       total_rows hospital_totals
         ++ [{| total_Item := GRAND_TOTAL;
                Total_Quantity := sum (values hospital_totals) |}] |}.

(** [any(pd['data'] for pd in processed_data)]: a result dictionary is never
    empty, so it is true exactly when it is not [None]. *)
Definition any_data (processed_data : list FileData) : bool :=
  existsb (fun pd => match data pd with Some _ => true | None => false end)
    processed_data.

(** ** One run of the script over the uploaded files *)

Record SessionState : Type :=
  { processed_files : list FileData;
    aggregated_data : option AggregatedData }.

Definition fresh_session : SessionState :=
  {| processed_files := []; aggregated_data := None |}.

Definition run_script (uploaded_files : list UploadedFile)
           (session_state : SessionState) : M SessionState :=
  match uploaded_files with
  | [] => ret session_state
  | _ :: _ =>
      processed_data <- process_files uploaded_files [] ;;
      ret {| processed_files := processed_data;
             aggregated_data :=
               if any_data processed_data
               then Some (aggregate processed_data)
               else aggregated_data session_state |}
  end.

(** ** What one file contributes

    The outcome of a file does not depend on the screen, and depends on the
    clock only through the two readings [process_pdf] takes once the file is
    open.  [entry_of] is the entry the batch loop appends for a file when
    [n] readings of the clock were taken before, with the number of readings
    taken after. *)

Definition items_of (file : UploadedFile) : result (list LineItem) :=
  match fitz_open file with
  | Ok doc => pages_loop doc []
  | Raise e => Raise e
  end.

Definition results_at (clock : nat -> datetime) (n : nat)
           (items : list LineItem) : Results :=
  {| po_number := u "DEMO-" ++ strftime_HMS (clock n);
     date := strftime_Ymd (clock (S n));
     hospital_data :=
       {| hospital_name := u "Demo Hospital"; request_no := u "DEMO-REQ" |};
     summary_items := items;
     ocr_pages := [] |}.

Definition failed_entry (file : UploadedFile) : FileData :=
  {| file_name := name file;
     data := None;
     error := Some (u "Processing failed") |}.

Definition entry_of (clock : nat -> datetime) (n : nat) (file : UploadedFile)
  : FileData * nat :=
  match fitz_open file with
  | Raise _ => (failed_entry file, n)
  | Ok doc =>
      match pages_loop doc [] with
      | Ok items =>
          ({| file_name := name file;
              data := Some (results_at clock n items);
              error := None |}, S (S n))
      | Raise _ => (failed_entry file, S (S n))
      end
  end.

Fixpoint entries_of (clock : nat -> datetime) (n : nat)
         (files : list UploadedFile) : list FileData * nat :=
  match files with
  | [] => ([], n)
  | file :: rest =>
      let '(entry, n1) := entry_of clock n file in
      let '(entries, n2) := entries_of clock n1 rest in
      (entry :: entries, n2)
  end.

(** A file is a successful document when [process_pdf] returns a result for
    it. *)
Definition succeeds (file : UploadedFile) : bool :=
  match items_of file with
  | Ok _ => true
  | Raise _ => false
  end.

(** The world after further readings of the clock and further output. *)
Definition advance (w : world) (n : nat) (events : list ui_event) : world :=
  {| wall := wall w; now_calls := n; screen := screen w ++ events |}.

(** The quantities of a table of totals. *)
Definition quantities (rows : list TotalRow) : list Z :=
  map Total_Quantity rows.

(** ** Vocabulary of the properties *)

(** Two characters that [re.IGNORECASE] does not tell apart, and two texts
    that differ in the case of their letters only. *)
Definition same_folded (a b : char) : Prop := tolower a = tolower b.

Definition same_text_folded (t1 t2 : str) : Prop := Forall2 same_folded t1 t2.

Fixpoint same_text_foldedb (t1 t2 : str) : bool :=
  match t1, t2 with
  | [], [] => true
  | a :: r1, b :: r2 => (tolower a =? tolower b)%N && same_text_foldedb r1 r2
  | _, _ => false
  end.

(** The letters and the two other characters that lowering moves or that
    something is lowered to. *)
Definition foldable (c : char) : Prop :=
  0x41 <= c <= 0x5A \/ 0x61 <= c <= 0x7A \/ c = 0x130 \/ c = 0x212A.

(** Whether a search found a match. *)
Definition found {A : Type} (o : option A) : bool :=
  match o with
  | Some _ => true
  | None => false
  end.

(** Two continuations that succeed on the same texts, up to case. *)
Definition alike {A B : Type} (k1 : str -> option A) (k2 : str -> option B)
  : Prop :=
  forall s1 s2, same_text_folded s1 s2 -> found (k1 s1) = found (k2 s2).

(** What one page adds to the items of its document. *)
Definition item_of_page (text : str) : result (list LineItem) :=
  match identify_product text with
  | Some product =>
      if truthy product then
        match extract_quantity text with
        | Ok q => Ok [{| item_name := product; quantity := or_int q 10 |}]
        | Raise e => Raise e
        end
      else Ok []
  | None => Ok []
  end.

(** Items, rows and totals as the pipeline makes them: a product of the
    catalog, in a positive quantity. *)
Definition good_item (item : LineItem) : Prop :=
  In (item_name item) (map fst PRODUCT_MAP) /\ (0 < quantity item)%Z.

Definition good_total (kv : str * Z) : Prop :=
  In (fst kv) (map fst PRODUCT_MAP) /\ (0 < snd kv)%Z.

Definition good_row (row : DistributionRow) : Prop :=
  In (Item row) (map fst PRODUCT_MAP) /\ (0 < Quantity row)%Z.

Definition good_total_row (row : TotalRow) : Prop :=
  In (total_Item row) (map fst PRODUCT_MAP) /\ (0 < Total_Quantity row)%Z.

Definition good_entry (entry : FileData) : Prop :=
  match data entry with
  | Some d => Forall good_item (summary_items d)
  | None => True
  end.

(** An entry holds a result or the reason of the failure, never both and
    never neither. *)
Definition result_or_reason (entry : FileData) : Prop :=
  match data entry, error entry with
  | Some _, None => True
  | None, Some _ => True
  | _, _ => False
  end.

(** ** Sample inputs *)

Definition noon : datetime :=
  {| year := 2025; month := 6; day := 3; hour := 12; minute := 0;
     second := 0 |}.

Definition initial_world : world :=
  {| wall := fun _ => noon; now_calls := 0; screen := [] |}.

Definition page_of (text : string) : Page := {| get_text := Ok (u text) |}.

Definition unreadable_page : Page :=
  {| get_text :=
       Raise (Exception (LibraryError (u "RuntimeError"))
                        (u "page cannot be read")) |}.

Definition pdf (file_name : string) (pages : list Page) : UploadedFile :=
  {| name := u file_name; fitz_open := Ok pages |}.

Definition broken_pdf (file_name : string) : UploadedFile :=
  {| name := u file_name;
     fitz_open :=
       Raise (Exception (LibraryError (u "FileDataError"))
                        (u "Failed to open stream")) |}.

(** The report of an earlier batch, one document of one page. *)
Definition earlier_report : AggregatedData :=
  aggregate
    [{| file_name := u "earlier.pdf";
        data := Some (results_at (fun _ => noon) 0
                        [{| item_name := u "NeoMune"; quantity := 25 |}]);
        error := None |}].

(** An entry of the catalog matches a text when one of its patterns does. *)
Definition entry_matches (text : str) (entry : str * list string) : bool :=
  some_pattern_matches (snd entry) text.

(** The patterns of the script as syntax trees. *)
Fixpoint sequence (ps : list Re.pattern) : Re.pattern :=
  match ps with
  | [] => Re.Empty
  | [p] => p
  | p :: rest => Re.Seq p (sequence rest)
  end.

Definition literally (s : str) : list Re.pattern :=
  map (fun c => Re.One (Re.Literal c)) s.

(** [\s*(\d+)] and [\s*[:;]?\s*(\d+)] *)
Definition spaces_then_digits (group : nat) : Re.pattern :=
  Re.Seq (Re.MaxRepeat 0 None Re.Space)
         (Re.Subpattern group (Re.MaxRepeat 1 None Re.Digit)).

Definition number_tail (group : nat) : Re.pattern :=
  Re.Seq (Re.MaxRepeat 0 None Re.Space)
         (Re.Seq (Re.MaxRepeat 0 (Some 1%nat) (Re.In [0x3A; 0x3B]))
                 (spaces_then_digits group)).

Definition labelled_number (label : str) (group : nat) : Re.pattern :=
  sequence (literally label ++ [number_tail group]).

Definition quantity_regex : Re.pattern :=
  Re.Branch (labelled_number (u "الكمية") 1)
            (labelled_number (u "Quantity") 2).

(** A quantity field as the pattern reads it: the label, optional white
    space, an optional colon or semicolon, optional white space, digits. *)
Definition is_separator (colon : str) : Prop :=
  colon = [] \/ colon = [0x3A] \/ colon = [0x3B].

Definition quantity_field (label sp1 colon sp2 digits : str) : str :=
  label ++ sp1 ++ colon ++ sp2 ++ digits.

Definition well_formed_field (sp1 colon sp2 digits : str) : Prop :=
  forallb isspace sp1 = true /\ is_separator colon
  /\ forallb isspace sp2 = true
  /\ forallb isdecimal digits = true /\ digits <> [].

(** No quantity field can start in [pre]: it holds neither the first letter
    of the Arabic label nor a capital Q. *)
Definition no_label_start (pre : str) : Prop :=
  Forall (fun c => c <> 0x627 /\ c <> 0x51) pre.

Definition no_label_startb (pre : str) : bool :=
  forallb (fun c => negb (c =? 0x627)%N && negb (c =? 0x51)%N) pre.

(** The digits of the field end where [post] starts. *)
Definition no_digit_ahead (post : str) : Prop :=
  match post with
  | [] => True
  | c :: _ => isdecimal c = false
  end.

(* ------------------------------------------------------------------ *)
(** * The results display and the processing report

    What the script puts on the page after the processing: the metrics, the
    two charts, the three tables and the report of the failed files.  The
    layout in columns and the options of the charts are left out; each
    widget is given with the data it is made from.  (The export section,
    which writes a spreadsheet file, is not modelled.) *)

Inductive widget : Type :=
| Subheader (text : str)
| Metric (label value : str)
| PieChart (rows : list TotalRow)
| BarChart (rows : list TotalRow)
| TotalsTable (rows : list TotalRow)
| DistributionTable (rows : list DistributionRow)
| StyledTotalsTable (rows : list (TotalRow * bool))
| Warning (text : str)
| ErrorBox (text : str)
| Divider.

(** [format(z, ',')]: the decimal digits in groups of three, from the right,
    with commas between them.  [group3] works on the reversed digits. *)
Fixpoint group3 (reversed : str) : str :=
  match reversed with
  | a :: (b :: (c :: (_ :: _) as rest)) =>
      a :: b :: c :: 0x2C :: group3 rest
  | _ => reversed
  end.

Definition format_thousands (z : Z) : str :=
  (if (z <? 0)%Z then u "-" else [])
    ++ rev (group3 (rev (decimal (Z.abs_N z)))).

(** [sum(1 for f in processed_files if f['data'])] *)
Definition success_count (processed_files : list FileData) : nat :=
  List.length
    (filter (fun f => match data f with Some _ => true | None => false end)
       processed_files).

(** [[item for item in ... if item['Item'] != 'GRAND TOTAL']] *)
Definition without_grand_total (rows : list TotalRow) : list TotalRow :=
  filter (fun item => negb (Str.eqb (total_Item item) GRAND_TOTAL)) rows.

(** The style of table 3: the rows named GRAND TOTAL are highlighted. *)
Definition styled (rows : list TotalRow) : list (TotalRow * bool) :=
  map (fun row => (row, Str.eqb (total_Item row) GRAND_TOTAL)) rows.

Definition is_empty {A : Type} (l : list A) : bool :=
  match l with
  | [] => true
  | _ :: _ => false
  end.

(** "Results Display", from the metrics to table 3. *)
Definition results_display (session_state : SessionState) : list widget :=
  match aggregated_data session_state with
  | None => []
  | Some aggregated =>
      let total_files := List.length (processed_files session_state) in
      let success_files := success_count (processed_files session_state) in
      let total_items :=
        sum (map Total_Quantity (consolidated_en_items aggregated)) in
      [ Subheader (u "📊 Processing Summary");
        Metric (u "Files Processed")
               (decimal (N.of_nat success_files) ++ u "/"
                  ++ decimal (N.of_nat total_files));
        Metric (u "Unique Products")
               (decimal
                  (N.of_nat (List.length (consolidated_en_items aggregated))));
        Metric (u "Total Items") (format_thousands total_items);
        Subheader (u "📈 Data Visualization") ]
      ++ (if is_empty (consolidated_en_items aggregated) then []
          else [PieChart (consolidated_en_items aggregated)])
      ++ (if is_empty (hospital_dist_item_totals aggregated) then []
          else
            let df_totals :=
              without_grand_total (hospital_dist_item_totals aggregated) in
            if is_empty df_totals then [] else [BarChart df_totals])
      ++ [ Subheader (u "1. Consolidated EN Items (All Files)");
           if is_empty (consolidated_en_items aggregated)
           then Warning (u "No consolidated items data available")
           else TotalsTable (consolidated_en_items aggregated);
           Subheader (u "2. Hospital Distribution (Multi-File)");
           if is_empty (multi_file_hospital_distribution aggregated)
           then Warning (u "No hospital distribution data available")
           else DistributionTable
                  (multi_file_hospital_distribution aggregated);
           Subheader (u "3. إجمالي الكمية لكل صنف (توزيع المستشفيات)");
           if is_empty (hospital_dist_item_totals aggregated)
           then Warning (u "No hospital distribution totals available")
           else StyledTotalsTable
                  (styled (hospital_dist_item_totals aggregated)) ]
  end.

(** Truth value of [f['error']]: a text that is not empty. *)
Definition has_error (f : FileData) : bool :=
  match error f with
  | Some reason => truthy reason
  | None => false
  end.

Definition error_box (f : FileData) : widget :=
  ErrorBox (u "**" ++ file_name f ++ u "**: "
              ++ match error f with Some reason => reason | None => [] end).

(** "Error Reporting" *)
Definition error_reporting (session_state : SessionState) : list widget :=
  if negb (is_empty (processed_files session_state))
     && existsb has_error (processed_files session_state)
  then
    [Divider; Subheader (u "⚠️ Processing Report")]
      ++ map error_box (filter has_error (processed_files session_state))
  else [].

(** ** Vocabulary of the further properties *)

(** The line items of the successful documents of a batch, in order. *)
Definition items_of_entry (entry : FileData) : list LineItem :=
  match data entry with
  | Some d => summary_items d
  | None => []
  end.

Definition all_items (processed_data : list FileData) : list LineItem :=
  flat_map items_of_entry processed_data.

Definition rows_of_entry (entry : FileData) : list DistributionRow :=
  match data entry with
  | Some d => map (distribution_row d) (summary_items d)
  | None => []
  end.

(** The quantities of the items of one name, added up. *)
Definition quantity_of (k : str) (items : list LineItem) : Z :=
  sum (map quantity
         (filter (fun item => Str.eqb (item_name item) k) items)).

(** The distinct names of a list, each at its first occurrence. *)
Fixpoint first_occurrences (names : list str) : list str :=
  match names with
  | [] => []
  | k :: rest =>
      k :: filter (fun k' => negb (Str.eqb k' k)) (first_occurrences rest)
  end.

(** A name joins the names seen so far, at the end, unless it is there. *)
Definition add_name (seen : list str) (k : str) : list str :=
  if existsb (fun k' => Str.eqb k' k) seen then seen else seen ++ [k].

(** The consolidated dictionary of a batch, before it is made into rows. *)
Definition consolidated_items_of (processed_data : list FileData) : dict :=
  fst (aggregate_files processed_data [] []).

Definition has_data (entry : FileData) : bool :=
  match data entry with
  | Some _ => true
  | None => false
  end.

(** What the batch loop shows for one file. *)
Definition events_of (file : UploadedFile) : list ui_event :=
  Write (u "🔍 Analyzing: " ++ name file ++ u "...")
  :: match items_of file with
     | Ok _ => [Success (u "✅ Processed: " ++ name file)]
     | Raise e =>
         [ Error (u "Processing error: " ++ exc_message e);
           Error (u "❌ Failed: " ++ name file) ]
     end.

(** The readings of the clock one file takes: two once it is open. *)
Definition readings_of (file : UploadedFile) : nat :=
  match fitz_open file with
  | Ok _ => 2
  | Raise _ => 0
  end.

(** The characters of a formatted number other than its commas. *)
Definition not_comma (c : char) : bool := negb (c =? 0x2C)%N.

(** The grand-total row of a report (its last row of item totals). *)
Definition grand_total_row (report : AggregatedData) : TotalRow :=
  last (hospital_dist_item_totals report)
       {| total_Item := []; Total_Quantity := 0 |}.

(** The box of the processing report for a file that failed. *)
Definition failure_box (file : UploadedFile) : widget :=
  ErrorBox (u "**" ++ name file ++ u "**: Processing failed").

(** A stretch of text within one line. *)
Definition on_one_line (s : str) : Prop :=
  forallb (fun c => negb (c =? 0x0A)%N) s = true.

(** Two entries of a batch, for the examples. *)
Definition sample_entry_a : FileData :=
  {| file_name := u "a.pdf";
     data := Some (results_at (fun _ => noon) 0
                     [ {| item_name := u "NeoMune"; quantity := 25 |};
                       {| item_name := u "Blendera MF"; quantity := 10 |} ]);
     error := None |}.

Definition sample_entry_b : FileData :=
  {| file_name := u "b.pdf";
     data := Some (results_at (fun _ => noon) 2
                     [{| item_name := u "NeoMune"; quantity := 5 |}]);
     error := None |}.

(** A time of day and a date within their usual ranges. *)
Definition usual_time (t : datetime) : Prop :=
  hour t < 24 /\ minute t < 60 /\ second t < 60
  /\ 1 <= month t <= 12 /\ 1 <= day t <= 31
  /\ 1000 <= year t <= 9999.

Definition is_ascii_digit (c : char) : bool := (0x30 <=? c)%N && (c <=? 0x39)%N.

(** The Arabic-Indic digit of an ASCII digit. *)
Definition arabic_indic (c : char) : char := c + 0x630.

(* ------------------------------------------------------------------ *)
(** * Properties *)

Unset Implicit Arguments.

(** ** Strings and dictionaries *)

Lemma str_eqb_spec (a b : str) : reflect (a = b) (Str.eqb a b).
Proof.
  unfold Str.eqb.
  destruct (list_eq_dec N.eq_dec a b); constructor; assumption.
Qed.

Lemma str_eqb_refl (a : str) : Str.eqb a a = true.
Proof. destruct (str_eqb_spec a a); congruence. Qed.

Lemma str_eqb_neq (a b : str) : a <> b -> Str.eqb a b = false.
Proof. intro H. destruct (str_eqb_spec a b); congruence. Qed.

Lemma keys_set (d : dict) (k : str) (v : Z) :
  keys (set d k v) = if existsb (fun k' => Str.eqb k' k) (keys d)
                     then keys d else keys d ++ [k].
Proof.
  unfold keys.
  induction d as [|[k' v'] d IH]; simpl; [reflexivity|].
  destruct (Str.eqb k' k) eqn:E; simpl; [reflexivity|].
  rewrite IH.
  destruct (existsb _ (map fst d)); reflexivity.
Qed.

Lemma keys_set_NoDup (d : dict) (k : str) (v : Z) :
  NoDup (keys d) -> NoDup (keys (set d k v)).
Proof.
  intro H. rewrite keys_set.
  destruct (existsb (fun k' => Str.eqb k' k) (keys d)) eqn:E; [assumption|].
  apply NoDup_app; [assumption | repeat constructor; simpl; tauto |].
  intros x Hx [<-|[]].
  assert (existsb (fun k' => Str.eqb k' k) (keys d) = true) as E'.
  { apply existsb_exists. exists k. split; [assumption|apply str_eqb_refl]. }
  congruence.
Qed.

Lemma sum_from (xs : list Z) (a : Z) :
  fold_left Z.add xs a = (a + sum xs)%Z.
Proof.
  unfold sum. revert a.
  induction xs as [|x xs IH]; intro a; simpl; [lia|].
  rewrite IH, (IH x). lia.
Qed.

Lemma sum_cons (x : Z) (xs : list Z) : sum (x :: xs) = (x + sum xs)%Z.
Proof. unfold sum at 1. simpl. apply sum_from. Qed.

Lemma lookup_unique (d : dict) (k : str) (v v' : Z) :
  NoDup (keys d) -> In (k, v) d -> In (k, v') d -> v = v'.
Proof.
  induction d as [|[k0 v0] d IH]; simpl; [tauto|].
  intros Hnd [H1|H1] [H2|H2]; inversion Hnd as [|? ? Hnot Hnd']; subst.
  - congruence.
  - inversion H1; subst. exfalso. apply Hnot. apply (in_map fst _ _ H2).
  - inversion H2; subst. exfalso. apply Hnot. apply (in_map fst _ _ H1).
  - eauto.
Qed.

(** ** The two aggregations are one *)

Lemma add_to_consolidated_NoDup (items : list LineItem) (d : dict) :
  NoDup (keys d) -> NoDup (keys (add_to_consolidated items d)).
Proof.
  revert d. induction items as [|i items IH]; intros d H; simpl; [assumption|].
  apply IH. apply keys_set_NoDup. assumption.
Qed.

Lemma add_to_totals_app (rows1 rows2 : list DistributionRow) (t : dict) :
  add_to_totals (rows1 ++ rows2) t = add_to_totals rows2 (add_to_totals rows1 t).
Proof.
  revert t. induction rows1 as [|r rows1 IH]; intro t; simpl; [reflexivity|].
  apply IH.
Qed.

Lemma totals_of_added_rows (d : Results) (items : list LineItem)
      (rows : list DistributionRow) :
  add_to_totals (add_to_distribution d items rows) []
  = add_to_consolidated items (add_to_totals rows []).
Proof.
  revert rows. induction items as [|i items IH]; intro rows; simpl.
  - reflexivity.
  - rewrite IH, add_to_totals_app. reflexivity.
Qed.

Lemma aggregate_files_agree (processed_data : list FileData) :
  forall consolidated_items hospital_distribution,
    add_to_totals hospital_distribution [] = consolidated_items ->
    add_to_totals (snd (aggregate_files processed_data consolidated_items
                          hospital_distribution)) []
    = fst (aggregate_files processed_data consolidated_items
             hospital_distribution).
Proof.
  induction processed_data as [|fd rest IH]; intros c h H; simpl.
  - assumption.
  - destruct (data fd) as [d|]; apply IH; [|assumption].
    rewrite totals_of_added_rows, H. reflexivity.
Qed.

Lemma aggregate_files_NoDup (processed_data : list FileData) :
  forall consolidated_items hospital_distribution,
    NoDup (keys consolidated_items) ->
    NoDup (keys (fst (aggregate_files processed_data consolidated_items
                        hospital_distribution))).
Proof.
  induction processed_data as [|fd rest IH]; intros c h H; simpl.
  - assumption.
  - destruct (data fd) as [d|]; apply IH; [|assumption].
    apply add_to_consolidated_NoDup. assumption.
Qed.

(** The table of item totals is the consolidated table followed by the
    grand-total row. *)
Lemma item_totals_shape (processed_data : list FileData) :
  hospital_dist_item_totals (aggregate processed_data)
  = consolidated_en_items (aggregate processed_data)
      ++ [{| total_Item := GRAND_TOTAL;
             Total_Quantity :=
               sum (quantities
                      (consolidated_en_items (aggregate processed_data))) |}].
Proof.
  unfold aggregate.
  pose proof (aggregate_files_agree processed_data [] [] eq_refl) as H.
  destruct (aggregate_files processed_data [] []) as [c h]. simpl in *.
  rewrite H. unfold quantities, total_rows, values.
  rewrite map_map. reflexivity.
Qed.

Lemma consolidated_rows_unique (processed_data : list FileData) :
  NoDup (map total_Item (consolidated_en_items (aggregate processed_data))).
Proof.
  unfold aggregate.
  pose proof (aggregate_files_NoDup processed_data [] [] (NoDup_nil _)) as H.
  destruct (aggregate_files processed_data [] []) as [c h]. simpl in *.
  unfold total_rows. rewrite map_map. exact H.
Qed.

(** ** Running the batch loop *)

Lemma advance_advance (w : world) n1 ev1 n2 ev2 :
  advance (advance w n1 ev1) n2 ev2 = advance w n2 (ev1 ++ ev2).
Proof. unfold advance. simpl. rewrite app_assoc. reflexivity. Qed.

Lemma process_pdf_run (file : UploadedFile) (w : world) :
  process_pdf file w =
  match fitz_open file with
  | Raise e =>
      (Ok None,
       advance w (now_calls w) [Error (u "Processing error: " ++ exc_message e)])
  | Ok doc =>
      match pages_loop doc [] with
      | Ok items =>
          (Ok (Some (results_at (wall w) (now_calls w) items)),
           advance w (S (S (now_calls w))) [])
      | Raise e =>
          (Ok None,
           advance w (S (S (now_calls w)))
             [Error (u "Processing error: " ++ exc_message e)])
      end
  end.
Proof.
  unfold process_pdf, try_except, bind, lift, datetime_now, st_error, show,
    ret, advance, results_at.
  destruct (fitz_open file) as [doc|e]; simpl; [|reflexivity].
  destruct (pages_loop doc []) as [items|e]; simpl; [|reflexivity].
  rewrite app_nil_r. reflexivity.
Qed.

Lemma process_one_run (file : UploadedFile) (processed_data : list FileData)
      (w : world) :
  exists events,
    process_one file processed_data w
    = (Ok (processed_data ++ [fst (entry_of (wall w) (now_calls w) file)]),
       advance w (snd (entry_of (wall w) (now_calls w) file)) events).
Proof.
  unfold process_one, try_except, bind, st_write, st_success, st_error, show.
  rewrite process_pdf_run. unfold entry_of, ret, advance. simpl.
  destruct (fitz_open file) as [doc|e]; simpl.
  - destruct (pages_loop doc []) as [items|e]; simpl;
      eexists; rewrite <- !app_assoc; reflexivity.
  - eexists. rewrite <- !app_assoc. reflexivity.
Qed.

Lemma process_files_run (uploaded_files : list UploadedFile) :
  forall (processed_data : list FileData) (w : world),
  exists events,
    process_files uploaded_files processed_data w
    = (Ok (processed_data
             ++ fst (entries_of (wall w) (now_calls w) uploaded_files)),
       advance w (snd (entries_of (wall w) (now_calls w) uploaded_files))
         events).
Proof.
  induction uploaded_files as [|f rest IH]; intros pd w; simpl.
  - exists []. unfold ret, advance. rewrite !app_nil_r.
    destruct w; reflexivity.
  - unfold bind.
    destruct (process_one_run f pd w) as [ev1 ->].
    destruct (IH (pd ++ [fst (entry_of (wall w) (now_calls w) f)])
                 (advance w (snd (entry_of (wall w) (now_calls w) f)) ev1))
      as [ev2 ->].
    simpl.
    destruct (entry_of (wall w) (now_calls w) f) as [entry n1]. simpl.
    destruct (entries_of (wall w) n1 rest) as [entries n2]. simpl.
    exists (ev1 ++ ev2).
    rewrite advance_advance, <- app_assoc. reflexivity.
Qed.

(** [process_pdf] returns a result exactly for the successful documents, and
    never raises. *)
Lemma process_pdf_succeeds (file : UploadedFile) (w : world) :
  fst (process_pdf file w)
  = Ok (if succeeds file
        then match items_of file with
             | Ok items => Some (results_at (wall w) (now_calls w) items)
             | Raise _ => None
             end
        else None).
Proof.
  rewrite process_pdf_run. unfold succeeds, items_of.
  destruct (fitz_open file) as [doc|e]; [|reflexivity].
  destruct (pages_loop doc []); reflexivity.
Qed.

(** The batch loop never raises. *)
Lemma process_files_ok (uploaded_files : list UploadedFile) (w : world) :
  fst (process_files uploaded_files [] w)
  = Ok (fst (entries_of (wall w) (now_calls w) uploaded_files)).
Proof.
  destruct (process_files_run uploaded_files [] w) as [ev ->]. reflexivity.
Qed.

Lemma run_script_ok (uploaded_files : list UploadedFile)
      (session_state : SessionState) (w : world) :
  fst (run_script uploaded_files session_state w)
  = Ok match uploaded_files with
       | [] => session_state
       | _ :: _ =>
           let processed_data :=
             fst (entries_of (wall w) (now_calls w) uploaded_files) in
           {| processed_files := processed_data;
              aggregated_data :=
                if any_data processed_data
                then Some (aggregate processed_data)
                else aggregated_data session_state |}
       end.
Proof.
  destruct uploaded_files as [|f rest]; [reflexivity|].
  unfold run_script, bind.
  destruct (process_files_run (f :: rest) [] w) as [ev ->]. reflexivity.
Qed.

(** *** Entries, one per file and in the order of the files *)

Lemma entries_of_app (clock : nat -> datetime) (files1 files2 : list UploadedFile) :
  forall n,
    entries_of clock n (files1 ++ files2)
    = (fst (entries_of clock n files1)
         ++ fst (entries_of clock (snd (entries_of clock n files1)) files2),
       snd (entries_of clock (snd (entries_of clock n files1)) files2)).
Proof.
  induction files1 as [|f files1 IH]; intro n; simpl.
  - destruct (entries_of clock n files2); reflexivity.
  - destruct (entry_of clock n f) as [entry n1]. rewrite IH.
    destruct (entries_of clock n1 files1) as [es1 n2]. simpl.
    reflexivity.
Qed.

Lemma entries_of_names (clock : nat -> datetime) (files : list UploadedFile) :
  forall n, map file_name (fst (entries_of clock n files)) = map name files.
Proof.
  induction files as [|f files IH]; intro n; simpl; [reflexivity|].
  destruct (entry_of clock n f) as [entry n1] eqn:E.
  specialize (IH n1). destruct (entries_of clock n1 files) as [es n2].
  simpl in *. f_equal; [|assumption].
  unfold entry_of, failed_entry in E.
  destruct (fitz_open f) as [doc|e];
    [destruct (pages_loop doc []) as [items|e]|];
    inversion E; reflexivity.
Qed.

Lemma entries_of_length (clock : nat -> datetime) (files : list UploadedFile) n :
  List.length (fst (entries_of clock n files)) = List.length files.
Proof.
  rewrite <- (length_map file_name), entries_of_names, length_map.
  reflexivity.
Qed.

(** An entry carries a result exactly when the file opens and its pages are
    processed without an exception, and then the items are those of the
    pages. *)
Lemma entry_of_data (clock : nat -> datetime) (n : nat) (file : UploadedFile) :
  match items_of file with
  | Ok items =>
      fst (entry_of clock n file)
      = {| file_name := name file;
           data := Some (results_at clock n items);
           error := None |}
  | Raise _ => fst (entry_of clock n file) = failed_entry file
  end.
Proof.
  unfold items_of, entry_of.
  destruct (fitz_open file) as [doc|e]; [|reflexivity].
  destruct (pages_loop doc []); reflexivity.
Qed.

Lemma any_data_entries (clock : nat -> datetime) (files : list UploadedFile) :
  forall n,
    any_data (fst (entries_of clock n files)) = existsb succeeds files.
Proof.
  induction files as [|f files IH]; intro n; simpl; [reflexivity|].
  pose proof (entry_of_data clock n f) as H. unfold succeeds at 1.
  destruct (entry_of clock n f) as [entry n1].
  specialize (IH n1). destruct (entries_of clock n1 files) as [es n2].
  simpl in *. rewrite IH.
  destruct (items_of f); rewrite H; reflexivity.
Qed.

(** ** The patterns of the script *)

Lemma quantity_pattern_parses :
  Re.parse (u quantity_pattern) = Some quantity_regex.
Proof. vm_compute. reflexivity. Qed.

Lemma quantity_pattern_compiled : Re.compile quantity_pattern = quantity_regex.
Proof. unfold Re.compile. rewrite quantity_pattern_parses. reflexivity. Qed.

Lemma PRODUCT_MAP_parses :
  Forall (fun entry =>
            Forall (fun pattern => Re.parse (u pattern) <> None) (snd entry))
         PRODUCT_MAP.
Proof. repeat constructor; vm_compute; discriminate. Qed.

Lemma arabic_label_chars :
  u "الكمية" = [0x627; 0x644; 0x643; 0x645; 0x64A; 0x629].
Proof. reflexivity. Qed.

Lemma english_label_chars :
  u "Quantity" = [0x51; 0x75; 0x61; 0x6E; 0x74; 0x69; 0x74; 0x79].
Proof. reflexivity. Qed.

(** Closing the parenthesis of [extract_quantity] either way gives the same
    function. *)
Lemma extract_quantity_either_way (text : str) :
  extract_quantity_alt text = extract_quantity text.
Proof.
  unfold extract_quantity_alt, extract_quantity.
  destruct (re_search quantity_pattern text); reflexivity.
Qed.

(** ** Character classes *)

Ltac decide_comparisons :=
  repeat match goal with
    | |- context [N.leb ?x ?y] =>
        first [ replace (N.leb x y) with true
                  by (symmetry; apply N.leb_le; lia)
              | replace (N.leb x y) with false
                  by (symmetry; apply N.leb_gt; lia) ]
    | |- context [N.ltb ?x ?y] =>
        first [ replace (N.ltb x y) with true
                  by (symmetry; apply N.ltb_lt; lia)
              | replace (N.ltb x y) with false
                  by (symmetry; apply N.ltb_ge; lia) ]
    | |- context [N.eqb ?x ?y] =>
        first [ replace (N.eqb x y) with false
                  by (symmetry; apply N.eqb_neq; lia)
              | replace (N.eqb x y) with true
                  by (symmetry; apply N.eqb_eq; lia) ]
    end.

Lemma in_block_bounds (c zero : char) :
  in_block c zero = true -> zero <= c < zero + 10.
Proof.
  unfold in_block. intro H. apply andb_true_iff in H as [H1 H2].
  apply N.leb_le in H1. apply N.ltb_lt in H2. lia.
Qed.

Lemma decimal_block (c : char) :
  isdecimal c = true ->
  exists zero, In zero decimal_zeros /\ zero <= c < zero + 10.
Proof.
  unfold isdecimal. intro H. apply existsb_exists in H as [zero [Hin Hb]].
  exists zero. split; [assumption | apply in_block_bounds; assumption].
Qed.

Lemma decimal_not_space (c : char) : isdecimal c = true -> isspace c = false.
Proof.
  intro H. apply decimal_block in H as [zero [Hin Hb]].
  unfold decimal_zeros in Hin. simpl in Hin.
  repeat (destruct Hin as [<-|Hin];
          [unfold isspace; decide_comparisons; reflexivity|]).
  destruct Hin.
Qed.

Lemma decimal_not_separator (c : char) :
  isdecimal c = true -> ((c =? 0x3A) || (c =? 0x3B))%N = false.
Proof.
  intro H. apply decimal_block in H as [zero [Hin Hb]].
  unfold decimal_zeros in Hin. simpl in Hin.
  repeat (destruct Hin as [<-|Hin];
          [decide_comparisons; reflexivity|]).
  destruct Hin.
Qed.

(** ** Greedy repeats *)

Lemma greedy_zero {A} ic a (s : str) (k : str -> option A) :
  Re.greedy ic a (Some 0%nat) s k = k s.
Proof. destruct s; reflexivity. Qed.

(** A repeat that can take all of [taken] and no more, and whose
    continuation then succeeds, succeeds with that result. *)
Lemma greedy_longest {A} ic a (taken rest : str) (k : str -> option A) r :
  forallb (Re.atom_matches ic a) taken = true ->
  match rest with
  | [] => True
  | c :: _ => Re.atom_matches ic a c = false
  end ->
  k rest = Some r ->
  Re.greedy ic a None (taken ++ rest) k = Some r.
Proof.
  intros Ht Hr Hk. induction taken as [|c taken IH]; simpl in *.
  - destruct rest as [|c rest]; simpl; [assumption|].
    rewrite Hr. assumption.
  - apply andb_true_iff in Ht as [Hc Ht]. rewrite Hc.
    rewrite (IH Ht). reflexivity.
Qed.

Lemma firstn_consumed (taken rest : str) :
  firstn (List.length (taken ++ rest) - List.length rest) (taken ++ rest)
  = taken.
Proof.
  rewrite length_app.
  replace (List.length taken + List.length rest - List.length rest)%nat
    with (List.length taken + 0)%nat by lia.
  rewrite firstn_app_2. simpl. apply app_nil_r.
Qed.

(** ** Reading a quantity field *)

Lemma digits_head (digits post : str) :
  forallb isdecimal digits = true -> digits <> [] ->
  exists d rest,
    digits = d :: rest /\ isdecimal d = true
    /\ forallb isdecimal rest = true.
Proof.
  destruct digits as [|d rest]; [congruence|]. simpl. intros H _.
  apply andb_true_iff in H as [Hd Hr]. eauto.
Qed.

Lemma run_spaces_then_digits group (sp digits post : str) g k r :
  forallb isspace sp = true ->
  forallb isdecimal digits = true -> digits <> [] ->
  no_digit_ahead post ->
  k post ((group, digits) :: g) = Some r ->
  Re.run false (spaces_then_digits group) (sp ++ digits ++ post) g k = Some r.
Proof.
  intros Hsp Hd Hne Hpost Hk.
  destruct (digits_head _ post Hd Hne) as [d [rest [-> [Hd0 Hrest]]]].
  unfold spaces_then_digits. simpl Re.run.
  apply greedy_longest.
  - exact Hsp.
  - simpl. apply decimal_not_space. assumption.
  - simpl. rewrite Hd0.
    apply greedy_longest with (taken := rest).
    + exact Hrest.
    + unfold no_digit_ahead in Hpost. destruct post; [exact I|exact Hpost].
    + change (k post ((group,
                       firstn (List.length ((d :: rest) ++ post)
                               - List.length post)%nat
                              ((d :: rest) ++ post)) :: g) = Some r).
      rewrite firstn_consumed. exact Hk.
Qed.

Lemma run_seq ic p q (s : str) g k :
  Re.run ic (Re.Seq p q) s g k
  = Re.run ic p s g (fun s1 g1 => Re.run ic q s1 g1 k).
Proof. reflexivity. Qed.

Lemma run_star ic a (s : str) g k :
  Re.run ic (Re.MaxRepeat 0 None a) s g k
  = Re.greedy ic a None s (fun s2 => k s2 g).
Proof. reflexivity. Qed.

Lemma run_optional ic a (s : str) g k :
  Re.run ic (Re.MaxRepeat 0 (Some 1%nat) a) s g k
  = Re.greedy ic a (Some 1%nat) s (fun s2 => k s2 g).
Proof. reflexivity. Qed.

Lemma greedy_skip {A} ic a hi c (s : str) (k : str -> option A) :
  Re.atom_matches ic a c = false ->
  Re.greedy ic a hi (c :: s) k = k (c :: s).
Proof. intro H. simpl. rewrite H, andb_false_r. reflexivity. Qed.

Lemma greedy_take_one {A} ic a c (s : str) (k : str -> option A) r :
  Re.atom_matches ic a c = true ->
  k s = Some r ->
  Re.greedy ic a (Some 1%nat) (c :: s) k = Some r.
Proof. intros H Hk. simpl. rewrite H, greedy_zero, Hk. reflexivity. Qed.

Lemma run_number_tail group (sp1 colon sp2 digits post : str) g k r :
  well_formed_field sp1 colon sp2 digits ->
  no_digit_ahead post ->
  k post ((group, digits) :: g) = Some r ->
  Re.run false (number_tail group) (sp1 ++ colon ++ sp2 ++ digits ++ post) g k
  = Some r.
Proof.
  intros [Hsp1 [Hcolon [Hsp2 [Hd Hne]]]] Hpost Hk.
  pose proof (run_spaces_then_digits group sp2 digits post g k r
                Hsp2 Hd Hne Hpost Hk) as Hsome.
  pose proof (run_spaces_then_digits group [] digits post g k r
                eq_refl Hd Hne Hpost Hk) as Hnone.
  destruct (digits_head _ post Hd Hne) as [d [rest [Eq [Hd0 Hrest]]]].
  unfold number_tail. rewrite run_seq, run_star.
  destruct Hcolon as [-> | [-> | ->]].
  - (* no separator: the first run of white space takes it all *)
    simpl app. rewrite app_assoc.
    apply greedy_longest.
    + change (forallb isspace (sp1 ++ sp2) = true).
      rewrite forallb_app, Hsp1, Hsp2. reflexivity.
    + rewrite Eq. simpl. apply decimal_not_space. assumption.
    + rewrite run_seq, run_optional.
      simpl app in Hnone. rewrite Eq in *. simpl app.
      rewrite greedy_skip; [exact Hnone|].
      simpl. unfold Re.literal_matches. simpl.
      rewrite orb_false_r. apply decimal_not_separator. assumption.
  - apply greedy_longest; [exact Hsp1 | reflexivity |].
    rewrite run_seq, run_optional.
    apply greedy_take_one; [reflexivity | exact Hsome].
  - apply greedy_longest; [exact Hsp1 | reflexivity |].
    rewrite run_seq, run_optional.
    apply greedy_take_one; [reflexivity | exact Hsome].
Qed.

(** The whole pattern at the start of a field. *)
Lemma match_arabic_field (sp1 colon sp2 digits post : str) :
  well_formed_field sp1 colon sp2 digits ->
  no_digit_ahead post ->
  Re.match_here false quantity_regex
    (quantity_field (u "الكمية") sp1 colon sp2 digits ++ post)
  = Some [(0%nat, quantity_field (u "الكمية") sp1 colon sp2 digits);
          (1%nat, digits)].
Proof.
  intros Hwf Hpost.
  unfold Re.match_here, quantity_field.
  rewrite arabic_label_chars. rewrite <- !app_assoc.
  set (tail := sp1 ++ colon ++ sp2 ++ digits ++ post).
  change (Re.run false (Re.Subpattern 0 quantity_regex)
            ([0x627; 0x644; 0x643; 0x645; 0x64A; 0x629] ++ tail) []
            (fun _ g => Some g))
    with (match
             Re.run false (number_tail 1) tail []
               (fun s1 g1 =>
                  Some ((0%nat,
                         firstn
                           (List.length
                              ([0x627; 0x644; 0x643; 0x645; 0x64A; 0x629]
                                 ++ tail)
                            - List.length s1)
                           ([0x627; 0x644; 0x643; 0x645; 0x64A; 0x629]
                              ++ tail)) :: g1))
           with
           | Some r => Some r
           | None => None
           end).
  unfold tail at 1.
  erewrite run_number_tail; [reflexivity | exact Hwf | exact Hpost |].
  unfold tail.
  replace ([0x627; 0x644; 0x643; 0x645; 0x64A; 0x629]
             ++ sp1 ++ colon ++ sp2 ++ digits ++ post)
    with (([0x627; 0x644; 0x643; 0x645; 0x64A; 0x629]
             ++ sp1 ++ colon ++ sp2 ++ digits) ++ post)
    by (rewrite <- !app_assoc; reflexivity).
  rewrite firstn_consumed. reflexivity.
Qed.

Lemma match_english_field (sp1 colon sp2 digits post : str) :
  well_formed_field sp1 colon sp2 digits ->
  no_digit_ahead post ->
  Re.match_here false quantity_regex
    (quantity_field (u "Quantity") sp1 colon sp2 digits ++ post)
  = Some [(0%nat, quantity_field (u "Quantity") sp1 colon sp2 digits);
          (2%nat, digits)].
Proof.
  intros Hwf Hpost.
  unfold Re.match_here, quantity_field.
  rewrite english_label_chars. rewrite <- !app_assoc.
  set (tail := sp1 ++ colon ++ sp2 ++ digits ++ post).
  change (Re.run false (Re.Subpattern 0 quantity_regex)
            ([0x51; 0x75; 0x61; 0x6E; 0x74; 0x69; 0x74; 0x79] ++ tail) []
            (fun _ g => Some g))
    with (Re.run false (number_tail 2) tail []
            (fun s1 g1 =>
               Some ((0%nat,
                      firstn
                        (List.length
                           ([0x51; 0x75; 0x61; 0x6E; 0x74; 0x69; 0x74; 0x79]
                              ++ tail)
                         - List.length s1)
                        ([0x51; 0x75; 0x61; 0x6E; 0x74; 0x69; 0x74; 0x79]
                           ++ tail)) :: g1))).
  unfold tail at 1.
  erewrite run_number_tail; [reflexivity | exact Hwf | exact Hpost |].
  unfold tail.
  replace ([0x51; 0x75; 0x61; 0x6E; 0x74; 0x69; 0x74; 0x79]
             ++ sp1 ++ colon ++ sp2 ++ digits ++ post)
    with (([0x51; 0x75; 0x61; 0x6E; 0x74; 0x69; 0x74; 0x79]
             ++ sp1 ++ colon ++ sp2 ++ digits) ++ post)
    by (rewrite <- !app_assoc; reflexivity).
  rewrite firstn_consumed. reflexivity.
Qed.

(** No match starts at a character that opens neither label. *)
Lemma no_match_without_label (c : char) (s : str) :
  c <> 0x627 -> c <> 0x51 ->
  Re.match_here false quantity_regex (c :: s) = None.
Proof.
  intros H1 H2. unfold Re.match_here.
  change (Re.run false (Re.Subpattern 0 quantity_regex) (c :: s) []
            (fun _ g => Some g))
    with (match (if (c =? 0x627)%N
                 then Re.run false
                        (labelled_number [0x644; 0x643; 0x645; 0x64A; 0x629] 1)
                        s []
                        (fun s1 g1 =>
                           Some ((0%nat,
                                  firstn (List.length (c :: s)
                                          - List.length s1) (c :: s)) :: g1))
                 else None)
          with
          | Some r => Some r
          | None =>
              if (c =? 0x51)%N
              then Re.run false
                     (labelled_number
                        [0x75; 0x61; 0x6E; 0x74; 0x69; 0x74; 0x79] 2)
                     s []
                     (fun s1 g1 =>
                        Some ((0%nat,
                               firstn (List.length (c :: s)
                                       - List.length s1) (c :: s)) :: g1))
              else None
          end).
  apply N.eqb_neq in H1, H2. rewrite H1, H2. reflexivity.
Qed.

Lemma search_after_prefix (pre s : str) m :
  no_label_start pre ->
  Re.match_here false quantity_regex s = Some m ->
  Re.search false quantity_regex (pre ++ s) = Some m.
Proof.
  intros Hpre Hm. induction Hpre as [|c pre [H1 H2] Hpre IH]; simpl app.
  - destruct s; cbn [Re.search]; rewrite Hm; reflexivity.
  - cbn [Re.search]. rewrite (no_match_without_label _ _ H1 H2). exact IH.
Qed.

Lemma no_field_without_label (text : str) :
  no_label_start text -> Re.search false quantity_regex text = None.
Proof.
  intro H. induction H as [|c text [H1 H2] H IH].
  - reflexivity.
  - cbn [Re.search]. rewrite (no_match_without_label _ _ H1 H2). exact IH.
Qed.

(** ** [int] on the digits of a field *)

Lemma int_of_decimal (digits : str) :
  forallb isdecimal digits = true -> digits <> [] ->
  int (VStr digits)
  = if (int_max_str_digits <? List.length digits)%nat
    then Raise (Exception ValueError
                  (int_limit_message (List.length digits)))
    else Ok (Z.of_N (int_of_digits digits)).
Proof.
  intros Hd Hne. unfold int. rewrite Hd.
  rewrite (str_eqb_neq _ _ Hne). reflexivity.
Qed.

Lemma int_nonnegative (v : value) (z : Z) :
  (forall z', v <> VInt z') -> int v = Ok z -> (0 <= z)%Z.
Proof.
  intros Hv H. destruct v as [|s|z']; simpl in H.
  - discriminate.
  - destruct (negb (forallb isdecimal s) || Str.eqb s []); [discriminate|].
    destruct (int_max_str_digits <? List.length s)%nat; [discriminate|].
    inversion H. lia.
  - exfalso. apply (Hv z'). reflexivity.
Qed.

(** ** [extract_quantity] on texts with one leading field *)

Lemma extract_quantity_arabic (pre sp1 colon sp2 digits post : str) :
  no_label_start pre ->
  well_formed_field sp1 colon sp2 digits ->
  no_digit_ahead post ->
  extract_quantity
    (pre ++ quantity_field (u "الكمية") sp1 colon sp2 digits ++ post)
  = if (int_max_str_digits <? List.length digits)%nat
    then Raise (Exception ValueError
                  (int_limit_message (List.length digits)))
    else Ok (Z.of_N (int_of_digits digits)).
Proof.
  intros Hpre Hwf Hpost. unfold extract_quantity, re_search.
  rewrite quantity_pattern_compiled.
  rewrite (search_after_prefix _ _ _ Hpre
             (match_arabic_field _ _ _ _ _ Hwf Hpost)).
  simpl Re.group. simpl of_group.
  destruct Hwf as [_ [_ [_ [Hd Hne]]]].
  apply int_of_decimal; assumption.
Qed.

Lemma extract_quantity_english (pre sp1 colon sp2 digits post : str) :
  no_label_start pre ->
  well_formed_field sp1 colon sp2 digits ->
  no_digit_ahead post ->
  extract_quantity
    (pre ++ quantity_field (u "Quantity") sp1 colon sp2 digits ++ post)
  = Raise (Exception TypeError int_none_message).
Proof.
  intros Hpre Hwf Hpost. unfold extract_quantity, re_search.
  rewrite quantity_pattern_compiled.
  rewrite (search_after_prefix _ _ _ Hpre
             (match_english_field _ _ _ _ _ Hwf Hpost)).
  reflexivity.
Qed.

Lemma extract_quantity_absent (text : str) :
  re_search quantity_pattern text = None -> extract_quantity text = Ok 0%Z.
Proof. unfold extract_quantity. intros ->. reflexivity. Qed.

Lemma extract_quantity_nonnegative (text : str) (q : Z) :
  extract_quantity text = Ok q -> (0 <= q)%Z.
Proof.
  unfold extract_quantity.
  destruct (re_search quantity_pattern text) as [m|].
  - apply int_nonnegative. intros z'. destruct (Re.group 1 m); discriminate.
  - intro H. inversion H. lia.
Qed.

(** ** Literal patterns *)

Lemma literal_matches_itself ic (p : char) : Re.literal_matches ic p p = true.
Proof.
  unfold Re.literal_matches.
  destruct (ic && iscased p).
  - unfold mem. simpl. rewrite N.eqb_refl. reflexivity.
  - apply N.eqb_refl.
Qed.

Lemma run_literal ic (word : str) :
  forall (s : str) g k,
    Re.run ic (sequence (literally word)) (word ++ s) g k = k s g.
Proof.
  induction word as [|c word IH]; intros s g k.
  - reflexivity.
  - destruct word as [|c' word].
    + simpl. rewrite literal_matches_itself. reflexivity.
    + change (sequence (literally (c :: c' :: word)))
        with (Re.Seq (Re.One (Re.Literal c))
                     (sequence (literally (c' :: word)))).
      rewrite run_seq. simpl app.
      cbn [Re.run Re.atom_matches]. rewrite literal_matches_itself.
      apply (IH s g k).
Qed.

Lemma search_here ic p (s : str) m :
  Re.match_here ic p s = Some m -> Re.search ic p s = Some m.
Proof. intro H. destruct s; cbn [Re.search]; rewrite H; reflexivity. Qed.

Lemma search_later ic p (pre s : str) :
  found (Re.search ic p s) = true -> found (Re.search ic p (pre ++ s)) = true.
Proof.
  intro H. induction pre as [|c pre IH]; [exact H|].
  simpl app. cbn [Re.search].
  destruct (Re.match_here ic p (c :: pre ++ s)); [reflexivity|exact IH].
Qed.

(** A text that contains a word is matched by the pattern of that word. *)
Lemma search_word ic (word before after : str) :
  found (Re.search ic (sequence (literally word)) (before ++ word ++ after))
  = true.
Proof.
  apply search_later.
  rewrite (search_here ic _ _ [(0%nat, word)]); [reflexivity|].
  unfold Re.match_here. cbn [Re.run]. rewrite run_literal.
  rewrite firstn_consumed. reflexivity.
Qed.

(** ** Case folding *)

Lemma same_folded_cases (c1 c2 : char) :
  same_folded c1 c2 -> c1 = c2 \/ (foldable c1 /\ foldable c2).
Proof.
  unfold same_folded, foldable, tolower, is_ascii_upper.
  destruct (N.leb_spec 0x41 c1), (N.leb_spec c1 0x5A),
    (N.eqb_spec c1 0x130), (N.eqb_spec c1 0x212A),
    (N.leb_spec 0x41 c2), (N.leb_spec c2 0x5A),
    (N.eqb_spec c2 0x130), (N.eqb_spec c2 0x212A);
    simpl; intros; lia.
Qed.

Lemma foldable_cased (c : char) : foldable c -> iscased c = true.
Proof.
  unfold foldable, iscased, is_ascii_upper, is_ascii_lower.
  intros [H|[H|[H|H]]]; decide_comparisons; reflexivity.
Qed.

Lemma foldable_not_newline (c : char) : foldable c -> (c =? 0x0A)%N = false.
Proof.
  unfold foldable. intros [H|[H|[H|H]]]; decide_comparisons; reflexivity.
Qed.

Lemma foldable_not_space (c : char) : foldable c -> isspace c = false.
Proof.
  unfold foldable, isspace.
  intros [H|[H|[H|H]]]; decide_comparisons; reflexivity.
Qed.

Lemma foldable_not_decimal (c : char) : foldable c -> isdecimal c = false.
Proof.
  intro H. destruct (isdecimal c) eqn:E; [|reflexivity].
  apply decimal_block in E as [zero [Hin Hb]].
  unfold decimal_zeros in Hin. simpl in Hin. unfold foldable in H.
  repeat (destruct Hin as [<-|Hin]; [lia|]).
  destruct Hin.
Qed.

Lemma literal_matches_folded (p c1 c2 : char) :
  same_folded c1 c2 ->
  Re.literal_matches true p c1 = Re.literal_matches true p c2.
Proof.
  intro H. unfold Re.literal_matches. simpl andb.
  destruct (iscased p) eqn:Hp.
  - unfold same_folded in H. rewrite H. reflexivity.
  - destruct (same_folded_cases _ _ H) as [->|[F1 F2]]; [reflexivity|].
    assert (forall c, foldable c -> (c =? p)%N = false) as Hne.
    { intros c F. apply N.eqb_neq. intros ->.
      rewrite (foldable_cased _ F) in Hp. discriminate. }
    rewrite (Hne _ F1), (Hne _ F2). reflexivity.
Qed.

Lemma atom_matches_folded (a : Re.atom) (c1 c2 : char) :
  same_folded c1 c2 ->
  Re.atom_matches true a c1 = Re.atom_matches true a c2.
Proof.
  intro H. destruct a as [p| | | |cs]; simpl.
  - apply literal_matches_folded. assumption.
  - destruct (same_folded_cases _ _ H) as [->|[F1 F2]]; [reflexivity|].
    rewrite (foldable_not_newline _ F1), (foldable_not_newline _ F2).
    reflexivity.
  - destruct (same_folded_cases _ _ H) as [->|[F1 F2]]; [reflexivity|].
    rewrite (foldable_not_space _ F1), (foldable_not_space _ F2).
    reflexivity.
  - destruct (same_folded_cases _ _ H) as [->|[F1 F2]]; [reflexivity|].
    rewrite (foldable_not_decimal _ F1), (foldable_not_decimal _ F2).
    reflexivity.
  - induction cs as [|p cs IH]; simpl; [reflexivity|].
    rewrite IH, (literal_matches_folded p _ _ H). reflexivity.
Qed.

Section Folded.
Context {A B : Type}.

Lemma times_folded a n :
  forall s1 s2 (k1 : str -> option A) (k2 : str -> option B),
    same_text_folded s1 s2 -> alike k1 k2 ->
    found (Re.times true a n s1 k1) = found (Re.times true a n s2 k2).
Proof.
  induction n as [|n IH]; intros s1 s2 k1 k2 Hs Hk; simpl.
  - apply Hk. assumption.
  - destruct Hs as [|c1 c2 s1 s2 Hc Hs]; [reflexivity|].
    rewrite (atom_matches_folded a _ _ Hc).
    destruct (Re.atom_matches true a c2); [|reflexivity].
    apply IH; assumption.
Qed.

Lemma greedy_folded a :
  forall s1 s2, same_text_folded s1 s2 ->
  forall hi (k1 : str -> option A) (k2 : str -> option B), alike k1 k2 ->
    found (Re.greedy true a hi s1 k1) = found (Re.greedy true a hi s2 k2).
Proof.
  intros s1 s2 Hs.
  induction Hs as [|c1 c2 s1 s2 Hc Hs IH]; intros hi k1 k2 Hk; simpl.
  - apply Hk. constructor.
  - rewrite (atom_matches_folded a _ _ Hc).
    assert (found (k1 (c1 :: s1)) = found (k2 (c2 :: s2))) as Hhere.
    { apply Hk. constructor; assumption. }
    destruct (Re.may_take hi && Re.atom_matches true a c2);
      [|exact Hhere].
    specialize (IH (option_map Nat.pred hi) k1 k2 Hk).
    destruct (Re.greedy true a (option_map Nat.pred hi) s1 k1),
      (Re.greedy true a (option_map Nat.pred hi) s2 k2);
      simpl in IH; try discriminate; [reflexivity|exact Hhere].
Qed.
End Folded.

Lemma run_folded (p : Re.pattern) :
  forall s1 s2 g1 g2 k1 k2,
    same_text_folded s1 s2 ->
    (forall t1 t2 h1 h2,
        same_text_folded t1 t2 -> found (k1 t1 h1) = found (k2 t2 h2)) ->
    found (Re.run true p s1 g1 k1) = found (Re.run true p s2 g2 k2).
Proof.
  induction p as [|a|lo hi a|p IHp q IHq|p IHp q IHq|n p IHp];
    intros s1 s2 g1 g2 k1 k2 Hs Hk; cbn [Re.run].
  - apply Hk. assumption.
  - destruct Hs as [|c1 c2 s1 s2 Hc Hs]; [reflexivity|].
    rewrite (atom_matches_folded a _ _ Hc).
    destruct (Re.atom_matches true a c2); [|reflexivity].
    apply Hk. assumption.
  - apply times_folded; [assumption|].
    intros t1 t2 Ht. apply greedy_folded; [assumption|].
    intros r1 r2 Hr. apply Hk. assumption.
  - apply IHp; [assumption|].
    intros t1 t2 h1 h2 Ht. apply IHq; assumption.
  - pose proof (IHp s1 s2 g1 g2 k1 k2 Hs Hk) as H1.
    pose proof (IHq s1 s2 g1 g2 k1 k2 Hs Hk) as H2.
    destruct (Re.run true p s1 g1 k1), (Re.run true p s2 g2 k2);
      simpl in H1; try discriminate; [reflexivity|exact H2].
  - apply IHp; [assumption|].
    intros t1 t2 h1 h2 Ht. apply Hk. assumption.
Qed.

Lemma search_folded (p : Re.pattern) (s1 s2 : str) :
  same_text_folded s1 s2 ->
  found (Re.search true p s1) = found (Re.search true p s2).
Proof.
  intro Hs.
  assert (forall t1 t2, same_text_folded t1 t2 ->
            found (Re.match_here true p t1) = found (Re.match_here true p t2))
    as Hhere.
  { intros t1 t2 Ht. unfold Re.match_here.
    apply run_folded; [assumption|]. reflexivity. }
  induction Hs as [|c1 c2 s1 s2 Hc Hs IH].
  - cbn [Re.search]. specialize (Hhere [] [] (Forall2_nil _)).
    destruct (Re.match_here true p []); reflexivity.
  - cbn [Re.search].
    specialize (Hhere (c1 :: s1) (c2 :: s2) (Forall2_cons _ _ Hc Hs)).
    destruct (Re.match_here true p (c1 :: s1)),
      (Re.match_here true p (c2 :: s2));
      simpl in Hhere; try discriminate; [reflexivity|exact IH].
Qed.

Lemma same_text_foldedb_sound (t1 t2 : str) :
  same_text_foldedb t1 t2 = true -> same_text_folded t1 t2.
Proof.
  revert t2. induction t1 as [|a r1 IH]; intros [|b r2] H; simpl in H;
    try discriminate; constructor.
  - apply andb_true_iff in H as [H _]. apply N.eqb_eq in H. exact H.
  - apply IH. apply andb_true_iff in H as [_ H]. exact H.
Qed.

Lemma no_label_startb_sound (pre : str) :
  no_label_startb pre = true -> no_label_start pre.
Proof.
  unfold no_label_startb, no_label_start. intro H.
  apply Forall_forall. intros c Hc.
  rewrite forallb_forall in H. specialize (H c Hc).
  apply andb_true_iff in H as [H1 H2].
  apply negb_true_iff in H1, H2. apply N.eqb_neq in H1, H2.
  split; assumption.
Qed.

(** ** Product identification *)

Lemma some_pattern_matches_folded (patterns : list string) (t1 t2 : str) :
  same_text_folded t1 t2 ->
  some_pattern_matches patterns t1 = some_pattern_matches patterns t2.
Proof.
  intro H. induction patterns as [|pattern rest IH]; simpl; [reflexivity|].
  unfold re_search_IGNORECASE.
  pose proof (search_folded (Re.compile pattern) t1 t2 H) as Hs.
  destruct (Re.search true (Re.compile pattern) t1),
    (Re.search true (Re.compile pattern) t2);
    simpl in Hs; try discriminate; [reflexivity|exact IH].
Qed.

Lemma identify_product_in_folded (products : catalog) (t1 t2 : str) :
  same_text_folded t1 t2 ->
  identify_product_in products t1 = identify_product_in products t2.
Proof.
  intro H. induction products as [|[product patterns] rest IH]; simpl.
  - reflexivity.
  - rewrite (some_pattern_matches_folded patterns t1 t2 H), IH. reflexivity.
Qed.

(** The loop returns the first entry that matches, whatever follows it. *)
Lemma identify_product_in_first (before after : catalog) (product : str)
      (patterns : list string) (text : str) :
  forallb (fun entry => negb (entry_matches text entry)) before = true ->
  some_pattern_matches patterns text = true ->
  identify_product_in (before ++ (product, patterns) :: after) text
  = Some product.
Proof.
  intros Hb Hm. induction before as [|[p ps] before IH]; simpl.
  - rewrite Hm. reflexivity.
  - simpl in Hb. apply andb_true_iff in Hb as [Hp Hb].
    unfold entry_matches in Hp. simpl in Hp.
    apply negb_true_iff in Hp. rewrite Hp. apply IH. assumption.
Qed.

Lemma identify_product_in_none (products : catalog) (text : str) :
  forallb (fun entry => negb (entry_matches text entry)) products = true ->
  identify_product_in products text = None.
Proof.
  induction products as [|[p ps] products IH]; simpl; [reflexivity|].
  intro H. apply andb_true_iff in H as [Hp H].
  unfold entry_matches in Hp. simpl in Hp.
  apply negb_true_iff in Hp. rewrite Hp. apply IH. assumption.
Qed.

Lemma identify_product_in_name (products : catalog) (text product : str) :
  identify_product_in products text = Some product ->
  In product (map fst products).
Proof.
  induction products as [|[p ps] products IH]; simpl; [discriminate|].
  destruct (some_pattern_matches ps text).
  - intro H. inversion H. left. reflexivity.
  - intro H. right. apply IH. assumption.
Qed.

Lemma identify_product_name (text product : str) :
  identify_product text = Some product ->
  product = u "NeoMune" \/ product = u "Aminoleban Oral"
  \/ product = u "Blendera MF".
Proof.
  intro H. apply identify_product_in_name in H. simpl in H.
  intuition congruence.
Qed.

Lemma identify_product_truthy (text product : str) :
  identify_product text = Some product -> truthy product = true.
Proof.
  intro H. apply identify_product_name in H.
  destruct H as [-> | [-> | ->]]; reflexivity.
Qed.

Lemma identify_product_empty : identify_product [] = None.
Proof. vm_compute. reflexivity. Qed.

Lemma neomune_pattern_compiled :
  Re.compile "نو ميون" = sequence (literally (u "نو ميون")).
Proof. vm_compute. reflexivity. Qed.

Lemma identify_neomune (before after : str) :
  identify_product (before ++ u "نو ميون" ++ after) = Some (u "NeoMune").
Proof.
  unfold identify_product, PRODUCT_MAP. cbn [identify_product_in].
  cbn [some_pattern_matches]. unfold re_search_IGNORECASE.
  rewrite neomune_pattern_compiled.
  pose proof (search_word true (u "نو ميون") before after) as H.
  destruct (Re.search true (sequence (literally (u "نو ميون")))
              (before ++ u "نو ميون" ++ after));
    [reflexivity|discriminate].
Qed.

(** ** The page loop *)

Lemma pages_loop_step (page : Page) (rest : list Page)
      (summary_items : list LineItem) :
  pages_loop (page :: rest) summary_items
  = match item_of_page (extract_text page) with
    | Ok items => pages_loop rest (summary_items ++ items)
    | Raise e => Raise e
    end.
Proof.
  cbn [pages_loop]. unfold item_of_page.
  destruct (identify_product (extract_text page)) as [product|];
    [|rewrite app_nil_r; reflexivity].
  destruct (truthy product); [|rewrite app_nil_r; reflexivity].
  destruct (extract_quantity (extract_text page)); reflexivity.
Qed.

Lemma pages_loop_one (text : str) (summary_items : list LineItem) :
  pages_loop [{| get_text := Ok text |}] summary_items
  = match item_of_page text with
    | Ok items => Ok (summary_items ++ items)
    | Raise e => Raise e
    end.
Proof.
  rewrite pages_loop_step.
  change (extract_text {| get_text := Ok text |}) with text.
  destruct (item_of_page text); reflexivity.
Qed.

(** A page whose text cannot be read is as good as no page. *)
Lemma pages_loop_unreadable (before after : list Page) (page : Page)
      (e : exception) :
  get_text page = Raise e ->
  forall summary_items,
    pages_loop (before ++ page :: after) summary_items
    = pages_loop (before ++ after) summary_items.
Proof.
  intro H. induction before as [|p before IH]; intro acc; simpl app.
  - rewrite pages_loop_step. unfold extract_text. rewrite H.
    unfold item_of_page. rewrite identify_product_empty.
    rewrite app_nil_r. reflexivity.
  - rewrite !pages_loop_step.
    destruct (item_of_page (extract_text p)); [apply IH|reflexivity].
Qed.

Lemma item_of_page_good (text : str) (items : list LineItem) :
  item_of_page text = Ok items -> Forall good_item items.
Proof.
  unfold item_of_page.
  destruct (identify_product text) as [product|] eqn:Hp;
    [|intro H; inversion H; constructor].
  destruct (truthy product); [|intro H; inversion H; constructor].
  destruct (extract_quantity text) as [q|e] eqn:Hq; [|discriminate].
  intro H. inversion H. constructor; [|constructor].
  split; simpl.
  - apply (identify_product_in_name _ _ _ Hp).
  - apply extract_quantity_nonnegative in Hq.
    unfold or_int. destruct (Z.eqb_spec q 0); lia.
Qed.

Lemma pages_loop_good (doc : list Page) :
  forall summary_items items,
    Forall good_item summary_items ->
    pages_loop doc summary_items = Ok items ->
    Forall good_item items.
Proof.
  induction doc as [|page rest IH]; intros acc items Hacc H.
  - simpl in H. inversion H. subst. assumption.
  - rewrite pages_loop_step in H.
    destruct (item_of_page (extract_text page)) as [new|e] eqn:E;
      [|discriminate].
    apply (IH (acc ++ new) items); [|assumption].
    apply Forall_app. split; [assumption|].
    apply (item_of_page_good _ _ E).
Qed.

(** ** What the aggregation keeps *)

Lemma get_nonnegative (d : dict) (k : str) :
  Forall good_total d -> (0 <= get d k 0)%Z.
Proof.
  induction 1 as [|[k' v'] d [_ Hv] Hd IH]; simpl; [lia|].
  destruct (Str.eqb k' k); simpl in *; lia.
Qed.

Lemma set_good (d : dict) (k : str) (v : Z) :
  Forall good_total d -> good_total (k, v) -> Forall good_total (set d k v).
Proof.
  intros Hd Hkv. induction Hd as [|[k' v'] d Hh Hd IH]; simpl.
  - constructor; [assumption|constructor].
  - destruct (str_eqb_spec k' k) as [->|Hne].
    + constructor; assumption.
    + constructor; assumption.
Qed.

Lemma add_to_consolidated_good (items : list LineItem) :
  forall d,
    Forall good_item items -> Forall good_total d ->
    Forall good_total (add_to_consolidated items d).
Proof.
  induction items as [|i items IH]; intros d Hi Hd; simpl; [assumption|].
  inversion Hi as [|? ? [Hname Hq] Hrest]; subst.
  apply IH; [assumption|].
  apply set_good; [assumption|].
  split; simpl; [assumption|].
  pose proof (get_nonnegative d (item_name i) Hd). lia.
Qed.

Lemma add_to_distribution_good (r : Results) (items : list LineItem) :
  forall rows,
    Forall good_item items -> Forall good_row rows ->
    Forall good_row (add_to_distribution r items rows).
Proof.
  induction items as [|i items IH]; intros rows Hi Hr; simpl; [assumption|].
  inversion Hi as [|? ? Hgood Hrest]; subst.
  apply IH; [assumption|].
  apply Forall_app. split; [assumption|].
  constructor; [exact Hgood|constructor].
Qed.

Lemma aggregate_files_good (processed_data : list FileData) :
  Forall good_entry processed_data ->
  forall consolidated_items hospital_distribution,
    Forall good_total consolidated_items ->
    Forall good_row hospital_distribution ->
    Forall good_total
      (fst (aggregate_files processed_data consolidated_items
              hospital_distribution))
    /\ Forall good_row
         (snd (aggregate_files processed_data consolidated_items
                 hospital_distribution)).
Proof.
  induction 1 as [|fd rest Hfd Hrest IH]; intros c h Hc Hh; simpl.
  - split; assumption.
  - unfold good_entry in Hfd. destruct (data fd) as [d|].
    + apply IH.
      * apply add_to_consolidated_good; assumption.
      * apply add_to_distribution_good; assumption.
    + apply IH; assumption.
Qed.

Lemma entries_of_good (clock : nat -> datetime) (files : list UploadedFile) :
  forall n, Forall good_entry (fst (entries_of clock n files)).
Proof.
  induction files as [|f files IH]; intro n; simpl; [constructor|].
  destruct (entry_of clock n f) as [entry n1] eqn:E.
  specialize (IH n1). destruct (entries_of clock n1 files) as [es n2].
  simpl in *. constructor; [|assumption].
  unfold entry_of in E.
  destruct (fitz_open f) as [doc|e].
  - destruct (pages_loop doc []) as [items|e] eqn:Hl; inversion E; subst.
    + unfold good_entry. simpl.
      apply (pages_loop_good doc [] items); [constructor|assumption].
    + exact I.
  - inversion E. exact I.
Qed.

Lemma entries_of_result_or_reason (clock : nat -> datetime)
      (files : list UploadedFile) :
  forall n, Forall result_or_reason (fst (entries_of clock n files)).
Proof.
  induction files as [|f files IH]; intro n; simpl; [constructor|].
  destruct (entry_of clock n f) as [entry n1] eqn:E.
  specialize (IH n1). destruct (entries_of clock n1 files) as [es n2].
  simpl in *. constructor; [|assumption].
  unfold entry_of in E.
  destruct (fitz_open f) as [doc|e];
    [destruct (pages_loop doc []) as [items|e]|];
    inversion E; exact I.
Qed.

Lemma total_rows_good (d : dict) :
  Forall good_total d -> Forall good_total_row (total_rows d).
Proof.
  induction 1 as [|[k v] d H Hd IH]; simpl; constructor; assumption.
Qed.

Lemma aggregate_good (processed_data : list FileData) :
  Forall good_entry processed_data ->
  Forall good_total_row (consolidated_en_items (aggregate processed_data))
  /\ Forall good_row
       (multi_file_hospital_distribution (aggregate processed_data)).
Proof.
  intro H. unfold aggregate.
  destruct (aggregate_files_good processed_data H [] []
              (Forall_nil _) (Forall_nil _)) as [Hc Hh].
  destruct (aggregate_files processed_data [] []) as [c h]. simpl in *.
  split; [apply total_rows_good|]; assumption.
Qed.

Lemma grand_total_is_no_product : ~ In GRAND_TOTAL (map fst PRODUCT_MAP).
Proof. simpl. intros [H|[H|[H|[]]]]; discriminate H. Qed.

Lemma sum_positive (rows : list TotalRow) :
  Forall good_total_row rows ->
  (0 <= sum (quantities rows))%Z
  /\ (sum (quantities rows) = 0%Z <-> rows = []).
Proof.
  induction 1 as [|r rows [_ Hr] Hrows [IH1 IH2]].
  - split; [reflexivity|]. split; reflexivity.
  - unfold quantities in *. simpl map. rewrite sum_cons.
    split; [lia|]. split; [lia|discriminate].
Qed.

Lemma rows_unique (rows : list TotalRow) (item : str) (q q' : Z) :
  NoDup (map total_Item rows) ->
  In {| total_Item := item; Total_Quantity := q |} rows ->
  In {| total_Item := item; Total_Quantity := q' |} rows ->
  q = q'.
Proof.
  induction rows as [|r rows IH]; simpl; [tauto|].
  intros Hnd [H1|H1] [H2|H2]; inversion Hnd as [|? ? Hnot Hnd']; subst.
  - inversion H2. reflexivity.
  - exfalso. apply Hnot. apply (in_map total_Item _ _ H2).
  - exfalso. apply Hnot. apply (in_map total_Item _ _ H1).
  - eauto.
Qed.

(* ------------------------------------------------------------------ *)
(** * The claims of the specification *)

(** ** Aggregation *)

(** C1.  For every batch, the consolidated items and the item totals computed
    from the hospital-distribution rows (the grand-total row, which is the
    last one, left out) agree on every item that both list, and the
    quantities of the two tables have the same sum.  The two tables are in
    fact the same rows in the same order. *)
Theorem consolidated_items_agree_with_item_totals
        (processed_data : list FileData) :
  let report := aggregate processed_data in
  let item_totals := removelast (hospital_dist_item_totals report) in
  (forall item q q',
      In {| total_Item := item; Total_Quantity := q |}
         (consolidated_en_items report) ->
      In {| total_Item := item; Total_Quantity := q' |} item_totals ->
      q = q')
  /\ sum (quantities (consolidated_en_items report))
     = sum (quantities item_totals)
  /\ item_totals = consolidated_en_items report.
Proof.
  intros report item_totals.
  assert (item_totals = consolidated_en_items report) as E.
  { unfold item_totals, report. rewrite item_totals_shape.
    apply removelast_last. }
  split; [|split].
  - intros item q q' H1 H2. rewrite E in H2.
    apply (rows_unique (consolidated_en_items report) item q q');
      [apply consolidated_rows_unique|assumption|assumption].
  - rewrite E. reflexivity.
  - exact E.
Qed.

Lemma consolidated_items_agree_with_item_totals_witness :
  let processed_data :=
    fst (entries_of (wall initial_world) 0
           [ pdf "a.pdf" [page_of "نو ميون الكمية: 25"; page_of "بليندرا"];
             pdf "b.pdf" [page_of "نو ميون الكمية: 5"] ]) in
  let report := aggregate processed_data in
  In {| total_Item := u "NeoMune"; Total_Quantity := 30 |}
     (consolidated_en_items report)
  /\ In {| total_Item := u "NeoMune"; Total_Quantity := 30 |}
        (removelast (hospital_dist_item_totals report))
  /\ 30%Z = 30%Z.
Proof.
  intros processed_data report.
  assert (In {| total_Item := u "NeoMune"; Total_Quantity := 30 |}
             (consolidated_en_items report)) as H1
      by (vm_compute; left; reflexivity).
  assert (In {| total_Item := u "NeoMune"; Total_Quantity := 30 |}
             (removelast (hospital_dist_item_totals report))) as H2
      by (vm_compute; left; reflexivity).
  split; [exact H1|]. split; [exact H2|].
  exact (proj1 (consolidated_items_agree_with_item_totals processed_data)
           (u "NeoMune") 30%Z 30%Z H1 H2).
Defined.

(** C2.  For every batch with at least one successful document, the table of
    item totals ends with one further row, named by the sentinel
    "GRAND TOTAL" (which names no other row), whose quantity is the sum of
    the quantities of all the other rows. *)
Theorem grand_total_row_sums_the_item_rows
        (uploaded_files : list UploadedFile) (session_state : SessionState)
        (w : world) :
  existsb succeeds uploaded_files = true ->
  exists session' report rows,
    fst (run_script uploaded_files session_state w) = Ok session'
    /\ aggregated_data session' = Some report
    /\ hospital_dist_item_totals report
       = rows ++ [{| total_Item := u "GRAND TOTAL";
                     Total_Quantity := sum (quantities rows) |}]
    /\ Forall (fun row => total_Item row <> u "GRAND TOTAL") rows.
Proof.
  intro Hs. rewrite run_script_ok.
  destruct uploaded_files as [|f rest]; [discriminate|].
  set (processed_data :=
         fst (entries_of (wall w) (now_calls w) (f :: rest))).
  assert (any_data processed_data = true) as Hany.
  { unfold processed_data. rewrite any_data_entries. exact Hs. }
  eexists. exists (aggregate processed_data).
  exists (consolidated_en_items (aggregate processed_data)).
  split; [reflexivity|]. cbv zeta. simpl aggregated_data.
  fold processed_data. rewrite Hany.
  split; [reflexivity|]. split; [apply item_totals_shape|].
  assert (Forall good_entry processed_data) as Hgood
      by apply entries_of_good.
  apply aggregate_good in Hgood as [Hrows _].
  eapply Forall_impl; [|exact Hrows].
  intros row [Hname _] E. apply grand_total_is_no_product.
  unfold GRAND_TOTAL. rewrite <- E. exact Hname.
Qed.

Lemma grand_total_row_sums_the_item_rows_witness :
  existsb succeeds [pdf "a.pdf" [page_of "نو ميون الكمية: 25"]] = true
  /\ exists session' report rows,
      fst (run_script [pdf "a.pdf" [page_of "نو ميون الكمية: 25"]]
             fresh_session initial_world) = Ok session'
      /\ aggregated_data session' = Some report
      /\ hospital_dist_item_totals report
         = rows ++ [{| total_Item := u "GRAND TOTAL";
                       Total_Quantity := sum (quantities rows) |}]
      /\ Forall (fun row => total_Item row <> u "GRAND TOTAL") rows.
Proof.
  split; [vm_compute; reflexivity|].
  apply grand_total_row_sums_the_item_rows. vm_compute. reflexivity.
Defined.

(** ** Product identification *)

(** C4.  [identify_product] returns the name of the first entry of the
    catalog, in its iteration order, one of whose patterns matches the text,
    whatever later entries match as well; texts that differ only in the case
    of their letters are identified alike; and when no entry matches the
    result is [None]. *)
Theorem identify_product_takes_the_first_matching_entry :
  (forall before product patterns after text,
      PRODUCT_MAP = before ++ (product, patterns) :: after ->
      forallb (fun entry => negb (entry_matches text entry)) before = true ->
      some_pattern_matches patterns text = true ->
      identify_product text = Some product)
  /\ (forall t1 t2,
         same_text_folded t1 t2 -> identify_product t1 = identify_product t2)
  /\ (forall text,
         forallb (fun entry => negb (entry_matches text entry)) PRODUCT_MAP
         = true ->
         identify_product text = None).
Proof.
  split; [|split].
  - intros before product patterns after text E Hb Hm.
    unfold identify_product. rewrite E.
    apply identify_product_in_first; assumption.
  - intros t1 t2 H. apply identify_product_in_folded. assumption.
  - intros text H. apply identify_product_in_none. assumption.
Qed.

Lemma identify_product_takes_the_first_matching_entry_witness :
  (entry_matches (u "بليندرا ثم نو ميون")
     (u "NeoMune", ["نو ميون"; "Enteral powder.*cachectic"]) = true
   /\ entry_matches (u "بليندرا ثم نو ميون")
        (u "Blendera MF", ["بليندرا"; "Lactose free.*low cholesterol"])
      = true
   /\ identify_product (u "بليندرا ثم نو ميون") = Some (u "NeoMune"))
  /\ (same_text_folded (u "ENTERAL POWDER, CACHECTIC")
                       (u "enteral powder, cachectic")
      /\ identify_product (u "ENTERAL POWDER, CACHECTIC")
         = identify_product (u "enteral powder, cachectic"))
  /\ (forallb (fun entry => negb (entry_matches (u "Paracetamol") entry))
              PRODUCT_MAP = true
      /\ identify_product (u "Paracetamol") = None).
Proof.
  destruct identify_product_takes_the_first_matching_entry
    as [Hfirst [Hfold Hnone]].
  split; [|split].
  - split; [vm_compute; reflexivity|]. split; [vm_compute; reflexivity|].
    apply (Hfirst [] (u "NeoMune") ["نو ميون"; "Enteral powder.*cachectic"]
             [ (u "Aminoleban Oral",
                ["أمينوليبان"; "Amino Acid.*Hepatic.*Can"]);
               (u "Blendera MF",
                ["بليندرا"; "Lactose free.*low cholesterol"]) ]).
    + reflexivity.
    + reflexivity.
    + vm_compute. reflexivity.
  - assert (same_text_folded (u "ENTERAL POWDER, CACHECTIC")
                             (u "enteral powder, cachectic")) as H
        by (apply same_text_foldedb_sound; vm_compute; reflexivity).
    split; [exact H|]. apply Hfold. exact H.
  - assert (forallb (fun entry => negb (entry_matches (u "Paracetamol") entry))
                    PRODUCT_MAP = true) as H
        by (vm_compute; reflexivity).
    split; [exact H|]. apply Hnone. exact H.
Defined.

(** ** Quantities *)

Lemma page_recorded_with_default (text product : str) :
  identify_product text = Some product ->
  extract_quantity text = Ok 0%Z ->
  pages_loop [{| get_text := Ok text |}] []
  = Ok [{| item_name := product; quantity := 10 |}].
Proof.
  intros Hp Hq. rewrite pages_loop_one. unfold item_of_page.
  rewrite Hp, (identify_product_truthy _ _ Hp), Hq. reflexivity.
Qed.

Lemma extract_quantity_stated_zero (pre sp1 colon sp2 zeros post : str) :
  no_label_start pre ->
  well_formed_field sp1 colon sp2 zeros ->
  no_digit_ahead post ->
  int_of_digits zeros = 0%N ->
  (List.length zeros <= int_max_str_digits)%nat ->
  extract_quantity
    (pre ++ quantity_field (u "الكمية") sp1 colon sp2 zeros ++ post)
  = Ok 0%Z.
Proof.
  intros Hpre Hwf Hpost Hz Hlen.
  rewrite (extract_quantity_arabic _ _ _ _ _ _ Hpre Hwf Hpost).
  replace (int_max_str_digits <? List.length zeros)%nat with false
    by (symmetry; apply Nat.ltb_ge; exact Hlen).
  rewrite Hz. reflexivity.
Qed.

(** C3, as the code has it.  A page that states the quantity 0 (under the
    Arabic label) and a page with no quantity field at all are not told
    apart: [extract_quantity] returns the integer 0 for both, and the page
    loop records both with the quantity 10.  There is no marker for an
    unknown quantity. *)
Theorem zero_and_absent_quantity_are_both_recorded_as_ten
        (pre sp1 colon sp2 zeros post absent product product' : str) :
  let stated_zero :=
    pre ++ quantity_field (u "الكمية") sp1 colon sp2 zeros ++ post in
  no_label_start pre ->
  well_formed_field sp1 colon sp2 zeros ->
  no_digit_ahead post ->
  int_of_digits zeros = 0%N ->
  (List.length zeros <= int_max_str_digits)%nat ->
  re_search quantity_pattern absent = None ->
  identify_product stated_zero = Some product ->
  identify_product absent = Some product' ->
  extract_quantity stated_zero = Ok 0%Z
  /\ extract_quantity absent = Ok 0%Z
  /\ pages_loop [{| get_text := Ok stated_zero |}] []
     = Ok [{| item_name := product; quantity := 10 |}]
  /\ pages_loop [{| get_text := Ok absent |}] []
     = Ok [{| item_name := product'; quantity := 10 |}].
Proof.
  intros stated_zero Hpre Hwf Hpost Hz Hlen Habs Hp Hp'.
  assert (extract_quantity stated_zero = Ok 0%Z) as H0
      by (apply extract_quantity_stated_zero; assumption).
  assert (extract_quantity absent = Ok 0%Z) as H1
      by (apply extract_quantity_absent; assumption).
  split; [exact H0|]. split; [exact H1|].
  split; apply page_recorded_with_default; assumption.
Qed.

Lemma well_formed_colon_space (digits : str) :
  forallb isdecimal digits = true -> digits <> [] ->
  well_formed_field [] [0x3A] [0x20] digits.
Proof.
  intros Hd Hne. unfold well_formed_field, is_separator.
  repeat split; auto.
Qed.

Lemma zero_and_absent_quantity_are_both_recorded_as_ten_witness :
  extract_quantity (u "نو ميون الكمية: 0") = Ok 0%Z
  /\ extract_quantity (u "نو ميون") = Ok 0%Z
  /\ pages_loop [page_of "نو ميون الكمية: 0"] []
     = Ok [{| item_name := u "NeoMune"; quantity := 10 |}]
  /\ pages_loop [page_of "نو ميون"] []
     = Ok [{| item_name := u "NeoMune"; quantity := 10 |}].
Proof.
  apply (zero_and_absent_quantity_are_both_recorded_as_ten
           (u "نو ميون ") [] [0x3A] [0x20] (u "0") [] (u "نو ميون")
           (u "NeoMune") (u "NeoMune")).
  - apply no_label_startb_sound. vm_compute. reflexivity.
  - apply well_formed_colon_space; [reflexivity|discriminate].
  - exact I.
  - reflexivity.
  - unfold int_max_str_digits. simpl. lia.
  - vm_compute. reflexivity.
  - vm_compute. reflexivity.
  - vm_compute. reflexivity.
Defined.

(** C3 as stated does not hold: the page that states the quantity 0 and the
    page that states none give the same quantity, the same line item and the
    same reports. *)
Lemma stated_zero_and_absent_quantity_give_the_same_item :
  (exists m, re_search quantity_pattern (u "نو ميون الكمية: 0") = Some m
             /\ Re.group 1 m = Some (u "0"))
  /\ re_search quantity_pattern (u "نو ميون") = None
  /\ extract_quantity (u "نو ميون الكمية: 0")
     = extract_quantity (u "نو ميون")
  /\ pages_loop [page_of "نو ميون الكمية: 0"] []
     = pages_loop [page_of "نو ميون"] []
  /\ fst (run_script [pdf "po.pdf" [page_of "نو ميون الكمية: 0"]]
            fresh_session initial_world)
     = fst (run_script [pdf "po.pdf" [page_of "نو ميون"]]
              fresh_session initial_world).
Proof.
  split; [eexists; split; vm_compute; reflexivity|].
  repeat split; vm_compute; reflexivity.
Qed.

(** C10, as the code has it.  Every line item that document processing
    emits has a strictly positive quantity; a page whose product is
    identified and that states the quantity 0 under the Arabic label, or has
    no quantity field at all, is recorded with the quantity 10; and so every
    row of the consolidated items, of the hospital distribution and of the
    item totals carries a positive quantity, the grand-total row apart,
    which is 0 exactly when there is no item row. *)
Theorem line_items_carry_positive_quantities :
  (forall doc items,
      pages_loop doc [] = Ok items ->
      Forall (fun item => (0 < quantity item)%Z) items)
  /\ (forall text product,
         identify_product text = Some product ->
         (re_search quantity_pattern text = None
          \/ exists pre sp1 colon sp2 zeros post,
              text = pre ++ quantity_field (u "الكمية") sp1 colon sp2 zeros
                         ++ post
              /\ no_label_start pre
              /\ well_formed_field sp1 colon sp2 zeros
              /\ no_digit_ahead post
              /\ int_of_digits zeros = 0%N
              /\ (List.length zeros <= int_max_str_digits)%nat) ->
         pages_loop [{| get_text := Ok text |}] []
         = Ok [{| item_name := product; quantity := 10 |}])
  /\ (forall uploaded_files w processed_data,
         fst (process_files uploaded_files [] w) = Ok processed_data ->
         let report := aggregate processed_data in
         Forall (fun row => (0 < Total_Quantity row)%Z)
                (consolidated_en_items report)
         /\ Forall (fun row => (0 < Quantity row)%Z)
                   (multi_file_hospital_distribution report)
         /\ exists rows grand_total,
             hospital_dist_item_totals report
             = rows ++ [{| total_Item := u "GRAND TOTAL";
                           Total_Quantity := grand_total |}]
             /\ Forall (fun row => (0 < Total_Quantity row)%Z) rows
             /\ (0 <= grand_total)%Z
             /\ (grand_total = 0%Z <-> rows = [])).
Proof.
  split; [|split].
  - intros doc items H.
    apply (pages_loop_good doc [] items (Forall_nil _)) in H.
    eapply Forall_impl; [|exact H]. intros item [_ Hq]. exact Hq.
  - intros text product Hp [Habs | Hzero].
    + apply page_recorded_with_default; [assumption|].
      apply extract_quantity_absent. assumption.
    + destruct Hzero as [pre [sp1 [colon [sp2 [zeros [post H]]]]]].
      destruct H as [-> [Hpre [Hwf [Hpost [Hz Hlen]]]]].
      apply page_recorded_with_default; [assumption|].
      apply extract_quantity_stated_zero; assumption.
  - intros uploaded_files w processed_data H report.
    rewrite process_files_ok in H. inversion H as [E]. clear H.
    assert (Forall good_entry processed_data) as Hgood
        by (rewrite <- E; apply entries_of_good).
    destruct (aggregate_good processed_data Hgood) as [Hrows Hdist].
    fold report in Hrows, Hdist.
    assert (Forall (fun row => (0 < Total_Quantity row)%Z)
                   (consolidated_en_items report)) as Hpos.
    { eapply Forall_impl; [|exact Hrows]. intros row [_ Hq]. exact Hq. }
    split; [exact Hpos|]. split.
    + eapply Forall_impl; [|exact Hdist]. intros row [_ Hq]. exact Hq.
    + exists (consolidated_en_items report).
      exists (sum (quantities (consolidated_en_items report))).
      split; [apply item_totals_shape|]. split; [exact Hpos|].
      apply sum_positive. exact Hrows.
Qed.

Lemma line_items_carry_positive_quantities_witness :
  (pages_loop [page_of "بليندرا"; page_of "نو ميون الكمية: 0"] []
   = Ok [ {| item_name := u "Blendera MF"; quantity := 10 |};
          {| item_name := u "NeoMune"; quantity := 10 |} ]
   /\ Forall (fun item => (0 < quantity item)%Z)
             [ {| item_name := u "Blendera MF"; quantity := 10 |};
               {| item_name := u "NeoMune"; quantity := 10 |} ])
  /\ (identify_product (u "بليندرا") = Some (u "Blendera MF")
      /\ re_search quantity_pattern (u "بليندرا") = None
      /\ pages_loop [page_of "بليندرا"] []
         = Ok [{| item_name := u "Blendera MF"; quantity := 10 |}])
  /\ (identify_product (u "نو ميون الكمية: 0") = Some (u "NeoMune")
      /\ pages_loop [page_of "نو ميون الكمية: 0"] []
         = Ok [{| item_name := u "NeoMune"; quantity := 10 |}])
  /\ Forall (fun row => (0 < Quantity row)%Z)
            (multi_file_hospital_distribution
               (aggregate
                  (fst (entries_of (wall initial_world) 0
                          [pdf "a.pdf" [page_of "بليندرا"]])))).
Proof.
  destruct line_items_carry_positive_quantities as [Hitems [Hten Hrows]].
  split; [|split; [|split]].
  - assert (pages_loop [page_of "بليندرا"; page_of "نو ميون الكمية: 0"] []
            = Ok [ {| item_name := u "Blendera MF"; quantity := 10 |};
                   {| item_name := u "NeoMune"; quantity := 10 |} ]) as H
        by (vm_compute; reflexivity).
    split; [exact H|]. exact (Hitems _ _ H).
  - assert (identify_product (u "بليندرا") = Some (u "Blendera MF")) as Hp
        by (vm_compute; reflexivity).
    assert (re_search quantity_pattern (u "بليندرا") = None) as Hq
        by (vm_compute; reflexivity).
    split; [exact Hp|]. split; [exact Hq|].
    exact (Hten _ _ Hp (or_introl Hq)).
  - assert (identify_product (u "نو ميون الكمية: 0") = Some (u "NeoMune"))
      as Hp by (vm_compute; reflexivity).
    split; [exact Hp|].
    apply (Hten (u "نو ميون الكمية: 0") (u "NeoMune") Hp). right.
    exists (u "نو ميون "), [], [0x3A], [0x20], (u "0"), [].
    split; [reflexivity|].
    split; [apply no_label_startb_sound; vm_compute; reflexivity|].
    split; [apply well_formed_colon_space; [reflexivity|discriminate]|].
    split; [exact I|]. split; [reflexivity|].
    unfold int_max_str_digits. simpl. lia.
  - assert (fst (process_files [pdf "a.pdf" [page_of "بليندرا"]] []
                   initial_world)
            = Ok (fst (entries_of (wall initial_world) 0
                         [pdf "a.pdf" [page_of "بليندرا"]]))) as H
        by (vm_compute; reflexivity).
    exact (proj1 (proj2 (Hrows _ _ _ H))).
Defined.

(** C10 as stated does not hold.  A batch whose only document has no
    matching page gets a grand-total row of quantity 0; and a page that
    states the quantity 0 under the English label is not recorded at all,
    its document fails. *)
Lemma a_report_row_with_quantity_zero :
  (exists session',
      fst (run_script [pdf "blank.pdf" [page_of ""]] fresh_session
             initial_world) = Ok session'
      /\ option_map hospital_dist_item_totals (aggregated_data session')
         = Some [{| total_Item := u "GRAND TOTAL"; Total_Quantity := 0 |}])
  /\ identify_product (u "نو ميون Quantity: 0") = Some (u "NeoMune")
  /\ pages_loop [page_of "نو ميون Quantity: 0"] []
     = Raise (Exception TypeError int_none_message).
Proof.
  split; [eexists; split; vm_compute; reflexivity|].
  split; vm_compute; reflexivity.
Qed.

(** C6.  The pattern of [extract_quantity] accepts either label, but the
    number is read from the first group only.  After the Arabic label the
    function returns the number written (as long as it is within the
    interpreter's limit on digits); after the English label "Quantity" the
    first group took no part in the match, and [int(None)] raises a
    [TypeError]: no number is returned. *)
Theorem quantity_is_read_after_the_arabic_label_only
        (pre sp1 colon sp2 digits post : str) :
  no_label_start pre ->
  well_formed_field sp1 colon sp2 digits ->
  no_digit_ahead post ->
  (List.length digits <= int_max_str_digits)%nat ->
  extract_quantity
    (pre ++ quantity_field (u "الكمية") sp1 colon sp2 digits ++ post)
  = Ok (Z.of_N (int_of_digits digits))
  /\ extract_quantity
       (pre ++ quantity_field (u "Quantity") sp1 colon sp2 digits ++ post)
     = Raise (Exception TypeError int_none_message).
Proof.
  intros Hpre Hwf Hpost Hlen. split.
  - rewrite (extract_quantity_arabic _ _ _ _ _ _ Hpre Hwf Hpost).
    replace (int_max_str_digits <? List.length digits)%nat with false
      by (symmetry; apply Nat.ltb_ge; exact Hlen).
    reflexivity.
  - apply extract_quantity_english; assumption.
Qed.

Lemma quantity_is_read_after_the_arabic_label_only_witness :
  extract_quantity (u "الكمية: 5") = Ok 5%Z
  /\ extract_quantity (u "Quantity: 5")
     = Raise (Exception TypeError int_none_message).
Proof.
  apply (quantity_is_read_after_the_arabic_label_only
           [] [] [0x3A] [0x20] (u "5") []).
  - constructor.
  - apply well_formed_colon_space; [reflexivity|discriminate].
  - exact I.
  - unfold int_max_str_digits. simpl. lia.
Defined.

(** The document of a page with an English quantity field fails as a
    whole. *)
Lemma english_quantity_fails_the_document :
  fst (process_files
         [pdf "po.pdf" [page_of "نو ميون الكمية: 25";
                        page_of "بليندرا Quantity: 5"]] [] initial_world)
  = Ok [failed_entry
          (pdf "po.pdf" [page_of "نو ميون الكمية: 25";
                         page_of "بليندرا Quantity: 5"])].
Proof. vm_compute. reflexivity. Qed.

(** ** The example scenario *)

(** C5.  A one-page document whose text contains "نو ميون" and whose
    quantity field is "الكمية: 25" yields exactly the line item NeoMune, 25;
    a batch of this document alone yields the consolidated items
    [NeoMune: 25] and the item totals [NeoMune: 25; GRAND TOTAL: 25]. *)
Theorem neomune_scenario
        (before after pre post file_name : str)
        (session_state : SessionState) (w : world) :
  let text := pre ++ u "الكمية: 25" ++ post in
  let neomune_25 := {| item_name := u "NeoMune"; quantity := 25 |} in
  let file :=
    {| name := file_name; fitz_open := Ok [{| get_text := Ok text |}] |} in
  text = before ++ u "نو ميون" ++ after ->
  no_label_start pre ->
  no_digit_ahead post ->
  pages_loop [{| get_text := Ok text |}] [] = Ok [neomune_25]
  /\ exists session' r report,
      fst (run_script [file] session_state w) = Ok session'
      /\ processed_files session'
         = [{| file_name := file_name; data := Some r; error := None |}]
      /\ summary_items r = [neomune_25]
      /\ aggregated_data session' = Some report
      /\ consolidated_en_items report
         = [{| total_Item := u "NeoMune"; Total_Quantity := 25 |}]
      /\ hospital_dist_item_totals report
         = [ {| total_Item := u "NeoMune"; Total_Quantity := 25 |};
             {| total_Item := u "GRAND TOTAL"; Total_Quantity := 25 |} ].
Proof.
  intros text neomune_25 file Htext Hpre Hpost.
  assert (identify_product text = Some (u "NeoMune")) as Hp
      by (rewrite Htext; apply identify_neomune).
  assert (extract_quantity text = Ok 25%Z) as Hq.
  { unfold text.
    change (u "الكمية: 25")
      with (quantity_field (u "الكمية") [] [0x3A] [0x20] (u "25")).
    rewrite (extract_quantity_arabic pre [] [0x3A] [0x20] (u "25") post
               Hpre
               (well_formed_colon_space (u "25") eq_refl
                  ltac:(discriminate))
               Hpost).
    reflexivity. }
  assert (pages_loop [{| get_text := Ok text |}] [] = Ok [neomune_25])
    as Hloop.
  { rewrite pages_loop_one. unfold item_of_page. rewrite Hp, Hq.
    reflexivity. }
  split; [exact Hloop|].
  rewrite run_script_ok.
  assert (entries_of (wall w) (now_calls w) [file]
          = ([{| file_name := file_name;
                 data := Some (results_at (wall w) (now_calls w) [neomune_25]);
                 error := None |}], S (S (now_calls w)))) as He.
  { unfold entries_of, entry_of. unfold file at 1. cbn [fitz_open].
    rewrite Hloop. reflexivity. }
  rewrite He.
  eexists. exists (results_at (wall w) (now_calls w) [neomune_25]).
  eexists.
  split; [reflexivity|]. split; [reflexivity|]. split; [reflexivity|].
  split; [reflexivity|]. split; reflexivity.
Qed.

Lemma neomune_scenario_witness :
  u "نو ميون الكمية: 25" = [] ++ u "نو ميون" ++ u " الكمية: 25"
  /\ pages_loop [page_of "نو ميون الكمية: 25"] []
     = Ok [{| item_name := u "NeoMune"; quantity := 25 |}]
  /\ exists session' r report,
      fst (run_script [pdf "po.pdf" [page_of "نو ميون الكمية: 25"]]
             fresh_session initial_world) = Ok session'
      /\ processed_files session'
         = [{| file_name := u "po.pdf"; data := Some r; error := None |}]
      /\ summary_items r = [{| item_name := u "NeoMune"; quantity := 25 |}]
      /\ aggregated_data session' = Some report
      /\ consolidated_en_items report
         = [{| total_Item := u "NeoMune"; Total_Quantity := 25 |}]
      /\ hospital_dist_item_totals report
         = [ {| total_Item := u "NeoMune"; Total_Quantity := 25 |};
             {| total_Item := u "GRAND TOTAL"; Total_Quantity := 25 |} ].
Proof.
  assert (u "نو ميون الكمية: 25" = [] ++ u "نو ميون" ++ u " الكمية: 25")
    as Htext by reflexivity.
  split; [exact Htext|].
  apply (neomune_scenario [] (u " الكمية: 25") (u "نو ميون ") [] (u "po.pdf")
           fresh_session initial_world).
  - exact Htext.
  - apply no_label_startb_sound. vm_compute. reflexivity.
  - exact I.
Defined.

(** ** Failures *)

(** C7, as the code has it.  [extract_text] does not raise: when reading the
    page fails it returns the empty string.  Such a page contributes no line
    item and the other pages of the document are processed as if it were
    not there.  Nothing is recorded about it: the document's result and
    everything the script has shown are the same with the page or without
    it, and the list of notes of a result is always empty. *)
Theorem unreadable_page_is_skipped_without_a_note (page : Page) (e : exception) :
  get_text page = Raise e ->
  extract_text page = []
  /\ (forall before after summary_items,
         pages_loop (before ++ page :: after) summary_items
         = pages_loop (before ++ after) summary_items)
  /\ (forall file_name before after w,
         process_pdf {| name := file_name;
                        fitz_open := Ok (before ++ page :: after) |} w
         = process_pdf {| name := file_name;
                          fitz_open := Ok (before ++ after) |} w)
  /\ (forall file w r w',
         process_pdf file w = (Ok (Some r), w') ->
         ocr_pages r = [] /\ screen w' = screen w).
Proof.
  intro H. split; [|split; [|split]].
  - unfold extract_text. rewrite H. reflexivity.
  - intros before after acc. apply (pages_loop_unreadable _ _ _ e H).
  - intros file_name before after w. rewrite !process_pdf_run.
    cbn [fitz_open]. rewrite (pages_loop_unreadable _ _ _ e H).
    reflexivity.
  - intros file w r w' Hrun. rewrite process_pdf_run in Hrun.
    destruct (fitz_open file) as [doc|e']; [|discriminate].
    destruct (pages_loop doc []) as [items|e']; [|discriminate].
    inversion Hrun. subst. split; [reflexivity|].
    unfold advance. simpl. apply app_nil_r.
Qed.

Lemma unreadable_page_is_skipped_without_a_note_witness :
  get_text unreadable_page
  = Raise (Exception (LibraryError (u "RuntimeError"))
                     (u "page cannot be read"))
  /\ extract_text unreadable_page = []
  /\ pages_loop ([] ++ unreadable_page :: [page_of "نو ميون الكمية: 25"]) []
     = pages_loop ([] ++ [page_of "نو ميون الكمية: 25"]) [].
Proof.
  split; [reflexivity|].
  destruct (unreadable_page_is_skipped_without_a_note unreadable_page
              (Exception (LibraryError (u "RuntimeError"))
                         (u "page cannot be read")) eq_refl)
    as [Htext [Hloop _]].
  split; [exact Htext|]. apply Hloop.
Defined.

(** C7 as stated does not hold: a document with an unreadable page next to a
    matching page yields its one line item and no note at all, neither in
    the result nor on the screen. *)
Lemma unreadable_page_leaves_no_note :
  exists r w',
    process_pdf (pdf "po.pdf" [unreadable_page;
                               page_of "نو ميون الكمية: 25"]) initial_world
    = (Ok (Some r), w')
    /\ summary_items r = [{| item_name := u "NeoMune"; quantity := 25 |}]
    /\ ocr_pages r = []
    /\ screen w' = [].
Proof.
  eexists. eexists. split; [vm_compute; reflexivity|].
  repeat split; reflexivity.
Qed.

Lemma entry_of_unopened (clock : nat -> datetime) (n : nat)
      (file : UploadedFile) (e : exception) :
  fitz_open file = Raise e -> entry_of clock n file = (failed_entry file, n).
Proof. intro H. unfold entry_of. rewrite H. reflexivity. Qed.

(** C8.  When [fitz.open] rejects the stream of a document, [process_pdf]
    returns the failure value [None] and the batch loop records the file
    with no result and an error text; the loop goes on, and every other
    document gets the entry it gets in the batch without the rejected one.
    The outcome of the batch is one entry per file, in the order of the
    files, each with the file name and either a result or an error text. *)
Theorem malformed_pdf_fails_alone
        (before after : list UploadedFile) (file : UploadedFile)
        (e : exception) (w : world) :
  fitz_open file = Raise e ->
  fst (process_pdf file w) = Ok None
  /\ exists entries1 entries2,
      fst (process_files (before ++ after) [] w) = Ok (entries1 ++ entries2)
      /\ fst (process_files (before ++ file :: after) [] w)
         = Ok (entries1
                 ++ {| file_name := name file;
                       data := None;
                       error := Some (u "Processing failed") |} :: entries2)
      /\ List.length entries1 = List.length before
      /\ List.length entries2 = List.length after
      /\ map file_name entries1 = map name before
      /\ map file_name entries2 = map name after
      /\ Forall result_or_reason entries1
      /\ Forall result_or_reason entries2.
Proof.
  intro H. split.
  - rewrite process_pdf_run, H. reflexivity.
  - rewrite !process_files_ok.
    set (clock := wall w). set (n := now_calls w).
    exists (fst (entries_of clock n before)).
    exists (fst (entries_of clock (snd (entries_of clock n before)) after)).
    split; [rewrite entries_of_app; reflexivity|].
    split.
    + rewrite entries_of_app. cbn [entries_of].
      rewrite (entry_of_unopened _ _ _ e H).
      destruct (entries_of clock (snd (entries_of clock n before)) after).
      reflexivity.
    + repeat split.
      * apply entries_of_length.
      * apply entries_of_length.
      * apply entries_of_names.
      * apply entries_of_names.
      * apply entries_of_result_or_reason.
      * apply entries_of_result_or_reason.
Qed.

Lemma malformed_pdf_fails_alone_witness :
  let before := [pdf "a.pdf" [page_of "نو ميون الكمية: 25"]] in
  let after := [pdf "b.pdf" [page_of "بليندرا"]] in
  let file := broken_pdf "bad.pdf" in
  fitz_open file
  = Raise (Exception (LibraryError (u "FileDataError"))
                     (u "Failed to open stream"))
  /\ fst (process_pdf file initial_world) = Ok None
  /\ exists entries1 entries2,
      fst (process_files (before ++ after) [] initial_world)
      = Ok (entries1 ++ entries2)
      /\ fst (process_files (before ++ file :: after) [] initial_world)
         = Ok (entries1
                 ++ {| file_name := u "bad.pdf";
                       data := None;
                       error := Some (u "Processing failed") |} :: entries2)
      /\ List.length entries1 = List.length before
      /\ List.length entries2 = List.length after
      /\ map file_name entries1 = map name before
      /\ map file_name entries2 = map name after
      /\ Forall result_or_reason entries1
      /\ Forall result_or_reason entries2.
Proof.
  intros before after file.
  split; [reflexivity|].
  exact (malformed_pdf_fails_alone before after file
           (Exception (LibraryError (u "FileDataError"))
                      (u "Failed to open stream"))
           initial_world eq_refl).
Defined.

(** The batch of the example above, entry by entry. *)
Lemma batch_with_a_malformed_pdf :
  fst (process_files
         [ pdf "a.pdf" [page_of "نو ميون الكمية: 25"];
           broken_pdf "bad.pdf";
           pdf "b.pdf" [page_of "بليندرا"] ] [] initial_world)
  = Ok [ {| file_name := u "a.pdf";
            data := Some (results_at (fun _ => noon) 0
                            [{| item_name := u "NeoMune";
                                quantity := 25 |}]);
            error := None |};
         {| file_name := u "bad.pdf";
            data := None;
            error := Some (u "Processing failed") |};
         {| file_name := u "b.pdf";
            data := Some (results_at (fun _ => noon) 2
                            [{| item_name := u "Blendera MF";
                                quantity := 10 |}]);
            error := None |} ].
Proof. vm_compute. reflexivity. Qed.

(** C9, as the code has it.  For a batch with no document, or with no
    successful document, the script does not raise and the aggregation block
    is not run: no table is made, and the aggregated data of the session
    stay what they were, absent in a fresh session. *)
Theorem batch_without_success_is_not_aggregated
        (uploaded_files : list UploadedFile) (session_state : SessionState)
        (w : world) :
  existsb succeeds uploaded_files = false ->
  exists session',
    fst (run_script uploaded_files session_state w) = Ok session'
    /\ aggregated_data session' = aggregated_data session_state
    /\ (session_state = fresh_session -> aggregated_data session' = None).
Proof.
  intro H. rewrite run_script_ok.
  destruct uploaded_files as [|f rest].
  - exists session_state. split; [reflexivity|]. split; [reflexivity|].
    intros ->. reflexivity.
  - eexists. split; [reflexivity|].
    cbv zeta. cbn [aggregated_data].
    rewrite any_data_entries, H.
    split; [reflexivity|]. intros ->. reflexivity.
Qed.

Lemma batch_without_success_is_not_aggregated_witness :
  existsb succeeds [broken_pdf "bad.pdf"] = false
  /\ exists session',
      fst (run_script [broken_pdf "bad.pdf"] fresh_session initial_world)
      = Ok session'
      /\ aggregated_data session' = aggregated_data fresh_session
      /\ (fresh_session = fresh_session -> aggregated_data session' = None).
Proof.
  split; [reflexivity|].
  exact (batch_without_success_is_not_aggregated [broken_pdf "bad.pdf"]
           fresh_session initial_world eq_refl).
Defined.

(** C9 as stated does not hold: after a batch of no document, and after a
    batch whose only document fails, there are no tables at all, empty or
    not; and the tables of an earlier batch stay in place. *)
Lemma no_tables_for_a_batch_without_success :
  fst (run_script [] fresh_session initial_world) = Ok fresh_session
  /\ aggregated_data fresh_session = None
  /\ fst (run_script [broken_pdf "bad.pdf"] fresh_session initial_world)
     = Ok {| processed_files := [failed_entry (broken_pdf "bad.pdf")];
             aggregated_data := None |}
  /\ fst (run_script [broken_pdf "bad.pdf"]
            {| processed_files := [];
               aggregated_data := Some earlier_report |}
            initial_world)
     = Ok {| processed_files := [failed_entry (broken_pdf "bad.pdf")];
             aggregated_data := Some earlier_report |}.
Proof.
  split; [reflexivity|]. split; [reflexivity|].
  split; vm_compute; reflexivity.
Qed.

(* ------------------------------------------------------------------ *)
(** * Further properties of the code *)

(** ** The tables as functions of the line items *)

Lemma get_set (d : dict) (k k' : str) (v : Z) (default : Z) :
  get (set d k v) k' default
  = if Str.eqb k k' then v else get d k' default.
Proof.
  induction d as [|[k0 v0] d IH]; simpl.
  - reflexivity.
  - destruct (str_eqb_spec k0 k) as [->|Hne]; simpl.
    + destruct (Str.eqb k k'); reflexivity.
    + destruct (str_eqb_spec k0 k') as [->|Hne'].
      * rewrite (str_eqb_neq k k'); [reflexivity|congruence].
      * exact IH.
Qed.

Lemma sum_app (xs ys : list Z) : sum (xs ++ ys) = (sum xs + sum ys)%Z.
Proof.
  induction xs as [|x xs IH]; simpl app.
  - unfold sum at 2. simpl. lia.
  - rewrite !sum_cons, IH. lia.
Qed.

Lemma quantity_of_cons (k : str) (item : LineItem) (items : list LineItem) :
  quantity_of k (item :: items)
  = ((if Str.eqb (item_name item) k then quantity item else 0)
     + quantity_of k items)%Z.
Proof.
  unfold quantity_of. simpl filter.
  destruct (Str.eqb (item_name item) k); simpl map.
  - apply sum_cons.
  - lia.
Qed.

Lemma quantity_of_app (k : str) (items1 items2 : list LineItem) :
  quantity_of k (items1 ++ items2)
  = (quantity_of k items1 + quantity_of k items2)%Z.
Proof.
  unfold quantity_of. rewrite filter_app, map_app. apply sum_app.
Qed.

Lemma add_to_consolidated_get (items : list LineItem) :
  forall (d : dict) (k : str),
    get (add_to_consolidated items d) k 0
    = (get d k 0 + quantity_of k items)%Z.
Proof.
  induction items as [|item items IH]; intros d k; simpl.
  - unfold quantity_of, sum. simpl. lia.
  - rewrite IH, get_set, quantity_of_cons.
    destruct (str_eqb_spec (item_name item) k) as [->|Hne]; lia.
Qed.

Lemma add_to_consolidated_app (items1 items2 : list LineItem) (d : dict) :
  add_to_consolidated (items1 ++ items2) d
  = add_to_consolidated items2 (add_to_consolidated items1 d).
Proof.
  revert d. induction items1 as [|i items1 IH]; intro d; simpl.
  - reflexivity.
  - apply IH.
Qed.

Lemma add_to_distribution_rows (r : Results) (items : list LineItem) :
  forall rows,
    add_to_distribution r items rows
    = rows ++ map (distribution_row r) items.
Proof.
  induction items as [|i items IH]; intro rows; simpl.
  - symmetry. apply app_nil_r.
  - rewrite IH, <- app_assoc. reflexivity.
Qed.

Lemma aggregate_files_unfolded (processed_data : list FileData) :
  forall consolidated_items hospital_distribution,
    aggregate_files processed_data consolidated_items hospital_distribution
    = (add_to_consolidated (all_items processed_data) consolidated_items,
       hospital_distribution ++ flat_map rows_of_entry processed_data).
Proof.
  induction processed_data as [|entry rest IH]; intros c h; simpl.
  - rewrite app_nil_r. reflexivity.
  - unfold all_items. simpl flat_map. fold (all_items rest).
    unfold items_of_entry at 1, rows_of_entry at 1.
    destruct (data entry) as [d|].
    + rewrite IH, add_to_consolidated_app, add_to_distribution_rows,
        <- app_assoc.
      reflexivity.
    + rewrite IH. reflexivity.
Qed.

Lemma keys_add_to_consolidated (items : list LineItem) :
  forall d,
    keys (add_to_consolidated items d)
    = fold_left add_name (map item_name items) (keys d).
Proof.
  induction items as [|i items IH]; intro d; simpl; [reflexivity|].
  rewrite IH, keys_set. reflexivity.
Qed.

Lemma filter_filter {A} (f g : A -> bool) (l : list A) :
  filter f (filter g l) = filter (fun x => g x && f x) l.
Proof.
  induction l as [|x l IH]; simpl; [reflexivity|].
  destruct (g x); simpl; [destruct (f x)|]; rewrite ?IH; reflexivity.
Qed.

Lemma existsb_eqb_app (seen : list str) (k x : str) :
  existsb (fun k' => Str.eqb k' x) (seen ++ [k])
  = existsb (fun k' => Str.eqb k' x) seen || Str.eqb k x.
Proof. rewrite existsb_app. simpl. rewrite orb_false_r. reflexivity. Qed.

Lemma fold_add_name (names : list str) :
  forall seen,
    fold_left add_name names seen
    = seen
        ++ filter (fun x => negb (existsb (fun k' => Str.eqb k' x) seen))
             (first_occurrences names).
Proof.
  induction names as [|k names IH]; intro seen; simpl.
  - symmetry. apply app_nil_r.
  - rewrite IH. unfold add_name.
    destruct (existsb (fun k' => Str.eqb k' k) seen) eqn:E; simpl.
    + f_equal. rewrite filter_filter. apply filter_ext_in. intros x _.
      destruct (str_eqb_spec x k) as [->|Hne]; simpl.
      * rewrite E. reflexivity.
      * reflexivity.
    + rewrite <- app_assoc. simpl. f_equal. f_equal.
      rewrite filter_filter. apply filter_ext_in. intros x _.
      rewrite existsb_eqb_app.
      destruct (str_eqb_spec x k) as [->|Hne]; simpl.
      * rewrite str_eqb_refl, orb_true_r. reflexivity.
      * rewrite (str_eqb_neq k x) by congruence.
        rewrite orb_false_r. reflexivity.
Qed.

Lemma dict_by_keys (d : dict) :
  NoDup (keys d) -> d = map (fun k => (k, get d k 0%Z)) (keys d).
Proof.
  induction d as [|[k v] d IH]; simpl; [reflexivity|].
  intro H. inversion H as [|? ? Hnot Hnd]; subst.
  rewrite str_eqb_refl. f_equal.
  rewrite (IH Hnd) at 1. apply map_ext_in. intros k' Hk'.
  rewrite (str_eqb_neq k k'); [reflexivity|].
  intros ->. apply Hnot. exact Hk'.
Qed.

Lemma filter_all {A} (f : A -> bool) (l : list A) :
  (forall x, f x = true) -> filter f l = l.
Proof.
  intro H. induction l as [|x l IH]; simpl; [reflexivity|].
  rewrite H, IH. reflexivity.
Qed.

Lemma consolidated_items_of_unfolded (processed_data : list FileData) :
  consolidated_items_of processed_data
  = add_to_consolidated (all_items processed_data) [].
Proof.
  unfold consolidated_items_of. rewrite aggregate_files_unfolded.
  reflexivity.
Qed.

Lemma aggregate_unfolded (processed_data : list FileData) :
  aggregate processed_data
  = let c := consolidated_items_of processed_data in
    {| consolidated_en_items := total_rows c;
       multi_file_hospital_distribution :=
         flat_map rows_of_entry processed_data;
       hospital_dist_item_totals :=
         total_rows c
           ++ [{| total_Item := GRAND_TOTAL;
                  Total_Quantity := sum (values c) |}] |}.
Proof.
  pose proof (aggregate_files_agree processed_data [] [] eq_refl) as H.
  unfold aggregate, consolidated_items_of.
  rewrite aggregate_files_unfolded in *. simpl in *.
  rewrite H. reflexivity.
Qed.

Lemma sum_values_set (d : dict) (k : str) (q : Z) :
  sum (values (set d k (get d k 0 + q)%Z)) = (sum (values d) + q)%Z.
Proof.
  unfold values. induction d as [|[k0 v0] d IH]; simpl.
  - rewrite sum_cons. unfold sum. simpl. lia.
  - destruct (Str.eqb k0 k); simpl; rewrite !sum_cons.
    + lia.
    + rewrite IH. lia.
Qed.

Lemma sum_values_consolidated (items : list LineItem) :
  forall d,
    sum (values (add_to_consolidated items d))
    = (sum (values d) + sum (map quantity items))%Z.
Proof.
  induction items as [|i items IH]; intro d; simpl.
  - unfold sum at 3. simpl. lia.
  - rewrite IH, sum_values_set, sum_cons. lia.
Qed.

(** X1.  The consolidated table lists each distinct item name once, in the
    order in which the names first occur among the line items of the
    successful documents, each with the sum of the quantities of the line
    items of that name. *)
Theorem consolidated_table_is_the_sum_per_item
        (processed_data : list FileData) :
  consolidated_en_items (aggregate processed_data)
  = map (fun k =>
           {| total_Item := k;
              Total_Quantity := quantity_of k (all_items processed_data) |})
        (first_occurrences (map item_name (all_items processed_data))).
Proof.
  rewrite aggregate_unfolded. cbv zeta. cbn [consolidated_en_items].
  rewrite consolidated_items_of_unfolded.
  set (c := add_to_consolidated (all_items processed_data) []).
  assert (NoDup (keys c)) as Hnd
      by (apply add_to_consolidated_NoDup; constructor).
  assert (keys c
          = first_occurrences (map item_name (all_items processed_data)))
    as Hkeys.
  { unfold c. rewrite keys_add_to_consolidated, fold_add_name. simpl.
    apply filter_all. reflexivity. }
  rewrite (dict_by_keys c Hnd) at 1. rewrite Hkeys.
  unfold total_rows. rewrite map_map. apply map_ext. intro k. simpl.
  unfold c. rewrite add_to_consolidated_get. simpl. reflexivity.
Qed.

Lemma distribution_columns (processed_data : list FileData) :
  map Item (flat_map rows_of_entry processed_data)
  = map item_name (all_items processed_data)
  /\ map Quantity (flat_map rows_of_entry processed_data)
     = map quantity (all_items processed_data).
Proof.
  unfold all_items.
  induction processed_data as [|entry rest [IH1 IH2]]; simpl.
  - split; reflexivity.
  - rewrite !map_app, IH1, IH2.
    unfold rows_of_entry, items_of_entry.
    destruct (data entry) as [d|]; simpl; [|split; reflexivity].
    rewrite !map_map. simpl. split; reflexivity.
Qed.

(** X2.  The hospital distribution holds one row for every line item of
    every successful document, in the order of the documents and of their
    items, each row with the metadata of its own document; a failed document
    gives no row. *)
Theorem hospital_distribution_is_one_row_per_line_item
        (processed_data : list FileData) :
  multi_file_hospital_distribution (aggregate processed_data)
  = flat_map rows_of_entry processed_data
  /\ map Item (multi_file_hospital_distribution (aggregate processed_data))
     = map item_name (all_items processed_data)
  /\ map Quantity (multi_file_hospital_distribution (aggregate processed_data))
     = map quantity (all_items processed_data).
Proof.
  rewrite aggregate_unfolded. cbv zeta.
  cbn [multi_file_hospital_distribution].
  split; [reflexivity|]. apply distribution_columns.
Qed.

(** X3.  The quantity of the grand-total row is the sum of the quantities of
    all line items of the successful documents, which is also the sum of the
    Quantity column of the hospital distribution. *)
Theorem grand_total_is_the_sum_of_all_line_items
        (processed_data : list FileData) :
  let report := aggregate processed_data in
  grand_total_row report
  = {| total_Item := u "GRAND TOTAL";
       Total_Quantity := sum (map quantity (all_items processed_data)) |}
  /\ sum (map quantity (all_items processed_data))
     = sum (map Quantity (multi_file_hospital_distribution report)).
Proof.
  intro report. unfold report. rewrite aggregate_unfolded. cbv zeta.
  cbn [hospital_dist_item_totals multi_file_hospital_distribution].
  rewrite (proj2 (distribution_columns processed_data)).
  split; [|reflexivity]. unfold grand_total_row.
  cbn [hospital_dist_item_totals]. rewrite last_last.
  rewrite consolidated_items_of_unfolded, sum_values_consolidated.
  unfold values, sum at 1. simpl. reflexivity.
Qed.

Lemma all_items_app (pd1 pd2 : list FileData) :
  all_items (pd1 ++ pd2) = all_items pd1 ++ all_items pd2.
Proof. unfold all_items. apply flat_map_app. Qed.

Lemma consolidated_get (processed_data : list FileData) (k : str) :
  get (consolidated_items_of processed_data) k 0
  = quantity_of k (all_items processed_data).
Proof.
  rewrite consolidated_items_of_unfolded, add_to_consolidated_get.
  reflexivity.
Qed.

Lemma grand_total_value (processed_data : list FileData) :
  sum (values (consolidated_items_of processed_data))
  = sum (map quantity (all_items processed_data)).
Proof.
  rewrite consolidated_items_of_unfolded, sum_values_consolidated.
  unfold values, sum at 1. simpl. reflexivity.
Qed.

Lemma grand_total_row_value (processed_data : list FileData) :
  Total_Quantity (grand_total_row (aggregate processed_data))
  = sum (map quantity (all_items processed_data)).
Proof.
  unfold grand_total_row. rewrite aggregate_unfolded. cbv zeta.
  cbn [hospital_dist_item_totals]. rewrite last_last.
  cbn [Total_Quantity]. apply grand_total_value.
Qed.

(** X4.  Aggregating two batches one after the other adds them up: for every
    item the consolidated quantity of the joined batch is the sum of the
    quantities of the two, the grand totals add, and the hospital
    distribution is the rows of the first followed by the rows of the
    second. *)
Theorem aggregation_of_joined_batches (pd1 pd2 : list FileData) :
  (forall k,
      get (consolidated_items_of (pd1 ++ pd2)) k 0
      = (get (consolidated_items_of pd1) k 0
         + get (consolidated_items_of pd2) k 0)%Z)
  /\ Total_Quantity (grand_total_row (aggregate (pd1 ++ pd2)))
     = (Total_Quantity (grand_total_row (aggregate pd1))
        + Total_Quantity (grand_total_row (aggregate pd2)))%Z
  /\ multi_file_hospital_distribution (aggregate (pd1 ++ pd2))
     = multi_file_hospital_distribution (aggregate pd1)
         ++ multi_file_hospital_distribution (aggregate pd2).
Proof.
  split; [|split].
  - intro k. rewrite !consolidated_get, all_items_app.
    apply quantity_of_app.
  - rewrite !grand_total_row_value, all_items_app, map_app. apply sum_app.
  - rewrite !aggregate_unfolded. cbv zeta.
    cbn [multi_file_hospital_distribution]. apply flat_map_app.
Qed.

Lemma quantity_of_permutation (k : str) (pd pd' : list FileData) :
  Permutation pd pd' ->
  quantity_of k (all_items pd) = quantity_of k (all_items pd').
Proof.
  induction 1 as [|x l l' H IH|x y l|l l' l'' H1 IH1 H2 IH2].
  - reflexivity.
  - change (x :: l) with ([x] ++ l). change (x :: l') with ([x] ++ l').
    rewrite !all_items_app, !quantity_of_app, IH. reflexivity.
  - change (y :: x :: l) with ([y] ++ [x] ++ l).
    change (x :: y :: l) with ([x] ++ [y] ++ l).
    rewrite !all_items_app, !quantity_of_app. lia.
  - congruence.
Qed.

Lemma total_quantity_permutation (pd pd' : list FileData) :
  Permutation pd pd' ->
  sum (map quantity (all_items pd)) = sum (map quantity (all_items pd')).
Proof.
  induction 1 as [|x l l' H IH|x y l|l l' l'' H1 IH1 H2 IH2].
  - reflexivity.
  - change (x :: l) with ([x] ++ l). change (x :: l') with ([x] ++ l').
    rewrite !all_items_app, !map_app, !sum_app, IH. reflexivity.
  - change (y :: x :: l) with ([y] ++ [x] ++ l).
    change (x :: y :: l) with ([x] ++ [y] ++ l).
    rewrite !all_items_app, !map_app, !sum_app. lia.
  - congruence.
Qed.

(** X5.  The order of the documents in a batch does not change the numbers:
    two batches that hold the same entries in different orders give every
    item the same consolidated quantity and give the same grand total, and
    their hospital distributions hold the same rows (the order of the rows
    may differ). *)
Theorem aggregation_does_not_depend_on_document_order
        (pd pd' : list FileData) :
  Permutation pd pd' ->
  (forall k,
      get (consolidated_items_of pd) k 0
      = get (consolidated_items_of pd') k 0)
  /\ Total_Quantity (grand_total_row (aggregate pd))
     = Total_Quantity (grand_total_row (aggregate pd'))
  /\ Permutation (multi_file_hospital_distribution (aggregate pd))
                 (multi_file_hospital_distribution (aggregate pd')).
Proof.
  intro H. split; [|split].
  - intro k. rewrite !consolidated_get.
    apply quantity_of_permutation. exact H.
  - rewrite !grand_total_row_value. apply total_quantity_permutation.
    exact H.
  - rewrite !aggregate_unfolded. cbv zeta.
    cbn [multi_file_hospital_distribution].
    apply Permutation_flat_map. exact H.
Qed.

(** ** Decimal notation *)

Lemma pos_below_size (p : positive) :
  (N.pos p < 2 ^ N.of_nat (Pos.size_nat p))%N.
Proof.
  induction p as [p IH|p IH|]; cbn [Pos.size_nat];
    rewrite ?Nat2N.inj_succ, ?N.pow_succ_r'; lia.
Qed.

Lemma below_size (n : N) : (n < 2 ^ N.of_nat (N.size_nat n))%N.
Proof.
  destruct n as [|p]; [reflexivity|]. apply pos_below_size.
Qed.

Lemma div10_below (n : N) (f : nat) :
  (n < 2 ^ N.of_nat (S f))%N -> (n / 10 < 2 ^ N.of_nat f)%N.
Proof.
  rewrite Nat2N.inj_succ, N.pow_succ_r'. intro H.
  apply N.Div0.div_lt_upper_bound. lia.
Qed.

Lemma below_one (n : N) : (n < 2 ^ N.of_nat 0)%N -> (n / 10 =? 0)%N = true.
Proof. simpl. intro H. assert (n = 0%N) as -> by lia. reflexivity. Qed.

Lemma decimal_fuel_S (f : nat) (n : N) (acc : str) :
  decimal_fuel (S f) n acc
  = if (n / 10 =? 0)%N then (0x30 + n mod 10)%N :: acc
    else decimal_fuel f (n / 10) ((0x30 + n mod 10)%N :: acc).
Proof. reflexivity. Qed.

(** The fuel does not matter once it is enough. *)
Lemma decimal_fuel_enough (f1 : nat) :
  forall (f2 : nat) (n : N) (acc : str),
    (n < 2 ^ N.of_nat f1)%N -> (n < 2 ^ N.of_nat f2)%N ->
    decimal_fuel (S f1) n acc = decimal_fuel (S f2) n acc.
Proof.
  induction f1 as [|f1 IH]; intros f2 n acc H1 H2.
  - rewrite !decimal_fuel_S, (below_one n H1). reflexivity.
  - destruct f2 as [|f2].
    + rewrite !decimal_fuel_S, (below_one n H2). reflexivity.
    + rewrite (decimal_fuel_S (S f1)), (decimal_fuel_S (S f2)).
      destruct (n / 10 =? 0)%N; [reflexivity|].
      apply (IH f2); apply div10_below; assumption.
Qed.

Lemma decimal_fuel_acc (f : nat) :
  forall (n : N) (acc : str),
    (n < 2 ^ N.of_nat f)%N ->
    decimal_fuel (S f) n acc = decimal_fuel (S f) n [] ++ acc.
Proof.
  induction f as [|f IH]; intros n acc H.
  - rewrite !decimal_fuel_S, (below_one n H). reflexivity.
  - rewrite !(decimal_fuel_S (S f)).
    destruct (n / 10 =? 0)%N; [reflexivity|].
    rewrite (IH (n / 10)%N ((0x30 + n mod 10)%N :: acc))
      by (apply div10_below; assumption).
    match goal with
    | |- _ = decimal_fuel _ _ ?l ++ _ =>
        rewrite (IH (n / 10)%N l) by (apply div10_below; assumption)
    end.
    rewrite <- app_assoc. reflexivity.
Qed.

Lemma decimal_small (n : N) : (n < 10)%N -> decimal n = [(0x30 + n)%N].
Proof.
  intro H. unfold decimal. rewrite decimal_fuel_S.
  rewrite (N.div_small n 10 H), (N.mod_small n 10 H). reflexivity.
Qed.

Lemma decimal_step (n : N) :
  (10 <= n)%N -> decimal n = decimal (n / 10) ++ [(0x30 + n mod 10)%N].
Proof.
  intro H. unfold decimal.
  pose proof (below_size n) as Hn.
  destruct (N.size_nat n) as [|f] eqn:E.
  - simpl in Hn. lia.
  - rewrite (decimal_fuel_S (S f)).
    assert ((n / 10 =? 0)%N = false) as ->.
    { apply N.eqb_neq. intro H0. apply N.div_small_iff in H0; lia. }
    rewrite decimal_fuel_acc by (apply div10_below; assumption).
    f_equal. apply decimal_fuel_enough.
    + apply div10_below. assumption.
    + apply below_size.
Qed.

(** Induction over the decimal digits of a number. *)
Lemma decimal_ind (P : N -> Prop) :
  (forall n, (n < 10)%N -> P n) ->
  (forall n, (10 <= n)%N -> P (n / 10)%N -> P n) ->
  forall n, P n.
Proof.
  intros Hsmall Hstep n.
  induction n as [n IH] using (well_founded_induction N.lt_wf_0).
  destruct (N.lt_ge_cases n 10) as [H|H].
  - apply Hsmall. exact H.
  - apply Hstep; [exact H|]. apply IH.
    apply N.div_lt; lia.
Qed.

Lemma ascii_digit_decimal (c : char) :
  is_ascii_digit c = true -> isdecimal c = true.
Proof.
  unfold is_ascii_digit. intro H. apply andb_true_iff in H as [H1 H2].
  apply N.leb_le in H1, H2.
  unfold isdecimal, decimal_zeros. cbn [existsb]. unfold in_block at 1.
  decide_comparisons. reflexivity.
Qed.

Lemma ascii_digit_value (c : char) :
  is_ascii_digit c = true -> digit_value c = (c - 0x30)%N.
Proof.
  unfold is_ascii_digit. intro H. apply andb_true_iff in H as [H1 H2].
  apply N.leb_le in H1, H2.
  unfold digit_value, decimal_zeros. cbn [find]. unfold in_block at 1.
  decide_comparisons. reflexivity.
Qed.

Lemma int_of_digits_snoc (digits : str) (c : char) :
  int_of_digits (digits ++ [c])
  = (10 * int_of_digits digits + digit_value c)%N.
Proof. unfold int_of_digits. rewrite fold_left_app. reflexivity. Qed.

Lemma digit_char (r : N) : (r < 10)%N -> is_ascii_digit (0x30 + r) = true.
Proof.
  intro H. unfold is_ascii_digit. decide_comparisons. reflexivity.
Qed.

Lemma digit_char_value (r : N) : (r < 10)%N -> digit_value (0x30 + r) = r.
Proof.
  intro H. rewrite (ascii_digit_value _ (digit_char r H)). lia.
Qed.

Lemma decimal_digits (n : N) :
  forallb is_ascii_digit (decimal n) = true /\ decimal n <> [].
Proof.
  pattern n. apply decimal_ind; clear n.
  - intros n H. rewrite (decimal_small n H). split; [|discriminate].
    cbn [forallb]. rewrite (digit_char n H). reflexivity.
  - intros n H [IH1 IH2]. rewrite (decimal_step n H). split.
    + rewrite forallb_app, IH1. cbn [forallb].
      rewrite digit_char; [reflexivity|].
      apply N.mod_upper_bound. discriminate.
    + intro E. apply app_eq_nil in E as [_ E]. discriminate.
Qed.

(** Reading back what [decimal] writes. *)
Lemma int_of_decimal_digits (n : N) : int_of_digits (decimal n) = n.
Proof.
  pattern n. apply decimal_ind; clear n.
  - intros n H. rewrite (decimal_small n H).
    change (int_of_digits [(0x30 + n)%N])
      with (10 * 0 + digit_value (0x30 + n))%N.
    rewrite (digit_char_value n H). lia.
  - intros n H IH. rewrite (decimal_step n H), int_of_digits_snoc, IH.
    rewrite digit_char_value by (apply N.mod_upper_bound; discriminate).
    pose proof (N.div_mod n 10). lia.
Qed.

Lemma forallb_ascii_decimal (digits : str) :
  forallb is_ascii_digit digits = true -> forallb isdecimal digits = true.
Proof.
  induction digits as [|c digits IH]; simpl; [reflexivity|].
  intro H. apply andb_true_iff in H as [H1 H2].
  rewrite (ascii_digit_decimal c H1), (IH H2). reflexivity.
Qed.

(** ** Pages and documents *)

Lemma item_of_page_length (text : str) (items : list LineItem) :
  item_of_page text = Ok items -> (List.length items <= 1)%nat.
Proof.
  unfold item_of_page.
  destruct (identify_product text) as [product|];
    [|intro H; inversion H; simpl; lia].
  destruct (truthy product); [|intro H; inversion H; simpl; lia].
  destruct (extract_quantity text); [|discriminate].
  intro H. inversion H. simpl. lia.
Qed.

Lemma pages_loop_length (doc : list Page) :
  forall summary_items items,
    pages_loop doc summary_items = Ok items ->
    (List.length items <= List.length summary_items + List.length doc)%nat.
Proof.
  induction doc as [|page rest IH]; intros acc items H.
  - simpl in H. inversion H. subst. simpl. lia.
  - rewrite pages_loop_step in H.
    destruct (item_of_page (extract_text page)) as [new|e] eqn:E;
      [|discriminate].
    apply IH in H. apply item_of_page_length in E.
    rewrite length_app in H. simpl. lia.
Qed.

(** X6.  A document yields at most one line item per page: the result of a
    successful document never holds more line items than the document has
    pages, so a page that names several products still counts once. *)
Theorem a_document_has_at_most_one_item_per_page
        (file : UploadedFile) (doc : list Page) (w : world) (r : Results)
        (w' : world) :
  fitz_open file = Ok doc ->
  process_pdf file w = (Ok (Some r), w') ->
  (List.length (summary_items r) <= List.length doc)%nat.
Proof.
  intros Hopen Hrun. rewrite process_pdf_run, Hopen in Hrun.
  destruct (pages_loop doc []) as [items|e] eqn:E; [|discriminate].
  inversion Hrun. subst. simpl.
  apply (pages_loop_length doc [] items E).
Qed.

Lemma a_document_has_at_most_one_item_per_page_witness :
  let file :=
    pdf "po.pdf"
        [page_of "نو ميون الكمية: 25 بليندرا الكمية: 7"] in
  fitz_open file = Ok [page_of "نو ميون الكمية: 25 بليندرا الكمية: 7"]
  /\ process_pdf file initial_world
     = (Ok (Some (results_at (fun _ => noon) 0
                    [{| item_name := u "NeoMune"; quantity := 25 |}])),
        advance initial_world 2 [])
  /\ (List.length
        (summary_items
           (results_at (fun _ => noon) 0
              [{| item_name := u "NeoMune"; quantity := 25 |}]))
      <= List.length [page_of "نو ميون الكمية: 25 بليندرا الكمية: 7"])%nat.
Proof.
  intro file.
  assert (process_pdf file initial_world
          = (Ok (Some (results_at (fun _ => noon) 0
                         [{| item_name := u "NeoMune"; quantity := 25 |}])),
             advance initial_world 2 [])) as H
      by (vm_compute; reflexivity).
  split; [reflexivity|]. split; [exact H|].
  exact (a_document_has_at_most_one_item_per_page file _ initial_world _ _
           eq_refl H).
Defined.

Lemma pages_loop_raises (doc : list Page) (page : Page) (e : exception) :
  In page doc ->
  item_of_page (extract_text page) = Raise e ->
  forall summary_items, exists e', pages_loop doc summary_items = Raise e'.
Proof.
  intros Hin Hpage.
  induction doc as [|p rest IH]; [destruct Hin|].
  intro acc. rewrite pages_loop_step.
  destruct Hin as [->|Hin].
  - rewrite Hpage. exists e. reflexivity.
  - destruct (item_of_page (extract_text p)) as [new|e'].
    + apply (IH Hin).
    + exists e'. reflexivity.
Qed.

(** X7.  One page is enough to lose a document: when a page names a product
    and reading its quantity raises an exception (as the English label
    does), [process_pdf] returns [None] for the whole document, whatever
    its other pages hold, and the batch loop records the file as failed. *)
Theorem a_page_whose_quantity_raises_fails_the_document
        (file : UploadedFile) (doc : list Page) (page : Page)
        (product : str) (e : exception) (w : world) :
  fitz_open file = Ok doc ->
  In page doc ->
  identify_product (extract_text page) = Some product ->
  extract_quantity (extract_text page) = Raise e ->
  fst (process_pdf file w) = Ok None
  /\ fst (process_files [file] [] w)
     = Ok [{| file_name := name file;
              data := None;
              error := Some (u "Processing failed") |}].
Proof.
  intros Hopen Hin Hp Hq.
  assert (item_of_page (extract_text page) = Raise e) as Hpage.
  { unfold item_of_page. rewrite Hp, (identify_product_truthy _ _ Hp), Hq.
    reflexivity. }
  destruct (pages_loop_raises doc page e Hin Hpage []) as [e' He'].
  split.
  - rewrite process_pdf_run, Hopen, He'. reflexivity.
  - rewrite process_files_ok. cbn [entries_of]. unfold entry_of.
    rewrite Hopen, He'. reflexivity.
Qed.

Lemma a_page_whose_quantity_raises_fails_the_document_witness :
  let doc := [page_of "نو ميون الكمية: 25"; page_of "بليندرا Quantity: 5"] in
  let file := pdf "po.pdf" doc in
  fitz_open file = Ok doc
  /\ In (page_of "بليندرا Quantity: 5") doc
  /\ identify_product (extract_text (page_of "بليندرا Quantity: 5"))
     = Some (u "Blendera MF")
  /\ extract_quantity (extract_text (page_of "بليندرا Quantity: 5"))
     = Raise (Exception TypeError int_none_message)
  /\ fst (process_pdf file initial_world) = Ok None
  /\ fst (process_files [file] [] initial_world)
     = Ok [{| file_name := u "po.pdf";
              data := None;
              error := Some (u "Processing failed") |}].
Proof.
  intros doc file.
  assert (In (page_of "بليندرا Quantity: 5") doc) as Hin
      by (right; left; reflexivity).
  assert (identify_product (extract_text (page_of "بليندرا Quantity: 5"))
          = Some (u "Blendera MF")) as Hp by (vm_compute; reflexivity).
  assert (extract_quantity (extract_text (page_of "بليندرا Quantity: 5"))
          = Raise (Exception TypeError int_none_message)) as Hq
      by (vm_compute; reflexivity).
  split; [reflexivity|]. split; [exact Hin|]. split; [exact Hp|].
  split; [exact Hq|].
  exact (a_page_whose_quantity_raises_fails_the_document file doc _ _ _
           initial_world eq_refl Hin Hp Hq).
Defined.

(** ** Quantity fields *)

(** X8.  The labels of a quantity are matched with their case, unlike the
    product patterns: a text that holds neither the first letter of the
    Arabic label nor a capital Q has no quantity field, [extract_quantity]
    returns 0 on it, and a page of that text that names a product is
    recorded with the quantity 10. *)
Theorem text_without_a_label_start_has_no_quantity (text : str) :
  no_label_start text ->
  re_search quantity_pattern text = None
  /\ extract_quantity text = Ok 0%Z
  /\ (forall product,
         identify_product text = Some product ->
         pages_loop [{| get_text := Ok text |}] []
         = Ok [{| item_name := product; quantity := 10 |}]).
Proof.
  intro H.
  assert (re_search quantity_pattern text = None) as Hnone.
  { unfold re_search. rewrite quantity_pattern_compiled.
    apply no_field_without_label. exact H. }
  assert (extract_quantity text = Ok 0%Z) as Hq
      by (apply extract_quantity_absent; exact Hnone).
  split; [exact Hnone|]. split; [exact Hq|].
  intros product Hp. apply page_recorded_with_default; assumption.
Qed.

Lemma text_without_a_label_start_has_no_quantity_witness :
  no_label_start (u "نو ميون quantity: 5")
  /\ re_search quantity_pattern (u "نو ميون quantity: 5") = None
  /\ extract_quantity (u "نو ميون quantity: 5") = Ok 0%Z
  /\ (forall product,
         identify_product (u "نو ميون quantity: 5") = Some product ->
         pages_loop [{| get_text := Ok (u "نو ميون quantity: 5") |}] []
         = Ok [{| item_name := product; quantity := 10 |}]).
Proof.
  assert (no_label_start (u "نو ميون quantity: 5")) as H
      by (apply no_label_startb_sound; vm_compute; reflexivity).
  split; [exact H|].
  exact (text_without_a_label_start_has_no_quantity _ H).
Defined.

Lemma arabic_indic_decimal (c : char) :
  is_ascii_digit c = true -> isdecimal (arabic_indic c) = true.
Proof.
  unfold is_ascii_digit, arabic_indic. intro H.
  apply andb_true_iff in H as [H1 H2]. apply N.leb_le in H1, H2.
  unfold isdecimal, decimal_zeros. cbn [existsb].
  unfold in_block at 1 2. decide_comparisons. reflexivity.
Qed.

Lemma arabic_indic_value (c : char) :
  is_ascii_digit c = true -> digit_value (arabic_indic c) = digit_value c.
Proof.
  intro H. rewrite (ascii_digit_value c H).
  unfold is_ascii_digit, arabic_indic in *.
  apply andb_true_iff in H as [H1 H2]. apply N.leb_le in H1, H2.
  unfold digit_value, decimal_zeros. cbn [find].
  unfold in_block at 1 2. decide_comparisons.
  cbv beta iota delta [andb]. lia.
Qed.

Lemma arabic_indic_digits (digits : str) :
  forallb is_ascii_digit digits = true ->
  forallb isdecimal (map arabic_indic digits) = true
  /\ forall a,
      fold_left (fun acc c => (10 * acc + digit_value c)%N)
                (map arabic_indic digits) a
      = fold_left (fun acc c => (10 * acc + digit_value c)%N) digits a.
Proof.
  induction digits as [|c digits IH]; cbn [forallb map fold_left].
  - intros _. split; reflexivity.
  - intro H. apply andb_true_iff in H as [Hc H].
    destruct (IH H) as [IH1 IH2]. split.
    + rewrite (arabic_indic_decimal c Hc), IH1. reflexivity.
    + intro a. rewrite (arabic_indic_value c Hc). apply IH2.
Qed.

(** X9.  A quantity written in Arabic-Indic digits is read as the same
    number as the quantity written in the corresponding ASCII digits. *)
Theorem arabic_indic_digits_are_read_like_ascii_digits
        (pre sp1 colon sp2 digits post : str) :
  no_label_start pre ->
  forallb isspace sp1 = true -> is_separator colon ->
  forallb isspace sp2 = true ->
  forallb is_ascii_digit digits = true -> digits <> [] ->
  no_digit_ahead post ->
  (List.length digits <= int_max_str_digits)%nat ->
  extract_quantity
    (pre ++ quantity_field (u "الكمية") sp1 colon sp2
                           (map arabic_indic digits) ++ post)
  = Ok (Z.of_N (int_of_digits digits))
  /\ extract_quantity
       (pre ++ quantity_field (u "الكمية") sp1 colon sp2 digits ++ post)
     = Ok (Z.of_N (int_of_digits digits)).
Proof.
  intros Hpre Hsp1 Hcolon Hsp2 Hd Hne Hpost Hlen.
  destruct (arabic_indic_digits digits Hd) as [Hdec Hval].
  assert ((int_max_str_digits <? List.length digits)%nat = false) as Hlim
      by (apply Nat.ltb_ge; exact Hlen).
  split.
  - rewrite extract_quantity_arabic; try assumption.
    + rewrite length_map, Hlim. unfold int_of_digits. rewrite Hval.
      reflexivity.
    + repeat split; try assumption.
      intro E. apply map_eq_nil in E. contradiction.
  - rewrite extract_quantity_arabic; try assumption.
    + rewrite Hlim. reflexivity.
    + repeat split; try assumption.
      apply forallb_ascii_decimal. exact Hd.
Qed.

Lemma arabic_indic_digits_are_read_like_ascii_digits_witness :
  extract_quantity (u "نو ميون الكمية: ٢٥") = Ok 25%Z
  /\ extract_quantity (u "نو ميون الكمية: 25") = Ok 25%Z.
Proof.
  apply (arabic_indic_digits_are_read_like_ascii_digits
           (u "نو ميون ") [] [0x3A] [0x20] (u "25") []).
  - apply no_label_startb_sound. vm_compute. reflexivity.
  - reflexivity.
  - right. left. reflexivity.
  - reflexivity.
  - reflexivity.
  - discriminate.
  - exact I.
  - unfold int_max_str_digits. simpl. lia.
Defined.

(** X10.  Writing and reading a quantity are inverse: for every natural
    number, a text whose first quantity field is the Arabic label, a colon,
    a space and the decimal notation of the number gives that number back
    (as long as the notation is within the interpreter's limit on
    digits). *)
Theorem a_written_quantity_is_read_back (pre post : str) (n : N) :
  no_label_start pre ->
  no_digit_ahead post ->
  (List.length (decimal n) <= int_max_str_digits)%nat ->
  extract_quantity (pre ++ (u "الكمية: " ++ decimal n) ++ post)
  = Ok (Z.of_N n).
Proof.
  intros Hpre Hpost Hlen.
  change (u "الكمية: " ++ decimal n)
    with (quantity_field (u "الكمية") [] [0x3A] [0x20] (decimal n)).
  destruct (decimal_digits n) as [Hd Hne].
  rewrite extract_quantity_arabic; try assumption.
  - replace (int_max_str_digits <? List.length (decimal n))%nat with false
      by (symmetry; apply Nat.ltb_ge; exact Hlen).
    rewrite int_of_decimal_digits. reflexivity.
  - apply well_formed_colon_space; [|exact Hne].
    apply forallb_ascii_decimal. exact Hd.
Qed.

Lemma a_written_quantity_is_read_back_witness :
  extract_quantity
    (u "نو ميون " ++ (u "الكمية: " ++ decimal 1200) ++ u " علبة")
  = Ok 1200%Z.
Proof.
  apply (a_written_quantity_is_read_back (u "نو ميون ") (u " علبة") 1200).
  - apply no_label_startb_sound. vm_compute. reflexivity.
  - vm_compute. reflexivity.
  - vm_compute. lia.
Defined.

(** ** The batch loop and the session *)

Lemma entry_of_readings (clock : nat -> datetime) (n : nat)
      (file : UploadedFile) :
  snd (entry_of clock n file) = (readings_of file + n)%nat.
Proof.
  unfold entry_of, readings_of.
  destruct (fitz_open file) as [doc|e]; [|reflexivity].
  destruct (pages_loop doc []); reflexivity.
Qed.

Lemma process_one_effects (file : UploadedFile)
      (processed_data : list FileData) (w : world) :
  process_one file processed_data w
  = (Ok (processed_data ++ [fst (entry_of (wall w) (now_calls w) file)]),
     advance w (readings_of file + now_calls w) (events_of file)).
Proof.
  unfold process_one, try_except, bind, st_write, st_success, st_error, show.
  rewrite process_pdf_run.
  unfold entry_of, readings_of, events_of, items_of, ret, advance. simpl.
  destruct (fitz_open file) as [doc|e]; simpl.
  - destruct (pages_loop doc []) as [items|e]; simpl;
      rewrite <- ?app_assoc; reflexivity.
  - rewrite <- !app_assoc. reflexivity.
Qed.

Lemma process_files_effects (uploaded_files : list UploadedFile) :
  forall (processed_data : list FileData) (w : world),
    process_files uploaded_files processed_data w
    = (Ok (processed_data
             ++ fst (entries_of (wall w) (now_calls w) uploaded_files)),
       advance w
         (list_sum (map readings_of uploaded_files) + now_calls w)
         (flat_map events_of uploaded_files)).
Proof.
  induction uploaded_files as [|f rest IH]; intros pd w.
  - simpl. unfold ret, advance. rewrite !app_nil_r. destruct w; reflexivity.
  - cbn [process_files]. unfold bind. rewrite process_one_effects, IH.
    rewrite advance_advance.
    change (wall (advance w (readings_of f + now_calls w) (events_of f)))
      with (wall w).
    change (now_calls
              (advance w (readings_of f + now_calls w) (events_of f)))
      with (readings_of f + now_calls w)%nat.
    cbn [entries_of map list_sum flat_map].
    pose proof (entry_of_readings (wall w) (now_calls w) f) as Hn.
    destruct (entry_of (wall w) (now_calls w) f) as [entry n1].
    simpl in Hn. subst n1.
    destruct (entries_of (wall w) (readings_of f + now_calls w) rest)
      as [entries n2].
    cbn [fst]. rewrite <- app_assoc.
    replace (list_sum (map readings_of rest)
             + (readings_of f + now_calls w))%nat
      with (readings_of f + list_sum (map readings_of rest)
            + now_calls w)%nat by lia.
    reflexivity.
Qed.


(** X13.  A batch with at least one successful document replaces the session
    entirely: the processed files and the three tables after the run are the
    same whatever the session held before. *)
Theorem a_successful_batch_replaces_the_session
        (uploaded_files : list UploadedFile) (s1 s2 : SessionState)
        (w : world) :
  existsb succeeds uploaded_files = true ->
  run_script uploaded_files s1 w = run_script uploaded_files s2 w.
Proof.
  intro H. destruct uploaded_files as [|f rest]; [discriminate|].
  unfold run_script, bind. rewrite process_files_effects.
  cbn [app]. rewrite any_data_entries, H. reflexivity.
Qed.

Lemma a_successful_batch_replaces_the_session_witness :
  existsb succeeds [pdf "a.pdf" [page_of "نو ميون الكمية: 25"]] = true
  /\ run_script [pdf "a.pdf" [page_of "نو ميون الكمية: 25"]]
       fresh_session initial_world
     = run_script [pdf "a.pdf" [page_of "نو ميون الكمية: 25"]]
         {| processed_files := [failed_entry (broken_pdf "bad.pdf")];
            aggregated_data := Some earlier_report |}
         initial_world.
Proof.
  assert (existsb succeeds [pdf "a.pdf" [page_of "نو ميون الكمية: 25"]]
          = true) as H by (vm_compute; reflexivity).
  split; [exact H|].
  exact (a_successful_batch_replaces_the_session _ _ _ initial_world H).
Defined.

(** ** The metadata of a result *)

Lemma decimal_length (k : nat) :
  forall n,
    (10 ^ N.of_nat k <= n < 10 ^ N.of_nat (S k))%N ->
    List.length (decimal n) = S k.
Proof.
  induction k as [|k IH]; intros n [Hlo Hhi].
  - rewrite decimal_small; [reflexivity|]. simpl in Hhi. lia.
  - rewrite Nat2N.inj_succ, N.pow_succ_r' in Hlo.
    rewrite (Nat2N.inj_succ (S k)), N.pow_succ_r' in Hhi.
    assert (1 <= 10 ^ N.of_nat k)%N as Hpos.
    { pose proof (N.pow_nonzero 10 (N.of_nat k)). lia. }
    rewrite decimal_step by lia.
    rewrite length_app, (IH (n / 10)%N).
    + simpl. lia.
    + split.
      * apply N.div_le_lower_bound; lia.
      * apply N.Div0.div_lt_upper_bound. lia.
Qed.

Lemma pad2_shape (n : N) :
  (n < 100)%N ->
  List.length (pad2 n) = 2%nat /\ forallb is_ascii_digit (pad2 n) = true.
Proof.
  intro H. unfold pad2. destruct (N.ltb_spec n 10) as [Hs|Hs].
  - rewrite (decimal_small n Hs). split; [reflexivity|].
    cbn [forallb]. rewrite (digit_char n Hs). reflexivity.
  - split; [|apply decimal_digits].
    apply (decimal_length 1). simpl. lia.
Qed.

Lemma strftime_HMS_shape (t : datetime) :
  usual_time t ->
  List.length (strftime_HMS t) = 6%nat
  /\ forallb is_ascii_digit (strftime_HMS t) = true.
Proof.
  intros [Hh [Hm [Hs _]]]. unfold strftime_HMS.
  destruct (pad2_shape (hour t)) as [L1 D1]; [lia|].
  destruct (pad2_shape (minute t)) as [L2 D2]; [lia|].
  destruct (pad2_shape (second t)) as [L3 D3]; [lia|].
  rewrite !length_app, !forallb_app, L1, L2, L3, D1, D2, D3.
  split; reflexivity.
Qed.

Lemma strftime_Ymd_shape (t : datetime) :
  usual_time t -> List.length (strftime_Ymd t) = 10%nat.
Proof.
  intros [_ [_ [_ [Hm [Hd Hy]]]]]. unfold strftime_Ymd.
  destruct (pad2_shape (month t)) as [L1 _]; [lia|].
  destruct (pad2_shape (day t)) as [L2 _]; [lia|].
  rewrite !length_app, L1, L2, (decimal_length 3); [reflexivity|].
  simpl. lia.
Qed.

Lemma entries_of_results (clock : nat -> datetime)
      (files : list UploadedFile) :
  forall n,
    Forall (fun entry =>
              match data entry with
              | Some d => exists i items, d = results_at clock i items
              | None => True
              end)
           (fst (entries_of clock n files)).
Proof.
  induction files as [|f files IH]; intro n; simpl; [constructor|].
  destruct (entry_of clock n f) as [entry n1] eqn:E.
  specialize (IH n1). destruct (entries_of clock n1 files) as [es n2].
  simpl in *. constructor; [|assumption].
  unfold entry_of in E.
  destruct (fitz_open f) as [doc|e];
    [destruct (pages_loop doc []) as [items|e]|];
    inversion E; simpl; eauto.
Qed.

(** X12.  Every row of the hospital distribution carries the placeholder
    metadata of the demo: the hospital "Demo Hospital", the request number
    "DEMO-REQ", a PO number made of "DEMO-" and the six digits of the time
    of day at which its document was opened, and a date of ten characters;
    the marker "[MISSING]" never appears in any of these fields. *)
Theorem distribution_rows_carry_the_demo_metadata
        (uploaded_files : list UploadedFile) (w : world)
        (processed_data : list FileData) (row : DistributionRow) :
  (forall i, usual_time (wall w i)) ->
  fst (process_files uploaded_files [] w) = Ok processed_data ->
  In row (multi_file_hospital_distribution (aggregate processed_data)) ->
  Hospital row = u "Demo Hospital"
  /\ Request_No row = u "DEMO-REQ"
  /\ (exists hms,
         PO_Number row = u "DEMO-" ++ hms
         /\ List.length hms = 6%nat
         /\ forallb is_ascii_digit hms = true)
  /\ List.length (Date row) = 10%nat
  /\ ~ In (u "[MISSING]")
          [PO_Number row; Date row; Hospital row; Request_No row].
Proof.
  intros Hclock Hrun Hin.
  rewrite process_files_ok in Hrun. inversion Hrun as [E]. clear Hrun.
  rewrite aggregate_unfolded in Hin. cbv zeta in Hin.
  cbn [multi_file_hospital_distribution] in Hin.
  apply in_flat_map in Hin as [entry [Hentry Hrow]].
  pose proof (entries_of_results (wall w) uploaded_files (now_calls w))
    as Hres.
  rewrite E in Hres. rewrite Forall_forall in Hres.
  specialize (Hres entry Hentry).
  unfold rows_of_entry in Hrow.
  destruct (data entry) as [d|]; [|destruct Hrow].
  destruct Hres as [i [items ->]].
  apply in_map_iff in Hrow as [item [<- _]].
  destruct (strftime_HMS_shape (wall w i) (Hclock i)) as [L6 D6].
  pose proof (strftime_Ymd_shape (wall w (S i)) (Hclock (S i))) as L10.
  unfold distribution_row, results_at.
  cbn [PO_Number Date Hospital Request_No po_number date hospital_data
       hospital_name request_no].
  split; [reflexivity|]. split; [reflexivity|].
  split; [exists (strftime_HMS (wall w i)); repeat split; assumption|].
  split; [exact L10|].
  intros [H|[H|[H|[H|[]]]]].
  - apply (f_equal (@List.length char)) in H.
    rewrite length_app, L6 in H. discriminate H.
  - apply (f_equal (@List.length char)) in H.
    rewrite L10 in H. discriminate H.
  - discriminate H.
  - discriminate H.
Qed.

Lemma distribution_rows_carry_the_demo_metadata_witness :
  let files := [pdf "a.pdf" [page_of "نو ميون الكمية: 25"]] in
  let processed_data := fst (entries_of (fun _ => noon) 0 files) in
  let row :=
    {| PO_Number := u "DEMO-120000";
       Date := u "2025-06-03";
       Hospital := u "Demo Hospital";
       Item := u "NeoMune";
       Quantity := 25;
       Request_No := u "DEMO-REQ" |} in
  (forall i, usual_time (wall initial_world i))
  /\ fst (process_files files [] initial_world) = Ok processed_data
  /\ In row (multi_file_hospital_distribution (aggregate processed_data))
  /\ Hospital row = u "Demo Hospital"
  /\ Request_No row = u "DEMO-REQ"
  /\ (exists hms,
         PO_Number row = u "DEMO-" ++ hms
         /\ List.length hms = 6%nat
         /\ forallb is_ascii_digit hms = true)
  /\ List.length (Date row) = 10%nat
  /\ ~ In (u "[MISSING]")
          [PO_Number row; Date row; Hospital row; Request_No row].
Proof.
  intros files processed_data row.
  assert (forall i, usual_time (wall initial_world i)) as Hclock.
  { intro i. unfold usual_time, initial_world, noon. simpl. lia. }
  assert (fst (process_files files [] initial_world) = Ok processed_data)
    as Hrun by (vm_compute; reflexivity).
  assert (In row (multi_file_hospital_distribution
                    (aggregate processed_data))) as Hin
      by (vm_compute; left; reflexivity).
  split; [exact Hclock|]. split; [exact Hrun|]. split; [exact Hin|].
  exact (distribution_rows_carry_the_demo_metadata files initial_world
           processed_data row Hclock Hrun Hin).
Defined.

(** ** The results display *)

Lemma group3_keeps_the_digits (n : nat) :
  forall l,
    (List.length l <= n)%nat ->
    filter not_comma (group3 l) = filter not_comma l.
Proof.
  induction n as [|n IH]; intros l H.
  - destruct l; [reflexivity|simpl in H; lia].
  - destruct l as [|a [|b [|c [|d r]]]]; try reflexivity.
    change (group3 (a :: b :: c :: d :: r))
      with (a :: b :: c :: 0x2C%N :: group3 (d :: r)).
    cbn [filter]. change (not_comma 0x2C) with false. cbv iota.
    rewrite (IH (d :: r)); [reflexivity|]. simpl in *. lia.
Qed.

Lemma digits_have_no_comma (digits : str) :
  forallb is_ascii_digit digits = true -> filter not_comma digits = digits.
Proof.
  induction digits as [|c digits IH]; cbn [forallb filter]; [reflexivity|].
  intro H. apply andb_true_iff in H as [Hc H]. rewrite (IH H).
  replace (not_comma c) with true; [reflexivity|].
  unfold is_ascii_digit in Hc. apply andb_true_iff in Hc as [H1 H2].
  apply N.leb_le in H1, H2. unfold not_comma.
  decide_comparisons. reflexivity.
Qed.

(** X17.  The number of the metric "Total Items" is written with a comma
    before every group of three digits; taking the commas out leaves the
    plain decimal notation of the number (after a minus sign when it is
    negative), so no digit is lost or added by the grouping. *)
Theorem thousands_separators_keep_the_digits (z : Z) :
  filter not_comma (format_thousands z)
  = (if (z <? 0)%Z then u "-" else []) ++ decimal (Z.abs_N z).
Proof.
  unfold format_thousands. rewrite filter_app, filter_rev.
  rewrite (group3_keeps_the_digits _ _ (le_n _)).
  rewrite <- filter_rev, rev_involutive.
  rewrite (digits_have_no_comma _ (proj1 (decimal_digits _))).
  destruct (z <? 0)%Z; reflexivity.
Qed.

(** X14.  The metrics agree with the third table: "Total Items" shows the
    quantity of the grand-total row and "Unique Products" the number of the
    other rows of that table, for any batch. *)
Theorem metrics_agree_with_the_item_totals
        (processed_data files : list FileData) :
  let report := aggregate processed_data in
  let session :=
    {| processed_files := files; aggregated_data := Some report |} in
  In (Metric (u "Total Items")
             (format_thousands (Total_Quantity (grand_total_row report))))
     (results_display session)
  /\ In (Metric (u "Unique Products")
                (decimal
                   (N.of_nat
                      (List.length
                         (removelast (hospital_dist_item_totals report))))))
        (results_display session).
Proof.
  intros report session.
  unfold grand_total_row, report. rewrite item_totals_shape.
  rewrite last_last, removelast_last.
  unfold session, results_display. cbn [aggregated_data processed_files].
  fold report. unfold quantities. split.
  - right. right. right. left. reflexivity.
  - right. right. left. reflexivity.
Qed.

Lemma is_empty_length {A B} (l : list A) (l' : list B) :
  List.length l = List.length l' -> is_empty l = is_empty l'.
Proof. destruct l, l'; simpl; intro H; try discriminate; reflexivity. Qed.

Lemma first_occurrences_empty (names : list str) :
  is_empty (first_occurrences names) = is_empty names.
Proof. destruct names; reflexivity. Qed.

Lemma consolidated_rows_empty (processed_data : list FileData) :
  is_empty (consolidated_en_items (aggregate processed_data))
  = is_empty (all_items processed_data).
Proof.
  rewrite aggregate_unfolded. cbv zeta. cbn [consolidated_en_items].
  rewrite consolidated_items_of_unfolded.
  rewrite (is_empty_length (total_rows _)
             (keys (add_to_consolidated (all_items processed_data) [])))
    by (unfold total_rows, keys; rewrite !length_map; reflexivity).
  rewrite keys_add_to_consolidated, fold_add_name. cbn [keys map app].
  rewrite filter_all by reflexivity.
  rewrite first_occurrences_empty.
  apply is_empty_length. apply length_map.
Qed.

Lemma distribution_rows_empty (processed_data : list FileData) :
  is_empty (multi_file_hospital_distribution (aggregate processed_data))
  = is_empty (all_items processed_data).
Proof.
  rewrite aggregate_unfolded. cbv zeta.
  cbn [multi_file_hospital_distribution].
  apply is_empty_length.
  rewrite <- (length_map Item), <- (length_map item_name).
  rewrite (proj1 (distribution_columns processed_data)). reflexivity.
Qed.

Lemma good_rows_are_not_the_grand_total (rows : list TotalRow) :
  Forall good_total_row rows ->
  without_grand_total rows = rows
  /\ styled rows = map (fun row => (row, false)) rows.
Proof.
  induction 1 as [|row rows [Hname _] Hrows [IH1 IH2]].
  - split; reflexivity.
  - assert (Str.eqb (total_Item row) GRAND_TOTAL = false) as E.
    { apply str_eqb_neq. intro E. apply grand_total_is_no_product.
      rewrite <- E. exact Hname. }
    unfold without_grand_total, styled in *. cbn [filter map].
    rewrite E, IH1, IH2. split; reflexivity.
Qed.

(** X15.  What the results display shows for the tables of a batch.  The pie
    chart, the bar chart and the first table show the same rows, the
    consolidated items; the charts and the first two tables appear exactly
    when the batch has a line item, and a warning takes the place of each
    table otherwise; the third table is always shown, never its warning,
    and its only highlighted row is the grand total, the last one. *)
Theorem results_display_of_a_batch
        (uploaded_files : list UploadedFile) (w : world)
        (processed_data : list FileData) :
  fst (process_files uploaded_files [] w) = Ok processed_data ->
  let report := aggregate processed_data in
  let rows := consolidated_en_items report in
  let no_item := is_empty (all_items processed_data) in
  results_display
    {| processed_files := processed_data; aggregated_data := Some report |}
  = [ Subheader (u "📊 Processing Summary");
      Metric (u "Files Processed")
             (decimal (N.of_nat (success_count processed_data)) ++ u "/"
                ++ decimal (N.of_nat (List.length processed_data)));
      Metric (u "Unique Products") (decimal (N.of_nat (List.length rows)));
      Metric (u "Total Items")
             (format_thousands (sum (map Total_Quantity rows)));
      Subheader (u "📈 Data Visualization") ]
    ++ (if no_item then [] else [PieChart rows; BarChart rows])
    ++ [ Subheader (u "1. Consolidated EN Items (All Files)");
         if no_item
         then Warning (u "No consolidated items data available")
         else TotalsTable rows;
         Subheader (u "2. Hospital Distribution (Multi-File)");
         if no_item
         then Warning (u "No hospital distribution data available")
         else DistributionTable (multi_file_hospital_distribution report);
         Subheader (u "3. إجمالي الكمية لكل صنف (توزيع المستشفيات)");
         StyledTotalsTable
           (map (fun row => (row, false)) rows
              ++ [(grand_total_row report, true)]) ].
Proof.
  intros Hrun report rows no_item.
  rewrite process_files_ok in Hrun. inversion Hrun as [E]. clear Hrun.
  assert (Forall good_entry processed_data) as Hgood
      by (rewrite <- E; apply entries_of_good).
  destruct (aggregate_good processed_data Hgood) as [Hrows _].
  fold report in Hrows. fold rows in Hrows.
  destruct (good_rows_are_not_the_grand_total rows Hrows) as [Hfilter Hstyle].
  assert (hospital_dist_item_totals report
          = rows ++ [{| total_Item := GRAND_TOTAL;
                        Total_Quantity := sum (quantities rows) |}])
    as Htotals by apply item_totals_shape.
  unfold results_display, grand_total_row.
  cbn [aggregated_data processed_files].
  fold rows. rewrite Htotals, last_last.
  rewrite (consolidated_rows_empty processed_data : is_empty rows = no_item).
  rewrite (distribution_rows_empty processed_data
           : is_empty (multi_file_hospital_distribution report) = no_item).
  assert (without_grand_total
            (rows ++ [{| total_Item := GRAND_TOTAL;
                         Total_Quantity := sum (quantities rows) |}])
          = rows) as Hbar.
  { unfold without_grand_total in *. rewrite filter_app, Hfilter.
    cbn [filter total_Item]. rewrite str_eqb_refl. apply app_nil_r. }
  assert (styled
            (rows ++ [{| total_Item := GRAND_TOTAL;
                         Total_Quantity := sum (quantities rows) |}])
          = map (fun row => (row, false)) rows
              ++ [({| total_Item := GRAND_TOTAL;
                      Total_Quantity := sum (quantities rows) |}, true)])
    as Hst.
  { unfold styled in *. rewrite map_app, Hstyle.
    cbn [map total_Item]. rewrite str_eqb_refl. reflexivity. }
  rewrite Hbar, Hst.
  assert (is_empty
            (rows ++ [{| total_Item := GRAND_TOTAL;
                         Total_Quantity := sum (quantities rows) |}])
          = false) as -> by (destruct rows; reflexivity).
  rewrite (consolidated_rows_empty processed_data : is_empty rows = no_item).
  destruct no_item; reflexivity.
Qed.

Lemma results_display_of_a_batch_witness :
  let files := [pdf "a.pdf" [page_of "نو ميون الكمية: 1200"]] in
  let processed_data := fst (entries_of (fun _ => noon) 0 files) in
  let report := aggregate processed_data in
  let rows := consolidated_en_items report in
  let no_item := is_empty (all_items processed_data) in
  fst (process_files files [] initial_world) = Ok processed_data
  /\ results_display
       {| processed_files := processed_data;
          aggregated_data := Some report |}
     = [ Subheader (u "📊 Processing Summary");
         Metric (u "Files Processed")
                (decimal (N.of_nat (success_count processed_data)) ++ u "/"
                   ++ decimal (N.of_nat (List.length processed_data)));
         Metric (u "Unique Products")
                (decimal (N.of_nat (List.length rows)));
         Metric (u "Total Items")
                (format_thousands (sum (map Total_Quantity rows)));
         Subheader (u "📈 Data Visualization") ]
       ++ (if no_item then [] else [PieChart rows; BarChart rows])
       ++ [ Subheader (u "1. Consolidated EN Items (All Files)");
            if no_item
            then Warning (u "No consolidated items data available")
            else TotalsTable rows;
            Subheader (u "2. Hospital Distribution (Multi-File)");
            if no_item
            then Warning (u "No hospital distribution data available")
            else DistributionTable
                   (multi_file_hospital_distribution report);
            Subheader (u "3. إجمالي الكمية لكل صنف (توزيع المستشفيات)");
            StyledTotalsTable
              (map (fun row => (row, false)) rows
                 ++ [(grand_total_row report, true)]) ].
Proof.
  intros files processed_data report rows no_item.
  assert (fst (process_files files [] initial_world) = Ok processed_data)
    as H by (vm_compute; reflexivity).
  split; [exact H|].
  exact (results_display_of_a_batch files initial_world processed_data H).
Defined.

(** The metric of the example above reads "1,200". *)
Lemma total_items_of_the_example :
  format_thousands 1200 = u "1,200"
  /\ format_thousands 1234567 = u "1,234,567"
  /\ format_thousands 999 = u "999"
  /\ format_thousands (-1234) = u "-1,234".
Proof. repeat split; vm_compute; reflexivity. Qed.

(** ** The processing report *)

Lemma entry_in_the_report (clock : nat -> datetime) (n : nat)
      (file : UploadedFile) :
  let entry := fst (entry_of clock n file) in
  has_data entry = succeeds file
  /\ has_error entry = negb (succeeds file)
  /\ (succeeds file = false -> error_box entry = failure_box file).
Proof.
  unfold succeeds, items_of, entry_of, failed_entry.
  destruct (fitz_open file) as [doc|e];
    [destruct (pages_loop doc []) as [items|e]|];
    cbn; repeat split; try reflexivity; discriminate.
Qed.

Lemma entries_in_the_report (clock : nat -> datetime)
      (files : list UploadedFile) :
  forall n,
    let entries := fst (entries_of clock n files) in
    List.length (filter has_data entries)
    = List.length (filter succeeds files)
    /\ existsb has_error entries = negb (forallb succeeds files)
    /\ map error_box (filter has_error entries)
       = map failure_box (filter (fun f => negb (succeeds f)) files).
Proof.
  induction files as [|f files IH]; intro n; cbn [entries_of].
  - repeat split; reflexivity.
  - destruct (entry_in_the_report clock n f) as [Hd [He Hb]].
    destruct (entry_of clock n f) as [entry n1]. cbn [fst] in *.
    specialize (IH n1).
    destruct (entries_of clock n1 files) as [entries n2]. cbn [fst] in *.
    destruct IH as [IH1 [IH2 IH3]].
    cbn [filter existsb forallb]. rewrite Hd, He, IH2.
    destruct (succeeds f); cbn [negb map List.length orb andb].
    + repeat split; try reflexivity; [congruence|assumption].
    + rewrite (Hb eq_refl), IH3. repeat split; try reflexivity.
      assumption.
Qed.

(** X16.  The processing report for the files of a batch: it is shown
    exactly when a document failed, and then holds one box per failed
    document, in the order of the files, with the file name and the text
    "Processing failed" (the message of the exception is not kept).  Every
    file is either counted as processed in the metric "Files Processed" or
    listed in the report. *)
Theorem processing_report_of_a_batch
        (uploaded_files : list UploadedFile) (w : world)
        (processed_data : list FileData)
        (aggregated : option AggregatedData) :
  fst (process_files uploaded_files [] w) = Ok processed_data ->
  error_reporting
    {| processed_files := processed_data; aggregated_data := aggregated |}
  = (if forallb succeeds uploaded_files then []
     else [Divider; Subheader (u "⚠️ Processing Report")]
            ++ map failure_box
                 (filter (fun f => negb (succeeds f)) uploaded_files))
  /\ success_count processed_data
     = List.length (filter succeeds uploaded_files)
  /\ (success_count processed_data
      + List.length (filter (fun f => negb (succeeds f)) uploaded_files)
      = List.length uploaded_files)%nat.
Proof.
  intro Hrun.
  rewrite process_files_ok in Hrun. inversion Hrun as [E]. clear Hrun.
  destruct (entries_in_the_report (wall w) uploaded_files (now_calls w))
    as [Hcount [Hany Hboxes]].
  rewrite E in *. unfold error_reporting, success_count.
  cbn [processed_files]. fold has_data.
  change (fun f : FileData =>
            match data f with Some _ => true | None => false end)
    with has_data.
  rewrite Hany, Hboxes, Hcount.
  split; [|split].
  - destruct (forallb succeeds uploaded_files) eqn:Hall;
      [rewrite andb_false_r; reflexivity|].
    destruct processed_data as [|e rest]; [|reflexivity].
    destruct uploaded_files as [|f files]; [discriminate Hall|].
    apply (f_equal (@List.length FileData)) in E.
    rewrite entries_of_length in E. discriminate E.
  - reflexivity.
  - clear. induction uploaded_files as [|f files IH]; [reflexivity|].
    cbn [filter]. destruct (succeeds f); cbn [negb List.length]; lia.
Qed.

Lemma processing_report_of_a_batch_witness :
  let files :=
    [ pdf "a.pdf" [page_of "نو ميون الكمية: 25"];
      broken_pdf "bad.pdf";
      pdf "en.pdf" [page_of "بليندرا Quantity: 5"] ] in
  let processed_data := fst (entries_of (fun _ => noon) 0 files) in
  fst (process_files files [] initial_world) = Ok processed_data
  /\ error_reporting
       {| processed_files := processed_data; aggregated_data := None |}
     = [ Divider; Subheader (u "⚠️ Processing Report");
         ErrorBox (u "**bad.pdf**: Processing failed");
         ErrorBox (u "**en.pdf**: Processing failed") ]
  /\ success_count processed_data = 1%nat.
Proof.
  intros files processed_data.
  assert (fst (process_files files [] initial_world) = Ok processed_data)
    as H by (vm_compute; reflexivity).
  split; [exact H|].
  destruct (processing_report_of_a_batch files initial_world processed_data
              None H) as [Hreport [Hcount _]].
  split.
  - rewrite Hreport. vm_compute. reflexivity.
  - rewrite Hcount. vm_compute. reflexivity.
Defined.

(** ** Further properties of the aggregation *)

Lemma aggregation_does_not_depend_on_document_order_witness :
  Permutation [sample_entry_a; sample_entry_b]
              [sample_entry_b; sample_entry_a]
  /\ (forall k,
         get (consolidated_items_of [sample_entry_a; sample_entry_b]) k 0
         = get (consolidated_items_of [sample_entry_b; sample_entry_a]) k 0)
  /\ Total_Quantity
       (grand_total_row (aggregate [sample_entry_a; sample_entry_b]))
     = Total_Quantity
         (grand_total_row (aggregate [sample_entry_b; sample_entry_a]))
  /\ Permutation
       (multi_file_hospital_distribution
          (aggregate [sample_entry_a; sample_entry_b]))
       (multi_file_hospital_distribution
          (aggregate [sample_entry_b; sample_entry_a])).
Proof.
  split; [apply perm_swap|].
  apply aggregation_does_not_depend_on_document_order. apply perm_swap.
Defined.

(** The order of the rows does depend on the order of the documents. *)
Lemma row_order_follows_document_order :
  map total_Item
      (consolidated_en_items (aggregate [sample_entry_a; sample_entry_b]))
  = [u "NeoMune"; u "Blendera MF"]
  /\ map total_Item
         (consolidated_en_items (aggregate [sample_entry_b; sample_entry_a]))
     = [u "NeoMune"; u "Blendera MF"]
  /\ map Total_Quantity
         (consolidated_en_items (aggregate [sample_entry_a; sample_entry_b]))
     = [30%Z; 10%Z].
Proof. repeat split; vm_compute; reflexivity. Qed.

Lemma flat_map_filter {A B} (f : A -> list B) (p : A -> bool) (l : list A) :
  (forall x, p x = false -> f x = []) ->
  flat_map f (filter p l) = flat_map f l.
Proof.
  intro H. induction l as [|x l IH]; [reflexivity|].
  cbn [filter flat_map]. destruct (p x) eqn:E.
  - cbn [flat_map]. rewrite IH. reflexivity.
  - rewrite (H x E), IH. reflexivity.
Qed.

Lemma filter_has_data_items (processed_data : list FileData) :
  all_items (filter has_data processed_data) = all_items processed_data
  /\ flat_map rows_of_entry (filter has_data processed_data)
     = flat_map rows_of_entry processed_data.
Proof.
  unfold all_items. split; apply flat_map_filter; intros entry;
    unfold has_data, items_of_entry, rows_of_entry;
    destruct (data entry); [discriminate|reflexivity
                           |discriminate|reflexivity].
Qed.

(** X18.  The failed documents leave no trace in the tables: aggregating a
    batch gives the same three tables as aggregating its successful
    documents alone. *)
Theorem failed_documents_do_not_change_the_tables
        (processed_data : list FileData) :
  aggregate processed_data = aggregate (filter has_data processed_data).
Proof.
  rewrite !aggregate_unfolded. cbv zeta.
  rewrite !consolidated_items_of_unfolded.
  destruct (filter_has_data_items processed_data) as [-> ->].
  reflexivity.
Qed.

(** ** Further properties of the product identification *)


Lemma description_pattern_compiled :
  Re.compile "Enteral powder.*cachectic"
  = sequence (literally (u "Enteral powder")
                ++ Re.MaxRepeat 0 None Re.Any :: literally (u "cachectic")).
Proof. vm_compute. reflexivity. Qed.





Lemma sequence_cons (p q : Re.pattern) (ps : list Re.pattern) :
  sequence (p :: q :: ps) = Re.Seq p (sequence (q :: ps)).
Proof. reflexivity. Qed.

Lemma run_literal_then ic (word : str) (ps : list Re.pattern) :
  ps <> [] ->
  forall (s : str) g k,
    Re.run ic (sequence (literally word ++ ps)) (word ++ s) g k
    = Re.run ic (sequence ps) s g k.
Proof.
  intros Hps. induction word as [|c word IH]; intros s g k.
  - reflexivity.
  - change (literally (c :: word) ++ ps)
      with (Re.One (Re.Literal c) :: (literally word ++ ps)).
    specialize (IH s g k).
    destruct (literally word ++ ps) as [|q r] eqn:E.
    + apply app_eq_nil in E as [_ E]. contradiction.
    + rewrite sequence_cons, run_seq. cbn [Re.run Re.atom_matches app].
      rewrite literal_matches_itself. exact IH.
Qed.

Lemma greedy_suffix {A} ic a (taken rest : str) (k : str -> option A) :
  forallb (Re.atom_matches ic a) taken = true ->
  found (k rest) = true ->
  found (Re.greedy ic a None (taken ++ rest) k) = true.
Proof.
  intros Ht Hk. induction taken as [|c taken IH]; cbn [app].
  - destruct rest as [|c rest]; cbn [Re.greedy]; [exact Hk|].
    destruct (Re.may_take None && Re.atom_matches ic a c); [|exact Hk].
    destruct (Re.greedy ic a (option_map Nat.pred None) rest k);
      [reflexivity|exact Hk].
  - cbn [forallb] in Ht. apply andb_true_iff in Ht as [Hc Ht].
    cbn [Re.greedy]. rewrite Hc. cbn [Re.may_take andb option_map].
    specialize (IH Ht).
    destruct (Re.greedy ic a None (taken ++ rest) k);
      [reflexivity|discriminate IH].
Qed.

Lemma search_here_found ic p (s : str) :
  found (Re.match_here ic p s) = true -> found (Re.search ic p s) = true.
Proof.
  intro H. destruct s; cbn [Re.search];
    destruct (Re.match_here ic p _); try discriminate; reflexivity.
Qed.

(** Two words with anything between them on one line. *)
Lemma search_two_words ic (w1 w2 before mid after : str) :
  w2 <> [] ->
  on_one_line mid ->
  found (Re.search ic
           (sequence (literally w1
                        ++ Re.MaxRepeat 0 None Re.Any :: literally w2))
           (before ++ w1 ++ mid ++ w2 ++ after)) = true.
Proof.
  intros Hw2 Hmid. apply search_later. apply search_here_found.
  unfold Re.match_here. cbn [Re.run].
  rewrite run_literal_then by discriminate.
  destruct w2 as [|c w2]; [contradiction|].
  cbn [literally map]. rewrite sequence_cons, run_seq, run_star.
  apply greedy_suffix.
  - exact Hmid.
  - change (Re.One (Re.Literal c)
              :: map (fun c0 => Re.One (Re.Literal c0)) w2)
      with (literally (c :: w2)).
    rewrite run_literal. reflexivity.
Qed.

(** X20.  The English description of NeoMune is recognised in any case and
    with anything between its two halves, as long as they are on one line:
    a text that reads, up to the case of its letters, "Enteral powder", then
    any characters but a line break, then "cachectic", is identified as
    NeoMune. *)
Theorem english_description_of_neomune_is_identified
        (text before mid after : str) :
  same_text_folded text
    (before ++ u "Enteral powder" ++ mid ++ u "cachectic" ++ after) ->
  on_one_line mid ->
  identify_product text = Some (u "NeoMune").
Proof.
  intros Hfold Hmid. unfold identify_product.
  rewrite (identify_product_in_folded PRODUCT_MAP _ _ Hfold).
  unfold PRODUCT_MAP. cbn [identify_product_in some_pattern_matches].
  destruct (re_search_IGNORECASE "نو ميون" _); [reflexivity|].
  unfold re_search_IGNORECASE. rewrite description_pattern_compiled.
  pose proof (search_two_words true (u "Enteral powder") (u "cachectic")
                before mid after ltac:(discriminate) Hmid) as H.
  destruct (Re.search true _ _); [reflexivity|discriminate H].
Qed.

Lemma english_description_of_neomune_is_identified_witness :
  same_text_folded
    (u "Item: ENTERAL POWDER for the Cachectic patient")
    (u "Item: " ++ u "Enteral powder" ++ u " for the " ++ u "cachectic"
       ++ u " patient")
  /\ on_one_line (u " for the ")
  /\ identify_product (u "Item: ENTERAL POWDER for the Cachectic patient")
     = Some (u "NeoMune").
Proof.
  assert (same_text_folded
            (u "Item: ENTERAL POWDER for the Cachectic patient")
            (u "Item: " ++ u "Enteral powder" ++ u " for the "
               ++ u "cachectic" ++ u " patient")) as Hfold
      by (apply same_text_foldedb_sound; vm_compute; reflexivity).
  assert (on_one_line (u " for the ")) as Hmid by (vm_compute; reflexivity).
  split; [exact Hfold|]. split; [exact Hmid|].
  exact (english_description_of_neomune_is_identified _ _ _ _ Hfold Hmid).
Defined.

(** Across a line break the description is not recognised. *)
Lemma description_across_lines_is_not_identified :
  identify_product (u "Enteral powder" ++ [0x0A]%N ++ u "cachectic") = None.
Proof. vm_compute. reflexivity. Qed.
